(** * MemoryService: a shallow embedding of
    [src/learning-agent/services/memory_service.py]

    The service wraps a ChromaDB collection.  The Python methods are
    translated one by one; the objects they talk to (the ChromaDB client,
    the file system, [datetime], [hashlib]) are external to the repository
    and are represented by a small executable world model.

    Conventions.
    - A Python [str] is a [string], one element per character; [len],
      slicing and [<] are the per-character operations.
    - A Python [int] is a [Z]; a Python [float] is [pyfloat].
    - A [dict] is a [gmap]; a value that may be [None] is an [option].
    - A method that may raise returns a [Result]; the mutable world is
      threaded explicitly.
    - Calls to [logger] have no effect on any modelled value and are left
      out. *)

From Stdlib Require Import ZArith QArith String Ascii List Bool Lia.
From Stdlib Require Import DecimalString Permutation Sorted.
From stdpp Require Import gmap strings list fin_maps.
Close Scope Q_scope.

Set Default Proof Using "Type".

(** ** Python values *)

Module Py.

(** Exceptions that the modelled code can see. *)
Inductive exn :=
| RuntimeError (msg : string)
| IndexError
| ValueError (msg : string)
| OverflowError (msg : string)
| AssertionError
| KeyError (key : string)
| ExternalError (msg : string).

(** [str(e)] for the error fields of the result dictionaries. *)
Definition str_of_exn (e : exn) : string :=
  match e with
  | RuntimeError m => m
  | IndexError => "list index out of range"
  | ValueError m => m
  | OverflowError m => m
  | AssertionError => ""
  | KeyError k => k
  | ExternalError m => m
  end.

Inductive Result (A : Type) :=
| Ok (a : A)
| Raise (e : exn).
Arguments Ok {A} a.
Arguments Raise {A} e.

Definition bind {A B} (r : Result A) (k : A -> Result B) : Result B :=
  match r with
  | Ok a => k a
  | Raise e => Raise e
  end.

(** A Python float: not-a-number, the two infinities, or a finite number
    (every finite double is a rational). *)
Inductive pyfloat :=
| FNaN
| FInf (negative : bool)
| FNum (q : Q).

(** [x < y] on floats. Every comparison with NaN is false. *)
Definition float_lt (x y : pyfloat) : bool :=
  match x, y with
  | FNaN, _ | _, FNaN => false
  | FInf true, FInf true => false
  | FInf true, _ => true
  | _, FInf true => false
  | FInf false, _ => false
  | FNum _, FInf false => true
  | FNum a, FNum b => negb (Qle_bool b a)
  end.

(** [x == y] on floats. *)
Definition float_eq (x y : pyfloat) : bool :=
  match x, y with
  | FInf a, FInf b => Bool.eqb a b
  | FNum a, FNum b => Qeq_bool a b
  | _, _ => false
  end.

(** [int(x)] on a float truncates towards zero and raises on NaN and on
    the infinities. *)
Definition int_of_float (x : pyfloat) : Result Z :=
  match x with
  | FNaN => Raise (ValueError "cannot convert float NaN to integer")
  | FInf _ => Raise (OverflowError "cannot convert float infinity to integer")
  | FNum q => Ok (Z.quot (Qnum q) (Z.pos (Qden q)))
  end.

(** Scalar metadata values. *)
Inductive Value :=
| VStr (s : string)
| VInt (n : Z)
| VFloat (x : pyfloat)
| VBool (b : bool).

#[global] Instance Q_eq_dec : EqDecision Q.
Proof. solve_decision. Defined.
#[global] Instance pyfloat_eq_dec : EqDecision pyfloat.
Proof. solve_decision. Defined.
#[global] Instance Value_eq_dec : EqDecision Value.
Proof. solve_decision. Defined.

(** [len(s)] *)
Definition len (s : string) : Z := Z.of_nat (String.length s).

(** [s[:n]] for a non-negative literal [n]. *)
Definition prefix (n : Z) (s : string) : string :=
  substring 0 (Z.to_nat n) s.

(** [s1 < s2] on strings: lexicographic on characters. *)
Definition str_lt (s1 s2 : string) : bool := String.ltb s1 s2.

(** [f"{n}"] for an integer. *)
Definition str_of_int (n : Z) : string := NilZero.string_of_int (Z.to_int n).

(** [sorted(l, key=...)] with float keys.  Python's sort is stable and
    compares keys with [<] only; this is the stable insertion sort with the
    same comparisons (on keys without NaN every stable sort returns the
    same list). *)
Fixpoint insert {A} (key : A -> pyfloat) (x : A) (l : list A) : list A :=
  match l with
  | [] => [x]
  | y :: l' => if float_lt (key y) (key x) then y :: insert key x l'
               else x :: y :: l'
  end.

Definition sorted {A} (key : A -> pyfloat) (l : list A) : list A :=
  foldr (insert key) [] l.

End Py.
Import Py.

Abbreviation Metadata := (gmap string Value).

(** ** The world outside the service *)

(** One stored row of a collection.  ChromaDB reports [None] for the
    metadata of a row stored without any. *)
Record Entry := mkEntry {
  e_id : string;
  e_document : string;
  e_metadata : option Metadata
}.

(** What [collection.add] does with an id that is already present. *)
Inductive DupPolicy := Overwrite | Ignore | Reject.

(** A [chromadb.Collection] object: the database path and the name. *)
Abbreviation Handle := (string * string)%type.

(** The state shared with the environment.
    - [collections]: rows of every collection, in insertion order;
    - [on_duplicate]: the duplicate-id policy of the backend;
    - [schedule]: outcome of the coming external calls, one element per
      call; [Some msg] makes the call raise, [None] and an exhausted
      schedule let it run;
    - [clock]: the coming readings of [datetime.now()], as microseconds;
      the last reading repeats;
    - [deletions]: journal of the ids handed to [collection.delete]. *)
Record World := mkWorld {
  collections : gmap Handle (list Entry);
  on_duplicate : DupPolicy;
  schedule : list (option string);
  clock : list Z;
  deletions : list string
}.

Definition set_collections (w : World) (c : gmap Handle (list Entry)) : World :=
  mkWorld c (on_duplicate w) (schedule w) (clock w) (deletions w).
Definition set_schedule (w : World) (s : list (option string)) : World :=
  mkWorld (collections w) (on_duplicate w) s (clock w) (deletions w).
Definition set_clock (w : World) (c : list Z) : World :=
  mkWorld (collections w) (on_duplicate w) (schedule w) c (deletions w).
Definition set_deletions (w : World) (d : list string) : World :=
  mkWorld (collections w) (on_duplicate w) (schedule w) (clock w) d.

(** Computations against the world. *)
Definition IO (A : Type) : Type := World -> Result A * World.

Definition ret {A} (a : A) : IO A := fun w => (Ok a, w).
Definition raise {A} (e : exn) : IO A := fun w => (Raise e, w).
Definition lift {A} (r : Result A) : IO A := fun w => (r, w).

Definition iobind {A B} (m : IO A) (k : A -> IO B) : IO B :=
  fun w => match m w with
           | (Ok a, w') => k a w'
           | (Raise e, w') => (Raise e, w')
           end.

(** [try: m  except Exception as e: h e] *)
Definition try_except {A} (m : IO A) (h : exn -> IO A) : IO A :=
  fun w => match m w with
           | (Ok a, w') => (Ok a, w')
           | (Raise e, w') => h e w'
           end.

Notation "'let*' x ':=' m 'in' k" := (iobind m (fun x => k))
  (at level 10, x name, m at level 100, k at level 200).
Notation "'run' m 'in' k" := (iobind m (fun _ => k))
  (at level 10, m at level 100, k at level 200).

(** An external call: consumes one element of the schedule and raises
    when that element says so. *)
Definition external {A} (body : IO A) : IO A :=
  fun w => match schedule w with
           | Some msg :: rest => (Raise (ExternalError msg), set_schedule w rest)
           | None :: rest => body (set_schedule w rest)
           | [] => body w
           end.

(** [datetime.now()] *)
Definition datetime_now : IO Z :=
  fun w => match clock w with
           | [] => (Ok 0%Z, w)
           | [t] => (Ok t, w)
           | t :: rest => (Ok t, set_clock w rest)
           end.

(** Naive datetimes are microseconds since 0001-01-01T00:00:00; the last
    representable one is 9999-12-31T23:59:59.999999. *)
Definition usec_per_day : Z := 86400 * 1000000.
Definition datetime_max : Z := 3652059 * usec_per_day - 1.

(** [t - timedelta(days=d)]: [timedelta] accepts at most 999999999 days in
    magnitude and the difference must be a representable datetime. *)
Definition minus_days (t d : Z) : Result Z :=
  if (Z.abs d >? 999999999)%Z
  then Raise (OverflowError ("days=" +:+ str_of_int d
                             +:+ "; must have magnitude <= 999999999"))
  else let r := (t - d * usec_per_day)%Z in
       if ((r <? 0) || (datetime_max <? r))%Z
       then Raise (OverflowError "date value out of range")
       else Ok r.

(** Library functions that the model takes as given. *)
Record Library := mkLibrary {
  (** [hashlib.md5(s.encode()).hexdigest()] *)
  md5_hexdigest : string -> string;
  (** [t.isoformat()] *)
  isoformat : Z -> string;
  (** [int(t.timestamp())] *)
  timestamp : Z -> Z;
  (** the vector index: which of the candidate rows (by position) answer
      a query for at most [n] neighbours, in the order it reports them *)
  nearest : string -> Z -> list Entry -> list nat;
  (** the distance the vector index reports for a row *)
  distance_to : string -> Entry -> pyfloat
}.

(** *** Collections *)

Definition rows (h : Handle) (w : World) : list Entry :=
  default [] (collections w !! h).

Definition has_id (i : string) (l : list Entry) : bool :=
  existsb (fun e => String.eqb (e_id e) i) l.

Fixpoint replace_row (n : Entry) (l : list Entry) : list Entry :=
  match l with
  | [] => []
  | e :: l' => if String.eqb (e_id e) (e_id n) then n :: l'
               else e :: replace_row n l'
  end.

(** Modelled from the spec: the chromadb package behind the service is a
    third-party library and not part of the sources; the collection calls
    below follow the vector-index contract of the spec (section 6: store
    by id, query, delete by ids, count, scan with an optional limit) on
    rows kept in insertion order.  What [add] does with an id that is
    already present is left open by [on_duplicate].

    [collection.add(documents=[doc], metadatas=[meta], ids=[i])] *)
Definition coll_add (h : Handle) (doc : string) (meta : Metadata) (i : string)
  : IO unit :=
  external (fun w =>
    let l := rows h w in
    let n := mkEntry i doc (Some meta) in
    if has_id i l then
      match on_duplicate w with
      | Overwrite => (Ok tt, set_collections w (<[h := replace_row n l]> (collections w)))
      | Ignore => (Ok tt, w)
      | Reject => (Raise (ExternalError ("ID already exists: " +:+ i)), w)
      end
    else (Ok tt, set_collections w (<[h := l ++ [n]]> (collections w)))).

(** The dictionary returned by [collection.get]. *)
Record GetResult := mkGetResult {
  g_ids : list string;
  g_documents : list string;
  g_metadatas : list (option Metadata)
}.

Definition get_result (l : list Entry) : GetResult :=
  mkGetResult (map e_id l) (map e_document l) (map e_metadata l).

(** [collection.get(ids=[i])] *)
Definition coll_get_ids (h : Handle) (ids : list string) : IO GetResult :=
  external (fun w =>
    (Ok (get_result (filter (fun e => bool_decide (e_id e ∈ ids)) (rows h w))), w)).

(** [collection.get()] and [collection.get(limit=n)] *)
Definition coll_get_all (h : Handle) (limit : option Z) : IO GetResult :=
  external (fun w =>
    let l := rows h w in
    (Ok (get_result (match limit with
                     | None => l
                     | Some n => take (Z.to_nat n) l
                     end)), w)).

(** [collection.count()] *)
Definition coll_count (h : Handle) : IO Z :=
  external (fun w => (Ok (Z.of_nat (length (rows h w))), w)).

(** [collection.delete(ids=ids)] *)
Definition coll_delete (h : Handle) (ids : list string) : IO unit :=
  external (fun w =>
    let l := filter (fun e => negb (bool_decide (e_id e ∈ ids))) (rows h w) in
    (Ok tt, set_deletions (set_collections w (<[h := l]> (collections w)))
                          (deletions w ++ ids))).

(** The dictionary returned by [collection.query] for one query text. *)
Record QueryResult := mkQueryResult {
  q_ids : option (list (list string));
  q_documents : option (list (list string));
  q_distances : option (list (list pyfloat));
  q_metadatas : option (list (list (option Metadata)))
}.

(** [where=flt]: exact match on every key of the filter. *)
Definition matches_where (flt : option Metadata) (e : Entry) : bool :=
  match flt with
  | None => true
  | Some f =>
      bool_decide (map_Forall (fun k v => default ∅ (e_metadata e) !! k = Some v) f)
  end.

(** [collection.query(query_texts=[query], n_results=n, where=flt)]: the
    rows that pass the filter are handed to the vector index, which names
    the hits; ChromaDB refuses [n_results <= 0]. *)
Definition coll_query (lib : Library) (h : Handle) (query : string) (n : Z)
  (flt : option Metadata) : IO QueryResult :=
  external (fun w =>
    if (n <=? 0)%Z
    then (Raise (ExternalError "Number of requested results cannot be negative, or zero."), w)
    else
      let cands := filter (matches_where flt) (rows h w) in
      let hits := omap (fun i => cands !! i) (nearest lib query n cands) in
      (Ok (mkQueryResult (Some [map e_id hits])
                         (Some [map e_document hits])
                         (Some [map (distance_to lib query) hits])
                         (Some [map e_metadata hits])), w)).

(** [db_path.mkdir(parents=True, exist_ok=True)] *)
Definition mkdir (path : string) : IO unit := external (ret tt).

(** [chromadb.PersistentClient(path=str(db_path), ...)] *)
Definition PersistentClient (path : string) : IO string := external (ret path).

(** [client.get_or_create_collection(name=name, ...)] *)
Definition get_or_create_collection (client name : string) : IO Handle :=
  external (fun w =>
    let h := (client, name) in
    match collections w !! h with
    | Some _ => (Ok h, w)
    | None => (Ok h, set_collections w (<[h := []]> (collections w)))
    end).

(** ** The service *)

Record MemoryService := mkMemoryService {
  collection_name : string;
  client : option string;
  collection : option Handle;
  _initialized : bool
}.

(** [MemoryService.__init__] *)
Definition init (collection_name : string) : MemoryService :=
  mkMemoryService collection_name None None false.

Definition default_collection_name : string := "learning_data".

(** [str(Path("./data/chroma"))] *)
Definition default_db_path : string := "data/chroma".

(** [MemoryService.initialize]; the service object is returned next to the
    outcome because it is updated step by step. *)
Definition initialize (self : MemoryService) (db_path : option string)
  : World -> Result unit * MemoryService * World :=
  fun w =>
    if _initialized self then (Ok tt, self, w)
    else
      let db_path := default default_db_path db_path in
      match mkdir db_path w with
      | (Raise e, w1) => (Raise e, self, w1)
      | (Ok _, w1) =>
          match PersistentClient db_path w1 with
          | (Raise e, w2) => (Raise e, self, w2)
          | (Ok c, w2) =>
              let self1 :=
                mkMemoryService (collection_name self) (Some c)
                                (collection self) (_initialized self) in
              match get_or_create_collection c (collection_name self1) w2 with
              | (Raise e, w3) => (Raise e, self1, w3)
              | (Ok h, w3) =>
                  (Ok tt,
                   mkMemoryService (collection_name self1) (client self1)
                                   (Some h) true,
                   w3)
              end
          end
      end.

Definition not_initialized_msg : string :=
  "Memory service not initialized. Call initialize() first.".

(** [MemoryService._ensure_initialized] *)
Definition _ensure_initialized (self : MemoryService) : Result unit :=
  if negb (_initialized self) || negb (bool_decide (is_Some (collection self)))
  then Raise (RuntimeError not_initialized_msg)
  else Ok tt.

(** [assert self.collection is not None] followed by the use of the
    collection. *)
Definition with_collection {A} (self : MemoryService) (k : Handle -> IO A)
  : IO A :=
  match collection self with
  | None => raise AssertionError
  | Some h => k h
  end.

(** [MemoryService.close] *)
Definition close (self : MemoryService) : MemoryService :=
  match client self with
  | Some _ => mkMemoryService (collection_name self) None None false
  | None => self
  end.

(** *** store_document *)

Inductive StoreResult :=
| Stored (doc_id : string) (content_length : Z) (timestamp : Value)
         (metadata : Metadata)
| StoreFailed (error : string) (doc_id : string).

(** [metadata or {}] *)
Definition metadata_or_empty (metadata : option Metadata) : Metadata :=
  match metadata with
  | Some m => if bool_decide (m = ∅) then ∅ else m
  | None => ∅
  end.

(** [d[k]] *)
Definition getitem (d : Metadata) (k : string) : Result Value :=
  match d !! k with
  | Some v => Ok v
  | None => Raise (KeyError k)
  end.

Definition store_document (lib : Library) (self : MemoryService)
  (content : string) (doc_id : option string) (metadata : option Metadata)
  : IO StoreResult :=
  run lift (_ensure_initialized self) in
  let* doc_id :=
    match doc_id with
    | None =>
        let content_hash := prefix 8 (md5_hexdigest lib content) in
        let* now := datetime_now in
        ret ("doc_" +:+ content_hash +:+ "_" +:+ str_of_int (timestamp lib now))
    | Some d => ret d
    end in
  let doc_metadata := metadata_or_empty metadata in
  let* now := datetime_now in
  let doc_metadata :=
    <["content_length" := VInt (len content)]>
      (<["created_at" := VStr (isoformat lib now)]> doc_metadata) in
  let embedding_content :=
    if (len content >? 8000)%Z then prefix 8000 content else content in
  try_except
    (with_collection self (fun h =>
       run coll_add h embedding_content doc_metadata doc_id in
       let* created_at := lift (getitem doc_metadata "created_at") in
       ret (Stored doc_id (len content) created_at doc_metadata)))
    (fun e => ret (StoreFailed (str_of_exn e) doc_id)).

(** *** search_documents *)

Record DocData := mkDocData {
  dd_doc_id : option string;
  dd_content : string;
  dd_content_preview : string;
  dd_metadata : option Metadata;
  dd_distance : pyfloat
}.

(** [r[k][0] if r[k] and r[k][0] else []] *)
Definition first_or_empty {A} (x : option (list (list A))) : list A :=
  match x with
  | Some (l :: _) => l
  | _ => []
  end.

(** [doc[:200] + "..." if len(doc) > 200 else doc] *)
Definition content_preview (doc : string) : string :=
  if (len doc >? 200)%Z then prefix 200 doc +:+ "..." else doc.

(** The [for i, doc in enumerate(docs_list)] loop, from index [i] on. *)
Fixpoint format_loop (i : nat) (docs_list : list string)
  (distances_list : list pyfloat) (metadatas_list : list (option Metadata))
  (ids_list : list string) : Result (list DocData) :=
  match docs_list with
  | [] => Ok []
  | doc :: rest =>
      match distances_list !! i with
      | None => Raise IndexError
      | Some distance =>
          let doc_data :=
            mkDocData (ids_list !! i) doc (content_preview doc)
                      (default (Some ∅) (metadatas_list !! i)) distance in
          bind (format_loop (S i) rest distances_list metadatas_list ids_list)
               (fun documents => Ok (doc_data :: documents))
      end
  end.

(** The [documents] list before sorting. *)
Definition format_results (results : QueryResult) : Result (list DocData) :=
  format_loop 0 (first_or_empty (q_documents results))
              (first_or_empty (q_distances results))
              (first_or_empty (q_metadatas results))
              (first_or_empty (q_ids results)).

Definition search_documents (lib : Library) (self : MemoryService)
  (query : string) (limit : Z) (metadata_filter : option Metadata)
  : IO (list DocData) :=
  run lift (_ensure_initialized self) in
  try_except
    (with_collection self (fun h =>
       let* results := coll_query lib h query limit metadata_filter in
       let* documents := lift (format_results results) in
       ret (sorted dd_distance documents)))
    (fun _ => ret []).

(** *** get_document *)

Record Document := mkDocument {
  d_doc_id : string;
  d_content : string;
  d_metadata : option Metadata
}.

(** Truth value of a string. *)
Definition str_truthy (s : string) : bool := negb (String.eqb s "").

Definition get_document (self : MemoryService) (doc_id : string)
  : IO (option Document) :=
  run lift (_ensure_initialized self) in
  try_except
    (with_collection self (fun h =>
       let* results := coll_get_ids h [doc_id] in
       match g_documents results with
       | d :: _ =>
           if str_truthy d then
             ret (Some (mkDocument doc_id d
                          (match g_metadatas results with
                           | m :: _ => m
                           | [] => Some ∅
                           end)))
           else ret None
       | [] => ret None
       end))
    (fun _ => ret None).

(** *** delete_document *)

Definition delete_document (self : MemoryService) (doc_id : string)
  : IO bool :=
  run lift (_ensure_initialized self) in
  try_except
    (with_collection self (fun h =>
       run coll_delete h [doc_id] in
       ret true))
    (fun _ => ret false).

(** *** get_collection_stats *)

Record Stats := mkStats {
  st_collection_name : string;
  st_total_documents : Z;
  st_total_content_length : Z;
  st_avg_content_length : Z;
  st_initialized : bool;
  st_error : option string
}.

(** Truth value of a metadata entry that may be [None] or empty. *)
Definition metadata_truthy (m : option Metadata) : option Metadata :=
  match m with
  | Some d => if bool_decide (d = ∅) then None else Some d
  | None => None
  end.

(** [int(v)] when [isinstance(v, (int, float))]; booleans are integers. *)
Definition int_if_number (v : Value) : option (Result Z) :=
  match v with
  | VInt n => Some (Ok n)
  | VBool b => Some (Ok (if b then 1 else 0)%Z)
  | VFloat x => Some (int_of_float x)
  | VStr _ => None
  end.

(** The [for metadata in metadatas_list] loop over the sample. *)
Fixpoint total_length_loop (total_length : Z)
  (metadatas_list : list (option Metadata)) : Result Z :=
  match metadatas_list with
  | [] => Ok total_length
  | metadata :: rest =>
      match metadata_truthy metadata with
      | Some d =>
          match d !! "content_length" with
          | Some content_length =>
              match int_if_number content_length with
              | Some r =>
                  bind r (fun n => total_length_loop (total_length + n) rest)
              | None => total_length_loop total_length rest
              end
          | None => total_length_loop total_length rest
          end
      | None => total_length_loop total_length rest
      end
  end.

(** [total_length // len(metadatas) if metadatas else 0] *)
Definition avg_length (total_length : Z) (metadatas : list (option Metadata))
  : Z :=
  match metadatas with
  | [] => 0
  | _ => total_length / Z.of_nat (length metadatas)
  end%Z.

Definition get_collection_stats (self : MemoryService) : IO Stats :=
  run lift (_ensure_initialized self) in
  try_except
    (with_collection self (fun h =>
       let* count := coll_count h in
       let* sample_results := coll_get_all h (Some (Z.min 100 count)) in
       let* total_length :=
         lift (total_length_loop 0 (g_metadatas sample_results)) in
       let avg := avg_length total_length (g_metadatas sample_results) in
       ret (mkStats (collection_name self) count total_length avg
                    (_initialized self) None)))
    (fun e =>
       ret (mkStats (collection_name self) 0 0 0 (_initialized self)
                    (Some (str_of_exn e)))).

(** *** cleanup_old_documents *)

Inductive CleanupResult :=
| Cleaned (removed : Z) (cutoff_date : string) (max_age_days : Z)
| CleanupFailed (removed : Z) (error : string).

(** [isinstance(created_at, str) and created_at < cutoff_iso] *)
Definition is_old (cutoff_iso : string) (created_at : Value) : bool :=
  match created_at with
  | VStr s => str_lt s cutoff_iso
  | _ => false
  end.

(** The [for i, metadata in enumerate(metadatas_list)] loop, from index
    [i] on; returns the ids appended to [old_doc_ids]. *)
Fixpoint old_ids_loop (cutoff_iso : string) (i : nat)
  (metadatas_list : list (option Metadata)) (ids_list : list string)
  : Result (list string) :=
  match metadatas_list with
  | [] => Ok []
  | metadata :: rest =>
      let continue := old_ids_loop cutoff_iso (S i) rest ids_list in
      match metadata_truthy metadata with
      | Some d =>
          match d !! "created_at" with
          | Some created_at =>
              if is_old cutoff_iso created_at then
                match ids_list !! i with
                | Some doc_id => bind continue (fun l => Ok (doc_id :: l))
                | None => Raise IndexError
                end
              else continue
          | None => continue
          end
      | None => continue
      end
  end.

Definition cleanup_old_documents (lib : Library) (self : MemoryService)
  (max_age_days : Z) : IO CleanupResult :=
  run lift (_ensure_initialized self) in
  try_except
    (let* now := datetime_now in
     let* cutoff_date := lift (minus_days now max_age_days) in
     let cutoff_iso := isoformat lib cutoff_date in
     with_collection self (fun h =>
       let* all_docs := coll_get_all h None in
       let* old_doc_ids :=
         lift (old_ids_loop cutoff_iso 0 (g_metadatas all_docs)
                            (g_ids all_docs)) in
       run (match old_doc_ids with
            | [] => ret tt
            | _ => coll_delete h old_doc_ids
            end) in
       ret (Cleaned (Z.of_nat (length old_doc_ids)) cutoff_iso max_age_days)))
    (fun e => ret (CleanupFailed 0 (str_of_exn e))).

(** ** Vocabulary of the statements *)

(** The service is usable and bound to collection [h]. *)
Definition Ready (self : MemoryService) (h : Handle) : Prop :=
  _initialized self = true /\ collection self = Some h.

(** The call was refused with the not-initialized error and left the
    world as it was. *)
Definition refused {A} (r : Result A * World) (w : World) : Prop :=
  r = (Raise (RuntimeError not_initialized_msg), w).

(** The coming [n] external calls do not raise. *)
Definition calm (n : nat) (w : World) : Prop :=
  Forall (fun o => o = None) (take n (schedule w)).

(** Service objects that a program can build: the constructor followed by
    any number of [initialize] and [close] calls. *)
Inductive reachable : MemoryService -> Prop :=
| reach_init name : reachable (init name)
| reach_initialize self db_path w :
    reachable self -> reachable (snd (fst (initialize self db_path w)))
| reach_close self : reachable self -> reachable (close self).

(** [x <= y] on floats. *)
Definition float_le (x y : pyfloat) : bool :=
  match x, y with
  | FNaN, _ | _, FNaN => false
  | FInf true, _ => true
  | _, FInf false => true
  | FInf false, _ => false
  | _, FInf true => false
  | FNum a, FNum b => Qle_bool a b
  end.

(** A list of search results in non-decreasing order of distance. *)
Definition nondecreasing (l : list DocData) : Prop :=
  StronglySorted (fun a b => float_le (dd_distance a) (dd_distance b) = true) l.

(** The results at distance [d], in list order. *)
Definition at_distance (d : pyfloat) (l : list DocData) : list DocData :=
  filter (fun r => float_eq (dd_distance r) d = true) l.

(** The list [l] presents the hits of a backend answer in the backend's
    order: position by position it carries the answer's document text,
    distance and id. *)
Definition in_backend_order (results : QueryResult) (l : list DocData) : Prop :=
  length l = length (first_or_empty (q_documents results)) /\
  forall j r, l !! j = Some r ->
    first_or_empty (q_documents results) !! j = Some (dd_content r) /\
    first_or_empty (q_distances results) !! j = Some (dd_distance r) /\
    first_or_empty (q_ids results) !! j = dd_doc_id r.

(** The row [e] is in collection [h]. *)
Definition stored_in (h : Handle) (w : World) (e : Entry) : Prop :=
  e ∈ rows h w.

(** The ids of a collection are pairwise distinct. *)
Definition distinct_ids (h : Handle) (w : World) : Prop :=
  NoDup (map e_id (rows h w)).

(** The [created_at] value of a row, when its metadata has one. *)
Definition created_at_of (e : Entry) : option Value :=
  match e_metadata e with
  | Some d => d !! "created_at"
  | None => None
  end.

(** The next reading of the clock. *)
Definition reading (w : World) : Z :=
  match clock w with
  | [] => 0%Z
  | t :: _ => t
  end.

(** The cutoff text that [cleanup_old_documents] computes in world [w]. *)
Definition cutoff_iso_of (lib : Library) (w : World) (max_age_days : Z)
  : Result string :=
  bind (minus_days (reading w) max_age_days) (fun d => Ok (isoformat lib d)).

(** The row has a [created_at] string that is below the cutoff. *)
Definition eligible (cutoff_iso : string) (e : Entry) : bool :=
  match created_at_of e with
  | Some v => is_old cutoff_iso v
  | None => false
  end.

(** Following the spec's words, "a well-formed ISO-8601 timestamp": the
    shape [YYYY-MM-DDTHH:MM:SS] with an optional [.ffffff], which is what
    [isoformat()] writes.  In a pattern [d] stands for a digit. *)
Definition is_digit (c : ascii) : bool :=
  (48 <=? nat_of_ascii c) && (nat_of_ascii c <=? 57).

Fixpoint match_pattern (pat s : string) : option string :=
  match pat with
  | EmptyString => Some s
  | String p pat' =>
      match s with
      | EmptyString => None
      | String c s' =>
          if (if Ascii.eqb p "d" then is_digit c else Ascii.eqb p c)
          then match_pattern pat' s'
          else None
      end
  end.

Definition well_formed_iso (s : string) : bool :=
  match match_pattern "dddd-dd-ddTdd:dd:dd" s with
  | Some EmptyString => true
  | Some rest =>
      match match_pattern ".dddddd" rest with
      | Some EmptyString => true
      | _ => false
      end
  | None => false
  end.

(** ** A concrete library and world
    Used to run the model on examples: the calendar arithmetic of
    [isoformat] for naive datetimes, and a small vector index. *)

Module Demo.

(** Decimal digits of [n], zero-padded on the left to [width]. *)
Fixpoint zeros (n : nat) : string :=
  match n with
  | O => ""
  | S k => "0" +:+ zeros k
  end.

Definition digits (width : nat) (n : Z) : string :=
  let s := str_of_int n in
  zeros (width - String.length s) +:+ s.

(** Year, month and day of the day number [days] (day 0 is 0001-01-01). *)
Definition civil_from_days (days : Z) : Z * Z * Z :=
  let z := (days + 306)%Z in
  let era := (z / 146097)%Z in
  let doe := (z - era * 146097)%Z in
  let yoe := ((doe - doe / 1460 + doe / 36524 - doe / 146096) / 365)%Z in
  let doy := (doe - (365 * yoe + yoe / 4 - yoe / 100))%Z in
  let mp := ((5 * doy + 2) / 153)%Z in
  let d := (doy - (153 * mp + 2) / 5 + 1)%Z in
  let m := (if (mp <? 10)%Z then mp + 3 else mp - 9)%Z in
  let y := (yoe + era * 400 + (if (m <=? 2)%Z then 1 else 0))%Z in
  (y, m, d).

Definition iso_of_usec (t : Z) : string :=
  let '(y, m, d) := civil_from_days (t / usec_per_day) in
  let rest := (t mod usec_per_day)%Z in
  let secs := (rest / 1000000)%Z in
  let us := (rest mod 1000000)%Z in
  digits 4 y +:+ "-" +:+ digits 2 m +:+ "-" +:+ digits 2 d +:+ "T" +:+
  digits 2 (secs / 3600) +:+ ":" +:+ digits 2 ((secs / 60) mod 60) +:+ ":" +:+
  digits 2 (secs mod 60) +:+
  (if (us =? 0)%Z then "" else "." +:+ digits 6 us).

(** Seconds since 1970-01-01 for a clock that runs on UTC. *)
Definition unix_seconds (t : Z) : Z :=
  ((t - 719162 * usec_per_day) / 1000000)%Z.

(** A vector index that reports every candidate, last row first, and
    measures distance by the difference in length. *)
Definition lib : Library :=
  mkLibrary
    (fun _ => "5d41402abc4b2a76b9719d911017c592")
    iso_of_usec
    unix_seconds
    (fun _ n l => take (Z.to_nat n) (rev (seq 0 (length l))))
    (fun q e => FNum (inject_Z (Z.abs (len q - len (e_document e))))).

(** 2025-01-01T00:00:00 and the days around it. *)
Definition jan1 : Z := 739251 * usec_per_day.
Definition day (n : Z) : Z := (jan1 + n * usec_per_day)%Z.

Definition path : string := "data/chroma".
Definition h0 : Handle := (path, default_collection_name).

Definition ready : MemoryService :=
  mkMemoryService default_collection_name (Some path) (Some h0) true.

Definition world (l : list Entry) (p : DupPolicy) (s : list (option string))
  (c : list Z) : World :=
  mkWorld {[ h0 := l ]} p s c [].

Definition meta (l : list (string * Value)) : option Metadata :=
  Some (list_to_map l).

(** A text of [n] characters. *)
Fixpoint text (n : nat) (c : ascii) : string :=
  match n with
  | O => ""
  | S k => String c (text k c)
  end.

Definition long_content : string := text (Z.to_nat 8001) "a".

(** [n] rows whose ids start with [tag], each recording the content
    length [size]. *)
Fixpoint bulk (tag : string) (n : nat) (size : Z) : list Entry :=
  match n with
  | O => []
  | S k =>
      mkEntry (tag +:+ str_of_int (Z.of_nat k)) ""
              (meta [("content_length", VInt size)])
      :: bulk tag k size
  end.

End Demo.

(** ** The rest of the service's interface *)

(** [MemoryService.__enter__] *)
Definition __enter__ (self : MemoryService) : MemoryService := self.

(** [MemoryService.__exit__]; the exception details are not looked at. *)
Definition __exit__ (self : MemoryService) (exc : option exn) : MemoryService :=
  close self.

(** Every operation other than [initialize] is refused, in every world. *)
Definition all_refused (lib : Library) (self : MemoryService) : Prop :=
  (forall content doc_id metadata w,
      refused (store_document lib self content doc_id metadata w) w) /\
  (forall query limit flt w,
      refused (search_documents lib self query limit flt w) w) /\
  (forall doc_id w, refused (get_document self doc_id w) w) /\
  (forall doc_id w, refused (delete_document self doc_id w) w) /\
  (forall w, refused (get_collection_stats self w) w) /\
  (forall days w, refused (cleanup_old_documents lib self days w) w).

(** The stored rows and the deletion journal are the same in both worlds. *)
Definition same_store (w w' : World) : Prop :=
  collections w' = collections w /\ deletions w' = deletions w.

(** The next external call is scheduled to raise [msg]. *)
Definition next_call_raises (msg : string) (w : World) : Prop :=
  head (schedule w) = Some (Some msg).

(** The content length a row records, when it records an integer. *)
Definition recorded_length (e : Entry) : Z :=
  match e_metadata e with
  | Some d =>
      match d !! "content_length" with
      | Some (VInt n) => n
      | _ => 0%Z
      end
  | None => 0%Z
  end.

(** The id a store result reports. *)
Definition result_id (r : StoreResult) : string :=
  match r with
  | Stored i _ _ _ => i
  | StoreFailed _ i => i
  end.

(** ** EmailService: [src/server/services/email_service.py]

    [newspaper_data] is a dictionary of the shape the code reads: an
    optional title and edition, and a list of sections, each with an
    optional title and a list of articles.  An article is a dictionary of
    scalar fields, or some other value. *)

Module Email.

Inductive Item :=
| ADict (fields : Metadata)
| ANotDict (v : Value).

Record NewsSection := mkSection {
  sec_title : option string;
  sec_articles : option (list Item)
}.

Record Newspaper := mkNewspaper {
  np_title : option string;
  np_edition : option string;
  np_sections : option (list NewsSection)
}.

(** What the modelled code can raise. *)
Inductive Raised :=
| TypeError
| AttributeError
| Failure (msg : string).

(** The number a value stands for in a comparison; booleans are
    integers. *)
Definition numeric (v : Value) : option pyfloat :=
  match v with
  | VInt n => Some (FNum (inject_Z n))
  | VBool b => Some (FNum (inject_Z (if b then 1 else 0)))
  | VFloat x => Some x
  | VStr _ => None
  end.

(** [a < b] on values: numbers compare with numbers, strings with
    strings, and a string against a number raises [TypeError]. *)
Definition value_lt (a b : Value) : Raised + bool :=
  match a, b with
  | VStr s, VStr t => inr (str_lt s t)
  | _, _ =>
      match numeric a, numeric b with
      | Some x, Some y => inr (float_lt x y)
      | _, _ => inl TypeError
      end
  end.

(** Stable ascending insertion sort on keys compared with [value_lt]; a
    comparison that raises ends the sort. *)
Fixpoint insert_by {A} (key : A -> Value) (x : A) (l : list A)
  : Raised + list A :=
  match l with
  | [] => inr [x]
  | y :: l' =>
      match value_lt (key y) (key x) with
      | inl e => inl e
      | inr true =>
          match insert_by key x l' with
          | inl e => inl e
          | inr r => inr (y :: r)
          end
      | inr false => inr (x :: y :: l')
      end
  end.

Fixpoint sort_by {A} (key : A -> Value) (l : list A) : Raised + list A :=
  match l with
  | [] => inr []
  | x :: l' =>
      match sort_by key l' with
      | inl e => inl e
      | inr r => insert_by key x r
      end
  end.

(** [l.sort(key=key, reverse=True)]: the list is reversed, sorted
    ascending and stably, and reversed again, which keeps articles of equal
    key in their original order. *)
Definition sort_reverse {A} (key : A -> Value) (l : list A) : Raised + list A :=
  match sort_by key (rev l) with
  | inl e => inl e
  | inr r => inr (rev r)
  end.

(** [x.get("score", 0) if isinstance(x, dict) else 0] *)
Definition score_key (x : Item) : Value :=
  match x with
  | ADict d => default (VInt 0) (d !! "score")
  | ANotDict _ => VInt 0
  end.

Record Organized := mkOrganized {
  front_page : option Item;
  column_1 : list Item;
  column_2 : list Item;
  column_3 : list Item
}.

(** The [for i, article in enumerate(remaining)] loop, from index [i]
    on, appending to the three columns. *)
Fixpoint distribute (i : nat) (remaining : list Item) (c1 c2 c3 : list Item)
  : list Item * list Item * list Item :=
  match remaining with
  | [] => (c1, c2, c3)
  | article :: rest =>
      match (i mod 3)%nat with
      | 0%nat => distribute (S i) rest (c1 ++ [article]) c2 c3
      | 1%nat => distribute (S i) rest c1 (c2 ++ [article]) c3
      | _ => distribute (S i) rest c1 c2 (c3 ++ [article])
      end
  end.

(** The flattened article list. *)
Definition all_articles (newspaper_data : Newspaper) : list Item :=
  concat (map (fun section => default [] (sec_articles section))
              (default [] (np_sections newspaper_data))).

(** [EmailService._organize_articles] *)
Definition _organize_articles (newspaper_data : Newspaper) : Raised + Organized :=
  let all := all_articles newspaper_data in
  match all with
  | [] => inr (mkOrganized None [] [] [])
  | _ =>
      match sort_reverse score_key all with
      | inl e => inl e
      | inr sorted_articles =>
          let front := head sorted_articles in
          let remaining := tail sorted_articles in
          let '(c1, c2, c3) := distribute 0 remaining [] [] [] in
          inr (mkOrganized front c1 c2 c3)
      end
  end.

(** The numeric score of an article, for statements about ordering. *)
Definition score (x : Item) : pyfloat :=
  default FNaN (numeric (score_key x)).

(** Every article's score is a number and not NaN. *)
Definition scores_are_numbers (l : list Item) : Prop :=
  forall x, x ∈ l -> exists f, numeric (score_key x) = Some f /\ f <> FNaN.

(** The elements at positions 0, 3, 6, ... of a list. *)
Fixpoint every_third {A} (l : list A) : list A :=
  match l with
  | [] => []
  | a :: rest =>
      a :: match rest with
           | _ :: _ :: rest' => every_third rest'
           | _ => []
           end
  end.

(** *** Sending *)

(** The settings an [EmailService] holds. *)
Record EmailService := mkEmailService {
  server : string;
  port : Z;
  use_tls : bool;
  username : string;
  password : string;
  from_email : string;
  from_name : string
}.

(** What the service takes from its surroundings: the date as
    [datetime.now().strftime] writes it in the two formats used,
    [str.upper], [str] of a float and of an exception, and the Jinja
    template [newspaper_email.html] ([None] when it cannot be loaded),
    which renders a title, a date, an edition and the organized
    articles. *)
Record Env := mkEnv {
  date_long : string;
  date_full : string;
  upper : string -> string;
  str_float : pyfloat -> string;
  str_exc : Raised -> string;
  template : option (string -> string -> string -> Organized -> Raised + string)
}.

(** [str(v)], as an f-string formats a value. *)
Definition str_of_value (env : Env) (v : Value) : string :=
  match v with
  | VStr s => s
  | VInt n => str_of_int n
  | VBool b => if b then "True" else "False"
  | VFloat x => str_float env x
  end.

(** Truth value of a scalar. *)
Definition truthy (v : Value) : bool :=
  match v with
  | VStr s => str_truthy s
  | VInt n => negb (n =? 0)%Z
  | VBool b => b
  | VFloat (FNum q) => negb (Qeq_bool q 0)
  | VFloat _ => true
  end.

(** [v[:200]]: only a string can be sliced. *)
Definition first_200 (v : Value) : Raised + string :=
  match v with
  | VStr s => inr (prefix 200 s)
  | _ => inl TypeError
  end.

Definition nl : string := String "010" "".

(** [c * n] for a one-character string [c]. *)
Fixpoint times (c : ascii) (n : nat) : string :=
  match n with
  | O => ""
  | S k => String c (times c k)
  end.

(** The lines one article adds to the text version. *)
Definition article_text (env : Env) (article : Item) : Raised + string :=
  match article with
  | ANotDict _ => inl AttributeError
  | ADict d =>
      let article_title := default (VStr "Untitled") (d !! "title") in
      let article_content :=
        default (default (VStr "") (d !! "summary")) (d !! "content") in
      let source := default (VStr "") (d !! "source") in
      let url := default (VStr "") (d !! "url") in
      let content := "• " +:+ str_of_value env article_title +:+ nl in
      match (if truthy article_content
             then match first_200 article_content with
                  | inl e => inl e
                  | inr s => inr (content +:+ "  " +:+ s +:+ "..." +:+ nl)
                  end
             else inr content) with
      | inl e => inl e
      | inr content =>
          let content :=
            if truthy source
            then content +:+ "  Source: " +:+ str_of_value env source +:+ nl
            else content in
          let content :=
            if truthy url
            then content +:+ "  Link: " +:+ str_of_value env url +:+ nl
            else content in
          inr (content +:+ nl)
      end
  end.

(** The [for article in section.get("articles", [])] loop. *)
Fixpoint articles_text (env : Env) (content : string) (articles : list Item)
  : Raised + string :=
  match articles with
  | [] => inr content
  | article :: rest =>
      match article_text env article with
      | inl e => inl e
      | inr t => articles_text env (content +:+ t) rest
      end
  end.

(** The [for section in sections] loop. *)
Fixpoint sections_text (env : Env) (content : string)
  (sections : list NewsSection) : Raised + string :=
  match sections with
  | [] => inr content
  | section :: rest =>
      let section_title := default "News" (sec_title section) in
      let content :=
        content +:+ upper env section_title +:+ nl
        +:+ times "-" (String.length section_title) +:+ nl +:+ nl in
      match articles_text env content (default [] (sec_articles section)) with
      | inl e => inl e
      | inr content => sections_text env (content +:+ nl) rest
      end
  end.

(** [EmailService._create_text_version] *)
Definition _create_text_version (env : Env) (newspaper_data : Newspaper)
  : Raised + string :=
  let title := default "Your Newspaper" (np_title newspaper_data) in
  let date := date_long env in
  let sections := default [] (np_sections newspaper_data) in
  let content :=
    title +:+ nl +:+ date +:+ nl +:+ times "=" (String.length title)
    +:+ nl +:+ nl in
  match sections_text env content sections with
  | inl e => inl e
  | inr content =>
      inr (content +:+ nl +:+ "---" +:+ nl
           +:+ "Generated by Newspaper Creation Agent on " +:+ date)
  end.

(** [EmailService._create_html_version] *)
Definition _create_html_version (env : Env) (newspaper_data : Newspaper)
  : Raised + string :=
  match template env with
  | None => inl (Failure "newspaper_email.html")
  | Some render =>
      match _organize_articles newspaper_data with
      | inl e => inl e
      | inr organized_articles =>
          render (default "The Tech Tribune" (np_title newspaper_data))
                 (date_full env)
                 (default "Daily Edition" (np_edition newspaper_data))
                 organized_articles
      end
  end.

(** The message handed to the SMTP server: headers and the two parts,
    each with its subtype. *)
Record Message := mkMessage {
  m_from : string;
  m_to : string;
  m_subject : string;
  m_parts : list (string * string)
}.

(** Calls on the SMTP connection. *)
Inductive SmtpCall :=
| Connect (server : string) (port : Z)
| StartTls
| Login (username password : string)
| SendMessage (msg : Message)
| Quit.

(** The mail server as the service sees it: the outcome of the coming
    calls ([Some msg] makes a call raise) and the calls made so far. *)
Record Mail := mkMail {
  outcomes : list (option string);
  calls : list SmtpCall
}.

(** One call on the connection. *)
Definition smtp (c : SmtpCall) (m : Mail) : (Raised + unit) * Mail :=
  match outcomes m with
  | Some msg :: rest => (inl (Failure msg), mkMail rest (calls m ++ [c]))
  | None :: rest => (inr tt, mkMail rest (calls m ++ [c]))
  | [] => (inr tt, mkMail [] (calls m ++ [c]))
  end.

(** A sequence of calls, stopping at the first that raises. *)
Fixpoint session (cs : list SmtpCall) (m : Mail) : (Raised + unit) * Mail :=
  match cs with
  | [] => (inr tt, m)
  | c :: rest =>
      match smtp c m with
      | (inl e, m') => (inl e, m')
      | (inr _, m') => session rest m'
      end
  end.

Inductive SendResult :=
| Delivered (message : string)
| NotDelivered (error : string).

(** [subject or f"📰 {title} - {date}"] *)
Definition subject_line (env : Env) (newspaper_data : Newspaper)
  (subject : option string) : string :=
  match subject with
  | Some s =>
      if str_truthy s then s
      else "📰 " +:+ default "Your Newspaper" (np_title newspaper_data)
           +:+ " - " +:+ date_long env
  | None =>
      "📰 " +:+ default "Your Newspaper" (np_title newspaper_data)
      +:+ " - " +:+ date_long env
  end.

(** The calls a delivery makes, in order. *)
Definition delivery (self : EmailService) (msg : Message) : list SmtpCall :=
  [Connect (server self) (port self)]
  ++ (if use_tls self then [StartTls] else [])
  ++ (if str_truthy (username self) && str_truthy (password self)
      then [Login (username self) (password self)] else [])
  ++ [SendMessage msg; Quit].

(** [EmailService.send_newspaper] *)
Definition send_newspaper (env : Env) (self : EmailService)
  (newspaper_data : Newspaper) (subject : option string) (m : Mail)
  : SendResult * Mail :=
  let failed (e : Raised) (m' : Mail) := (NotDelivered (str_exc env e), m') in
  match _create_text_version env newspaper_data with
  | inl e => failed e m
  | inr text_content =>
      match _create_html_version env newspaper_data with
      | inl e => failed e m
      | inr html_content =>
          let msg :=
            mkMessage (from_name self +:+ " <" +:+ from_email self +:+ ">")
                      (from_email self)
                      (subject_line env newspaper_data subject)
                      [("plain", text_content); ("html", html_content)] in
          match session (delivery self msg) m with
          | (inl e, m') => failed e m'
          | (inr _, m') => (Delivered "Newspaper delivered to your email", m')
          end
      end
  end.

(** An article the text version can print: a dictionary whose content
    (or, when there is no content key, summary) is a string or is falsy. *)
Definition article_ok (x : Item) : bool :=
  match x with
  | ANotDict _ => false
  | ADict d =>
      let c := default (default (VStr "") (d !! "summary")) (d !! "content") in
      if truthy c then match c with VStr _ => true | _ => false end else true
  end.

End Email.

(** ** A concrete environment for the email service *)

Module MailDemo.
Import Email.

(** [str.upper] on the letters a to z. *)
Definition upper_char (c : ascii) : ascii :=
  let n := nat_of_ascii c in
  if ((97 <=? n) && (n <=? 122))%nat then ascii_of_nat (n - 32) else c.

Fixpoint upper_ascii (s : string) : string :=
  match s with
  | EmptyString => EmptyString
  | String c s' => String (upper_char c) (upper_ascii s')
  end.

(** A template that prints the title, the date and the headline count. *)
Definition page (title date edition : string) (org : Organized)
  : Raised + string :=
  inr ("<h1>" +:+ title +:+ "</h1><p>" +:+ date +:+ ", " +:+ edition +:+ "</p>").

Definition env : Env :=
  mkEnv "January 01, 2025" "Wednesday, January 01, 2025" upper_ascii
        (fun x => match x with
                  | FNaN => "nan"
                  | FInf true => "-inf"
                  | FInf false => "inf"
                  | FNum q => str_of_int (Qnum q / Z.pos (Qden q)) +:+ ".0"
                  end)
        (fun e => match e with
                  | TypeError => "TypeError"
                  | AttributeError => "AttributeError"
                  | Failure msg => msg
                  end)
        (Some page).

Definition service : EmailService :=
  mkEmailService "smtp.example.org" 587 true "me" "secret" "me@example.org"
                 "Newspaper Creation Agent".

Definition article (title : string) (score : nat) : Item :=
  ADict (list_to_map [("title", VStr title); ("content", VStr "Text.");
                      ("score", VInt (Z.of_nat score))]).

Definition paper (articles : list Item) : Newspaper :=
  mkNewspaper (Some "Daily") None (Some [mkSection (Some "Tech") (Some articles)]).

Definition idle : Mail := mkMail [] [].

End MailDemo.

(** * Properties *)

(** ** The world model *)

Lemma set_clock_id w : set_clock w (clock w) = w.
Proof. by destruct w. Qed.

Lemma set_schedule_id w : set_schedule w (schedule w) = w.
Proof. by destruct w. Qed.

(** A clock reading is one of the scheduled readings, or 0 when none is
    scheduled; the readings left are among those there were. *)
Lemma datetime_now_run w :
  exists t c,
    datetime_now w = (Ok (t : Z), set_clock w c) /\
    (t ∈ clock w \/ t = 0%Z) /\ c ⊆ clock w.
Proof.
  unfold datetime_now. destruct (clock w) as [|t [|t' c]] eqn:E.
  - exists 0%Z, (clock w). rewrite set_clock_id, E. by auto.
  - exists t, (clock w). rewrite set_clock_id, E. split; [done|].
    split; [left; by constructor | done].
  - exists t, (t' :: c). split; [done|].
    split; [left; by constructor | intros x Hx; by constructor].
Qed.

Lemma calm_head w : calm 1 w -> head (schedule w) = None \/ head (schedule w) = Some None.
Proof.
  unfold calm. destruct (schedule w) as [|o s]; [by left|].
  rewrite Forall_forall. intros H. right. simpl.
  f_equal. apply H. simpl. by left.
Qed.

(** An external call that is not scheduled to fail runs its body. *)
Lemma external_calm {A} (body : IO A) w :
  calm 1 w -> external body w = body (set_schedule w (tail (schedule w))).
Proof.
  intros H. unfold external. destruct (calm_head w H) as [E|E];
    destruct (schedule w) as [|o s] eqn:Es; simplify_eq/=; try done.
  by rewrite <- Es, set_schedule_id.
Qed.

(** An external call that is scheduled to fail raises. *)
Lemma external_fault {A} (body : IO A) w msg s :
  schedule w = Some msg :: s ->
  external body w = (Raise (ExternalError msg), set_schedule w s).
Proof. intros E. unfold external. by rewrite E. Qed.

Lemma calm_nil n w : schedule w = [] -> calm n w.
Proof. unfold calm. intros ->. rewrite take_nil. constructor. Qed.

Lemma calm_S n w :
  calm (S n) w -> calm 1 w /\ calm n (set_schedule w (tail (schedule w))).
Proof.
  unfold calm. simpl. destruct (schedule w) as [|o s]; simpl.
  - split; [constructor|]. rewrite take_nil. constructor.
  - intros H. apply Forall_cons in H as [-> H]. split; [|done].
    rewrite take_0. by repeat constructor.
Qed.

(** ** Life cycle *)

Lemma ensure_ready self h : Ready self h -> _ensure_initialized self = Ok tt.
Proof.
  intros [Hi Hc]. unfold _ensure_initialized. rewrite Hi, Hc.
  rewrite bool_decide_eq_true_2; [done | by eexists].
Qed.

Lemma ensure_uninitialized self :
  _initialized self = false ->
  _ensure_initialized self = Raise (RuntimeError not_initialized_msg).
Proof. intros H. unfold _ensure_initialized. by rewrite H. Qed.

Lemma ensure_ok_ready self :
  _ensure_initialized self = Ok tt -> exists h, Ready self h.
Proof.
  unfold _ensure_initialized, Ready.
  destruct (_initialized self); simpl; [|done].
  case_bool_decide as Hc; simpl; [|done].
  destruct Hc as [h Hc]. eauto.
Qed.

(** An initialized service that a program can build holds a client. *)
Lemma reachable_client self :
  reachable self -> _initialized self = true -> is_Some (client self).
Proof.
  induction 1 as [name|self db_path w Hr IH|self Hr IH]; simpl.
  - done.
  - unfold initialize. destruct (_initialized self) eqn:Ei; simpl; [by auto|].
    destruct (mkdir _ w) as [[?|?] w1]; simpl; [|intros; congruence].
    destruct (PersistentClient _ w1) as [[c|?] w2]; simpl; [|intros; congruence].
    destruct (get_or_create_collection _ _ w2) as [[?|?] w3]; simpl.
    all: intros _; by eexists.
  - unfold close. destruct (client self) eqn:Ec; simpl; [done|].
    intros Hi. rewrite Ec. by apply IH.
Qed.

Lemma close_uninitialized self :
  reachable self -> _initialized (close self) = false.
Proof.
  intros Hr. unfold close. destruct (client self) eqn:Ec; simpl; [done|].
  destruct (_initialized self) eqn:Ei; [|done].
  destruct (reachable_client self Hr Ei) as [c Hc]. congruence.
Qed.

(** [initialize] on a service that is not initialized, when none of its
    three external calls fails, makes the service ready. *)
Lemma initialize_opens self db_path w :
  _initialized self = false -> calm 3 w ->
  exists self' w',
    initialize self db_path w = (Ok tt, self', w') /\
    Ready self' (default default_db_path db_path, collection_name self).
Proof.
  intros Hi Hc. unfold initialize. rewrite Hi.
  apply calm_S in Hc as [H1 Hc]. apply calm_S in Hc as [H2 Hc].
  apply calm_S in Hc as [H3 _].
  unfold mkdir, PersistentClient, get_or_create_collection.
  rewrite (external_calm _ _ H1). unfold ret at 1.
  rewrite (external_calm _ _ H2). unfold ret at 1.
  rewrite (external_calm _ _ H3). simpl.
  match goal with |- context [collections ?w !! ?k] =>
    destruct (collections w !! k) end; do 2 eexists; (split; [reflexivity|]);
    by split.
Qed.

Ltac not_ready H :=
  intros; cbv [store_document search_documents get_document delete_document
               get_collection_stats cleanup_old_documents iobind lift];
  by rewrite (ensure_uninitialized _ H).

(** C3 (as amended): after [close], every operation other than
    [initialize] raises the not-initialized error and leaves the world
    untouched; a later [initialize] whose external calls succeed opens the
    service again. *)
Theorem close_blocks_until_initialize (lib : Library) (self : MemoryService) :
  reachable self ->
  let closed := close self in
  (forall content doc_id metadata w,
      refused (store_document lib closed content doc_id metadata w) w) /\
  (forall query limit flt w,
      refused (search_documents lib closed query limit flt w) w) /\
  (forall doc_id w, refused (get_document closed doc_id w) w) /\
  (forall doc_id w, refused (delete_document closed doc_id w) w) /\
  (forall w, refused (get_collection_stats closed w) w) /\
  (forall days w, refused (cleanup_old_documents lib closed days w) w) /\
  (forall db_path w, calm 3 w ->
     exists self' w',
       initialize closed db_path w = (Ok tt, self', w') /\
       Ready self' (default default_db_path db_path, collection_name self)).
Proof.
  intros Hr closed. unfold refused.
  pose proof (close_uninitialized self Hr) as Hc. fold closed in Hc.
  repeat split; try (not_ready Hc).
  intros db_path w Hw.
  destruct (initialize_opens closed db_path w Hc Hw) as (s' & w' & E & R).
  exists s', w'. split; [done|].
  replace (collection_name self) with (collection_name closed); [done|].
  subst closed. unfold close. by destruct (client self).
Qed.

Lemma close_blocks_until_initialize_witness :
  let w := Demo.world [] Ignore [] [] in
  let opened := snd (fst (initialize (init "learning_data") None w)) in
  _ensure_initialized opened = Ok tt /\
  get_document (close opened) "a" w
  = (Raise (RuntimeError not_initialized_msg), w) /\
  exists self' w',
    initialize (close opened) None w = (Ok tt, self', w') /\
    Ready self' (default_db_path, "learning_data").
Proof.
  intros w opened.
  pose proof (close_blocks_until_initialize Demo.lib opened
                (reach_initialize _ None w (reach_init "learning_data")))
    as (_ & _ & Hget & _ & _ & _ & Hinit).
  split; [reflexivity|]. split.
  - apply Hget.
  - apply (Hinit None). apply calm_nil. reflexivity.
Defined.

(** C3 (as stated) fails: a service that was initialized and closed is
    opened again by a second [initialize], and then serves requests. *)
Lemma close_is_not_terminal :
  let w0 := Demo.world [] Ignore [] [] in
  let '(_, opened, w1) := initialize (init "learning_data") None w0 in
  let closed := close opened in
  let '(r, reopened, w2) := initialize closed None w1 in
  _ensure_initialized opened = Ok tt /\
  _ensure_initialized closed = Raise (RuntimeError not_initialized_msg) /\
  r = Ok tt /\
  _ensure_initialized reopened = Ok tt /\
  fst (get_document reopened "a" w2) = Ok None /\
  fst (delete_document reopened "a" w2) = Ok true.
Proof. vm_compute. repeat split. Qed.

(** ** get_document *)

Lemma no_row_with_id i (l : list Entry) :
  has_id i l = false -> filter (fun e => bool_decide (e_id e ∈ [i])) l = [].
Proof.
  induction l as [|e l IH]; simpl; [done|].
  intros H. apply orb_false_iff in H as [He Hl].
  rewrite filter_cons_False; [by apply IH|].
  rewrite bool_decide_spec, list_elem_of_singleton.
  by apply String.eqb_neq.
Qed.

(** C2 (as amended): on an initialized service, [get_document] answers
    [None] for an id that is not stored, and answers the same [None] when
    the backend call raises; the error text is not part of the result. *)
Theorem get_document_none_on_missing_and_on_failure
  (self : MemoryService) (h : Handle) (doc_id : string) (w : World) :
  Ready self h ->
  (calm 1 w -> has_id doc_id (rows h w) = false ->
   get_document self doc_id w = (Ok None, set_schedule w (tail (schedule w)))) /\
  (forall msg s, schedule w = Some msg :: s ->
   get_document self doc_id w = (Ok None, set_schedule w s)).
Proof.
  intros HR. pose proof (ensure_ready _ _ HR) as He. destruct HR as [_ Hc].
  unfold get_document, iobind, lift, try_except, with_collection, coll_get_ids.
  rewrite He, Hc. split.
  - intros Hw Hid. rewrite (external_calm _ _ Hw).
    change (rows h (set_schedule w _)) with (rows h w).
    by rewrite (no_row_with_id _ _ Hid).
  - intros msg s Hs. by rewrite (external_fault _ _ _ _ Hs).
Qed.

Lemma get_document_none_on_missing_and_on_failure_witness :
  get_document Demo.ready "missing" (Demo.world [] Ignore [] []) =
    (Ok None, Demo.world [] Ignore [] []) /\
  get_document Demo.ready "missing" (Demo.world [] Ignore [Some "disk I/O error"] []) =
    (Ok None, Demo.world [] Ignore [] []).
Proof.
  pose proof (get_document_none_on_missing_and_on_failure Demo.ready Demo.h0
                "missing") as H.
  split.
  - destruct (H (Demo.world [] Ignore [] [])) as [H1 _]; [by split|].
    apply H1; [by apply calm_nil | reflexivity].
  - destruct (H (Demo.world [] Ignore [Some "disk I/O error"] [])) as [_ H2];
      [by split|].
    by apply (H2 "disk I/O error" []).
Defined.

(** C2 (as stated) fails: the answer for a missing id and the answer under
    a backend failure are the same value. *)
Lemma get_document_conflates_missing_and_failure :
  let missing :=
    fst (get_document Demo.ready "missing" (Demo.world [] Ignore [] [])) in
  let failed :=
    fst (get_document Demo.ready "missing"
           (Demo.world [] Ignore [Some "disk I/O error"] [])) in
  missing = Ok None /\ failed = Ok None /\ missing = failed.
Proof. vm_compute. repeat split. Qed.

(** ** store_document *)

Lemma metadata_or_empty_default metadata :
  metadata_or_empty metadata = default ∅ metadata.
Proof.
  destruct metadata as [m|]; simpl; [|done]. by case_bool_decide.
Qed.

(** What is indexed and stored as the document text. *)
Lemma embedding_content_prefix content :
  (if (len content >? 8000)%Z then prefix 8000 content else content)
  = prefix 8000 content.
Proof.
  destruct (len content >? 8000)%Z eqn:E; [done|].
  unfold prefix, len in *. rewrite Z.gtb_ltb in E. apply Z.ltb_ge in E.
  assert (String.length content <= Z.to_nat 8000)%nat as H by lia.
  revert H. generalize (Z.to_nat 8000). clear E.
  induction content as [|c s IH]; intros [|n] H; simpl in *; try done; try lia.
  f_equal. apply IH. lia.
Qed.

(** On an initialized service [store_document] reads the clock, makes one
    [add] call and reports its outcome. *)
Lemma store_document_run lib self h content doc_id metadata w :
  Ready self h ->
  exists i t c,
    (forall d, doc_id = Some d -> i = d) /\
    (t ∈ clock w \/ t = 0%Z) /\
    let md := <["content_length" := VInt (len content)]>
                (<["created_at" := VStr (isoformat lib t)]> (default ∅ metadata)) in
    store_document lib self content doc_id metadata w =
      match coll_add h (prefix 8000 content) md i (set_clock w c) with
      | (Ok _, w1) => (Ok (Stored i (len content) (VStr (isoformat lib t)) md), w1)
      | (Raise e, w1) => (Ok (StoreFailed (str_of_exn e) i), w1)
      end.
Proof.
  intros HR. pose proof (ensure_ready _ _ HR) as He. destruct HR as [_ Hc].
  unfold store_document. rewrite He, metadata_or_empty_default,
    embedding_content_prefix.
  assert (forall i w0,
    exists t c,
      (t ∈ clock w0 \/ t = 0%Z) /\
      (let* now := datetime_now in
       let doc_metadata :=
         <["content_length":=VInt (len content)]>
           (<["created_at":=VStr (isoformat lib now)]> (default ∅ metadata)) in
       try_except
         (with_collection self (fun h0 =>
            run coll_add h0 (prefix 8000 content) doc_metadata i in
            let* created_at := lift (getitem doc_metadata "created_at") in
            ret (Stored i (len content) created_at doc_metadata)))
         (fun e => ret (StoreFailed (str_of_exn e) i))) w0
      = match coll_add h (prefix 8000 content)
                (<["content_length" := VInt (len content)]>
                   (<["created_at" := VStr (isoformat lib t)]> (default ∅ metadata)))
                i (set_clock w0 c) with
        | (Ok _, w1) =>
            (Ok (Stored i (len content) (VStr (isoformat lib t))
                   (<["content_length" := VInt (len content)]>
                      (<["created_at" := VStr (isoformat lib t)]>
                         (default ∅ metadata)))), w1)
        | (Raise e, w1) => (Ok (StoreFailed (str_of_exn e) i), w1)
        end) as Hbody.
  { intros i w0. destruct (datetime_now_run w0) as (t & c & Et & Ht & _).
    exists t, c. split; [done|]. unfold iobind at 1. rewrite Et.
    unfold try_except, with_collection. rewrite Hc. unfold iobind at 1.
    destruct (coll_add _ _ _ _ _) as [[[]|e] w1]; [|done].
    unfold iobind, lift, getitem, ret.
    by rewrite lookup_insert_ne, lookup_insert_eq. }
  unfold iobind at 1. unfold lift at 1.
  destruct doc_id as [d|].
  - unfold iobind at 1, ret at 1.
    destruct (Hbody d w) as (t & c & Ht & E). exists d, t, c.
    split; [congruence|]. split; [done|]. exact E.
  - unfold iobind at 1. unfold iobind at 1.
    destruct (datetime_now_run w) as (t0 & c0 & Et0 & _ & Hc0). rewrite Et0.
    unfold ret at 1.
    set (i := ("doc_" +:+ _)%string).
    destruct (Hbody i (set_clock w c0)) as (t & c & Ht & E). exists i, t, c.
    split; [done|]. split; [|exact E].
    destruct Ht as [Ht|Ht]; [left; by apply Hc0 | by right].
Qed.

Lemma rows_set_collections h w l :
  rows h (set_collections w (<[h := l]> (collections w))) = l.
Proof. unfold rows. simpl. by rewrite lookup_insert_eq. Qed.

Lemma replace_row_first n (l : list Entry) :
  has_id (e_id n) l = true ->
  exists rest,
    filter (fun e => bool_decide (e_id e ∈ [e_id n])) (replace_row n l) = n :: rest.
Proof.
  induction l as [|e l IH]; simpl; [done|].
  destruct (String.eqb (e_id e) (e_id n)) eqn:E; simpl.
  - intros _. eexists. apply filter_cons_True.
    apply bool_decide_pack, list_elem_of_singleton. done.
  - intros H. destruct (IH H) as [rest Hr]. exists rest.
    rewrite filter_cons_False; [done|].
    rewrite bool_decide_spec, list_elem_of_singleton.
    by apply String.eqb_neq.
Qed.

(** A successful [add] that was not ignored leaves the new row as the
    first row carrying its id, and one external call was made. *)
Lemma coll_add_stored h doc m i w w1 :
  coll_add h doc m i w = (Ok tt, w1) ->
  on_duplicate w = Overwrite \/ has_id i (rows h w) = false ->
  (exists rest,
     filter (fun e => bool_decide (e_id e ∈ [i])) (rows h w1)
     = mkEntry i doc (Some m) :: rest) /\
  schedule w1 = tail (schedule w).
Proof.
  intros Hadd Hdup.
  assert (forall w0, rows h w0 = rows h w -> on_duplicate w0 = on_duplicate w ->
    (if has_id i (rows h w0)
     then match on_duplicate w0 with
          | Overwrite =>
              (Ok tt, set_collections w0
                        (<[h := replace_row (mkEntry i doc (Some m)) (rows h w0)]>
                           (collections w0)))
          | Ignore => (Ok tt, w0)
          | Reject => (Raise (ExternalError ("ID already exists: " +:+ i)), w0)
          end
     else (Ok tt, set_collections w0
                    (<[h := rows h w0 ++ [mkEntry i doc (Some m)]]> (collections w0))))
    = (Ok tt, w1) ->
    (exists rest,
       filter (fun e => bool_decide (e_id e ∈ [i])) (rows h w1)
       = mkEntry i doc (Some m) :: rest) /\ schedule w1 = schedule w0) as Hbody.
  { intros w0 Hrows Hpol. rewrite Hrows, Hpol.
    destruct (has_id i (rows h w)) eqn:Hid.
    - destruct Hdup as [Hd|Hd]; [|done]. rewrite Hd. intros [= <-].
      rewrite rows_set_collections. split; [|done].
      apply (replace_row_first (mkEntry i doc (Some m))). done.
    - intros [= <-]. rewrite rows_set_collections. split; [|done].
      rewrite filter_app, (no_row_with_id _ _ Hid). simpl.
      eexists. apply filter_cons_True.
      apply bool_decide_pack, list_elem_of_singleton. done. }
  unfold coll_add, external in Hadd.
  destruct (schedule w) as [|[msg|] s] eqn:Es; simpl.
  - destruct (Hbody w eq_refl eq_refl Hadd) as [H1 H2]. by rewrite H2, Es.
  - done.
  - by apply (Hbody (set_schedule w s)).
Qed.

(** The metadata that [store_document] writes: the caller's entries with
    the two system fields put on top. *)
Lemma stored_metadata_lookup lib (metadata : option Metadata) content t k v :
  k <> "created_at" -> k <> "content_length" ->
  default ∅ metadata !! k = Some v ->
  (<["content_length" := VInt (len content)]>
     (<["created_at" := VStr (isoformat lib t)]> (default ∅ metadata)))
    !! k = Some v.
Proof. intros H1 H2 H. by rewrite !lookup_insert_ne. Qed.

Lemma prefix_nonempty n s : (0 < n)%Z -> s <> "" -> str_truthy (prefix n s) = true.
Proof.
  intros Hn Hs. unfold prefix.
  destruct (Z.to_nat n) as [|k] eqn:E; [lia|].
  by destruct s.
Qed.

(** Reading back a row that is the first one with its id. *)
Lemma get_document_found self h i doc m rest w :
  Ready self h -> calm 1 w ->
  filter (fun e => bool_decide (e_id e ∈ [i])) (rows h w)
    = mkEntry i doc m :: rest ->
  get_document self i w =
    (Ok (if str_truthy doc then Some (mkDocument i doc m) else None),
     set_schedule w (tail (schedule w))).
Proof.
  intros HR Hw Hf. pose proof (ensure_ready _ _ HR) as He. destruct HR as [_ Hc].
  unfold get_document, iobind, lift, try_except, with_collection, coll_get_ids.
  rewrite He, Hc, (external_calm _ _ Hw).
  change (rows h (set_schedule w _)) with (rows h w). rewrite Hf. simpl.
  by destruct (str_truthy doc).
Qed.

Lemma first_of_filter_in (P : Entry -> bool) (l : list Entry) e rest :
  filter (fun x => P x) l = e :: rest -> e ∈ l.
Proof.
  intros Hf. assert (e ∈ filter (fun x => P x) l) as H by (rewrite Hf; by left).
  by apply list_elem_of_filter in H as [_ H].
Qed.

(** A successful [store_document], taken apart. *)
Lemma store_document_stored lib self h content doc_id metadata w i n ts md w1 :
  Ready self h ->
  store_document lib self content doc_id metadata w = (Ok (Stored i n ts md), w1) ->
  exists t c,
    (t ∈ clock w \/ t = 0%Z) /\
    n = len content /\
    ts = VStr (isoformat lib t) /\
    md = <["content_length" := VInt (len content)]>
           (<["created_at" := VStr (isoformat lib t)]> (default ∅ metadata)) /\
    coll_add h (prefix 8000 content) md i (set_clock w c) = (Ok tt, w1).
Proof.
  intros HR Hs.
  destruct (store_document_run lib self h content doc_id metadata w HR)
    as (i' & t & c & _ & Ht & E).
  simpl in E. rewrite E in Hs. clear E.
  destruct (coll_add _ _ _ _ _) as [[[]|e] w'] eqn:Ea; [|done].
  injection Hs as <- <- <- <- <-. by exists t, c.
Qed.

(** C1 (as amended): on an initialized service, when [store_document]
    succeeds for a non-empty content, its id is new or the backend
    overwrites, and the backend answers the next call, [get_document] on
    the returned id yields the first 8000 characters of the content (the
    whole content when it has at most 8000), and metadata made of the
    caller's entries with [created_at] and [content_length] put on top. *)
Theorem store_then_get_returns_indexed_prefix
  (lib : Library) (self : MemoryService) (h : Handle) (content : string)
  (doc_id : option string) (metadata : option Metadata) (w w1 : World)
  (i : string) (n : Z) (ts : Value) (md : Metadata) :
  Ready self h ->
  store_document lib self content doc_id metadata w = (Ok (Stored i n ts md), w1) ->
  on_duplicate w = Overwrite \/ has_id i (rows h w) = false ->
  calm 1 w1 ->
  content <> "" ->
  (exists w2,
     get_document self i w1
     = (Ok (Some (mkDocument i (prefix 8000 content) (Some md))), w2)) /\
  ((len content <= 8000)%Z -> prefix 8000 content = content) /\
  (forall k v, k <> "created_at" -> k <> "content_length" ->
               default ∅ metadata !! k = Some v -> md !! k = Some v) /\
  md !! "created_at" = Some ts /\
  md !! "content_length" = Some (VInt (len content)).
Proof.
  intros HR Hs Hdup Hcalm Hne.
  destruct (store_document_stored _ _ _ _ _ _ _ _ _ _ _ _ HR Hs)
    as (t & c & _ & -> & -> & -> & Hadd).
  destruct (coll_add_stored _ _ _ _ _ _ Hadd Hdup) as [[rest Hf] _].
  repeat split.
  - eexists. rewrite (get_document_found _ _ _ _ _ _ _ HR Hcalm Hf).
    by rewrite prefix_nonempty.
  - intros Hlen. rewrite <- embedding_content_prefix.
    apply Z.ltb_ge in Hlen. by rewrite Z.gtb_ltb, Hlen.
  - intros k v. apply stored_metadata_lookup.
  - by rewrite lookup_insert_ne, lookup_insert_eq.
  - by rewrite lookup_insert_eq.
Qed.

Lemma store_then_get_returns_indexed_prefix_witness :
  let content : string := "Breaking news: markets rally" in
  let i : string := "doc_5d41402a_1735689600" in
  let md : Metadata :=
    <["content_length" := VInt 28]>
      (<["created_at" := VStr "2025-01-01T00:00:00"]> {["source" := VStr "rss"]}) in
  let w := Demo.world [] Ignore [] [Demo.jan1] in
  let w1 := Demo.world [mkEntry i content (Some md)] Ignore [] [Demo.jan1] in
  store_document Demo.lib Demo.ready content None
    (Demo.meta [("source", VStr "rss")]) w
  = (Ok (Stored i 28 (VStr "2025-01-01T00:00:00") md), w1) /\
  (exists w2,
     get_document Demo.ready i w1
     = (Ok (Some (mkDocument i content (Some md))), w2)) /\
  md !! "source" = Some (VStr "rss").
Proof.
  intros content i md w w1.
  assert (store_document Demo.lib Demo.ready content None
            (Demo.meta [("source", VStr "rss")]) w
          = (Ok (Stored i 28 (VStr "2025-01-01T00:00:00") md), w1)) as Es
    by (vm_compute; reflexivity).
  split; [exact Es|].
  destruct (store_then_get_returns_indexed_prefix Demo.lib Demo.ready Demo.h0
              content None (Demo.meta [("source", VStr "rss")]) w w1 i 28
              (VStr "2025-01-01T00:00:00") md)
    as (Hget & _ & Hsup & _).
  - split; reflexivity.
  - exact Es.
  - right. reflexivity.
  - apply calm_nil. reflexivity.
  - intros [=].
  - split; [exact Hget|]. apply Hsup; [intros [=] | intros [=] | reflexivity].
Defined.

(** C1 (as stated) fails for a content of 8001 characters: the store
    succeeds and reports length 8001, and what [get_document] returns is
    8000 characters long. *)
Lemma long_content_is_cut_on_read_back :
  let w := Demo.world [] Overwrite [] [Demo.jan1] in
  match store_document Demo.lib Demo.ready Demo.long_content (Some "long") None w with
  | (Ok (Stored i n _ _), w1) =>
      n = 8001%Z /\
      match get_document Demo.ready i w1 with
      | (Ok (Some d), _) =>
          len (d_content d) = 8000%Z /\
          String.eqb (d_content d) Demo.long_content = false
      | _ => False
      end
  | _ => False
  end.
Proof. vm_compute. repeat split. Qed.

(** C9: on an initialized service, when [store_document] succeeds for the
    empty content (its id being new, or the backend overwriting) the row is
    in the collection with the empty text, and [get_document] on its id
    answers [None]. *)
Theorem empty_content_reads_as_not_found
  (lib : Library) (self : MemoryService) (h : Handle)
  (doc_id : option string) (metadata : option Metadata) (w w1 : World)
  (i : string) (n : Z) (ts : Value) (md : Metadata) :
  Ready self h ->
  store_document lib self "" doc_id metadata w = (Ok (Stored i n ts md), w1) ->
  on_duplicate w = Overwrite \/ has_id i (rows h w) = false ->
  calm 1 w1 ->
  stored_in h w1 (mkEntry i "" (Some md)) /\
  exists w2, get_document self i w1 = (Ok None, w2).
Proof.
  intros HR Hs Hdup Hcalm.
  destruct (store_document_stored _ _ _ _ _ _ _ _ _ _ _ _ HR Hs)
    as (t & c & _ & -> & -> & -> & Hadd).
  destruct (coll_add_stored _ _ _ _ _ _ Hadd Hdup) as [[rest Hf] _].
  change (prefix 8000 "") with ""%string in Hf.
  split.
  - unfold stored_in. by apply (first_of_filter_in _ _ _ _ Hf).
  - eexists. by rewrite (get_document_found _ _ _ _ _ _ _ HR Hcalm Hf).
Qed.

Lemma empty_content_reads_as_not_found_witness :
  let md : Metadata :=
    <["content_length" := VInt 0]>
      (<["created_at" := VStr "2025-01-01T00:00:00"]> ∅) in
  let w := Demo.world [] Ignore [] [Demo.jan1] in
  let w1 := Demo.world [mkEntry "blank" "" (Some md)] Ignore [] [Demo.jan1] in
  store_document Demo.lib Demo.ready "" (Some "blank") None w
  = (Ok (Stored "blank" 0 (VStr "2025-01-01T00:00:00") md), w1) /\
  stored_in Demo.h0 w1 (mkEntry "blank" "" (Some md)) /\
  exists w2, get_document Demo.ready "blank" w1 = (Ok None, w2).
Proof.
  intros md w w1.
  assert (store_document Demo.lib Demo.ready "" (Some "blank") None w
          = (Ok (Stored "blank" 0 (VStr "2025-01-01T00:00:00") md), w1)) as Es
    by (vm_compute; reflexivity).
  split; [exact Es|].
  apply (empty_content_reads_as_not_found Demo.lib Demo.ready Demo.h0
           (Some "blank") None w w1 "blank" 0 (VStr "2025-01-01T00:00:00") md).
  - split; reflexivity.
  - exact Es.
  - right. reflexivity.
  - apply calm_nil. reflexivity.
Defined.

(** C10: on an initialized service, a successful [store_document] reports
    and writes metadata in which [created_at] is the ISO text of a clock
    reading taken during the call and [content_length] is the length of the
    whole content, whatever the caller supplied under these keys; the row
    written to the collection (its id being new, or the backend
    overwriting) carries this metadata. *)
Theorem system_fields_take_precedence
  (lib : Library) (self : MemoryService) (h : Handle) (content : string)
  (doc_id : option string) (metadata : option Metadata) (w w1 : World)
  (i : string) (n : Z) (ts : Value) (md : Metadata) :
  Ready self h ->
  store_document lib self content doc_id metadata w = (Ok (Stored i n ts md), w1) ->
  (exists t, (t ∈ clock w \/ t = 0%Z) /\ ts = VStr (isoformat lib t)) /\
  md !! "created_at" = Some ts /\
  n = len content /\
  md !! "content_length" = Some (VInt (len content)) /\
  (on_duplicate w = Overwrite \/ has_id i (rows h w) = false ->
   exists doc, stored_in h w1 (mkEntry i doc (Some md))).
Proof.
  intros HR Hs.
  destruct (store_document_stored _ _ _ _ _ _ _ _ _ _ _ _ HR Hs)
    as (t & c & Ht & -> & -> & -> & Hadd).
  repeat split.
  - by exists t.
  - by rewrite lookup_insert_ne, lookup_insert_eq.
  - by rewrite lookup_insert_eq.
  - intros Hdup.
    destruct (coll_add_stored _ _ _ _ _ _ Hadd Hdup) as [[rest Hf] _].
    eexists. unfold stored_in. by apply (first_of_filter_in _ _ _ _ Hf).
Qed.

Lemma system_fields_take_precedence_witness :
  let supplied :=
    Demo.meta [("created_at", VStr "1999-12-31T00:00:00");
               ("content_length", VInt 7)] in
  let md : Metadata :=
    <["content_length" := VInt 5]>
      (<["created_at" := VStr "2025-01-01T00:00:00"]> ∅) in
  let w := Demo.world [] Ignore [] [Demo.jan1] in
  let w1 := Demo.world [mkEntry "a" "hello" (Some md)] Ignore [] [Demo.jan1] in
  store_document Demo.lib Demo.ready "hello" (Some "a") supplied w
  = (Ok (Stored "a" 5 (VStr "2025-01-01T00:00:00") md), w1) /\
  md !! "created_at" = Some (VStr "2025-01-01T00:00:00") /\
  md !! "content_length" = Some (VInt 5).
Proof.
  intros supplied md w w1.
  assert (store_document Demo.lib Demo.ready "hello" (Some "a") supplied w
          = (Ok (Stored "a" 5 (VStr "2025-01-01T00:00:00") md), w1)) as Es
    by (vm_compute; reflexivity).
  split; [exact Es|].
  destruct (system_fields_take_precedence Demo.lib Demo.ready Demo.h0 "hello"
              (Some "a") supplied w w1 "a" 5 (VStr "2025-01-01T00:00:00") md)
    as (_ & Hca & _ & Hcl & _).
  - split; reflexivity.
  - exact Es.
  - split; [exact Hca | exact Hcl].
Defined.

(** ** cleanup_old_documents *)

Lemma datetime_now_reading w :
  exists c, datetime_now w = (Ok (reading w), set_clock w c).
Proof.
  unfold datetime_now, reading. destruct (clock w) as [|t [|t' c]] eqn:E.
  - exists (clock w). by rewrite set_clock_id.
  - exists (clock w). by rewrite set_clock_id.
  - by exists (t' :: c).
Qed.

(** An external call either raises as scheduled or runs its body; only
    the schedule changes before the body runs. *)
Lemma external_cases {A} (body : IO A) w :
  (exists msg s, external body w = (Raise (ExternalError msg), set_schedule w s)) \/
  (exists s, external body w = body (set_schedule w s)).
Proof.
  unfold external. destruct (schedule w) as [|[msg|] s] eqn:E.
  - right. exists (schedule w). by rewrite set_schedule_id.
  - left. by exists msg, s.
  - right. by exists s.
Qed.

Lemma eligible_step cutoff_iso (e : Entry) :
  match metadata_truthy (e_metadata e) with
  | Some d =>
      match d !! "created_at" with
      | Some created_at => is_old cutoff_iso created_at
      | None => false
      end
  | None => false
  end = eligible cutoff_iso e.
Proof.
  unfold eligible, created_at_of, metadata_truthy.
  destruct (e_metadata e) as [d|]; [|done].
  case_bool_decide as Hd; [|done]. subst d. by rewrite lookup_empty.
Qed.

(** On the aligned lists that [collection.get()] returns, the scan
    collects the ids of the eligible rows, in order. *)
Lemma old_ids_loop_rows cutoff_iso (l pre : list Entry) :
  old_ids_loop cutoff_iso (length pre) (map e_metadata l) (map e_id (pre ++ l))
  = Ok (map e_id (filter (fun e => eligible cutoff_iso e) l)).
Proof.
  revert pre. induction l as [|e l IH]; intros pre; simpl; [done|].
  pose proof (IH (pre ++ [e])) as IH'.
  rewrite length_app, <- app_assoc in IH'. simpl in IH'.
  rewrite Nat.add_1_r in IH'. rewrite IH'. clear IH IH'.
  pose proof (eligible_step cutoff_iso e) as Hs.
  assert (map e_id (pre ++ e :: l) !! length pre = Some (e_id e)) as Hl.
  { rewrite map_app. rewrite lookup_app_r; rewrite length_map; [|done].
    by rewrite Nat.sub_diag. }
  destruct (eligible cutoff_iso e) eqn:He.
  - rewrite filter_cons_True; [|simpl; by rewrite He].
    destruct (metadata_truthy (e_metadata e)) as [d|]; [|done].
    destruct (d !! "created_at") as [v|]; [|done].
    rewrite Hs, Hl. done.
  - rewrite filter_cons_False; [|simpl; rewrite He; by intros []].
    destruct (metadata_truthy (e_metadata e)) as [d|]; [|done].
    destruct (d !! "created_at") as [v|]; [|done].
    by rewrite Hs.
Qed.

Lemma old_ids_loop_all cutoff_iso (l : list Entry) :
  old_ids_loop cutoff_iso 0 (g_metadatas (get_result l)) (g_ids (get_result l))
  = Ok (map e_id (filter (fun e => eligible cutoff_iso e) l)).
Proof. exact (old_ids_loop_rows cutoff_iso l []). Qed.

Lemma filter_not_in_nil (l : list Entry) :
  filter (fun e => negb (bool_decide (e_id e ∈ @nil string))) l = l.
Proof.
  induction l as [|e l IH]; [done|].
  rewrite filter_cons_True, IH; [done|].
  cbv beta. rewrite bool_decide_eq_false_2; [done|]. by apply not_elem_of_nil.
Qed.

Ltac step_external :=
  match goal with
  | |- context [external ?b ?w0] =>
      let msg := fresh "msg" in
      let s := fresh "s" in
      let E := fresh "E" in
      destruct (external_cases b w0) as [(msg & s & E)|(s & E)]; rewrite E; clear E
  end.

(** Every run of [cleanup_old_documents] on an initialized service either
    leaves the rows and the deletion journal as they were, or computes the
    cutoff, hands the ids of the eligible rows to one [delete] call and
    reports their number. *)
Lemma cleanup_run lib self h days w r w' :
  Ready self h ->
  cleanup_old_documents lib self days w = (r, w') ->
  (collections w' = collections w /\ deletions w' = deletions w) \/
  (exists cutoff_iso,
     cutoff_iso_of lib w days = Ok cutoff_iso /\
     let old := map e_id (filter (fun e => eligible cutoff_iso e) (rows h w)) in
     r = Ok (Cleaned (Z.of_nat (length old)) cutoff_iso days) /\
     rows h w' = filter (fun e => negb (bool_decide (e_id e ∈ old))) (rows h w) /\
     deletions w' = deletions w ++ old).
Proof.
  intros HR. pose proof (ensure_ready _ _ HR) as He. destruct HR as [_ Hc].
  unfold cleanup_old_documents, cutoff_iso_of.
  unfold iobind at 1. unfold lift at 1. rewrite He.
  unfold try_except. unfold iobind at 1.
  destruct (datetime_now_reading w) as [c Ec]. rewrite Ec.
  unfold iobind at 1. unfold lift at 1.
  destruct (minus_days (reading w) days) as [d|e]; simpl;
    [|intros [= <- <-]; by left].
  unfold with_collection. rewrite Hc.
  unfold iobind at 1. unfold coll_get_all. step_external;
    [intros [= <- <-]; by left|].
  unfold iobind at 1. unfold lift at 1.
  change (rows h (set_schedule (set_clock w c) s)) with (rows h w).
  rewrite old_ids_loop_all.
  remember (map e_id (filter (fun e => eligible (isoformat lib d) e) (rows h w)))
    as old eqn:Hold.
  unfold iobind at 1.
  assert (forall w0 : World,
            collections w0 = collections w -> deletions w0 = deletions w ->
            forall r0 w1, coll_delete h old w0 = (r0, w1) ->
            (collections w1 = collections w /\ deletions w1 = deletions w) \/
            (r0 = Ok tt /\
             rows h w1 = filter (fun e => negb (bool_decide (e_id e ∈ old))) (rows h w) /\
             deletions w1 = deletions w ++ old)) as Hdel.
  { intros w0 Hcol Hdel r0 w1. unfold coll_delete. step_external.
    - intros [= <- <-]. by left.
    - intros [= <- <-]. right. split; [done|]. simpl. rewrite Hdel.
      split; [|done]. unfold rows. simpl. by rewrite lookup_insert_eq, Hcol. }
  destruct old as [|i old'].
  - unfold ret. intros [= <- <-]. by left.
  - destruct (coll_delete h (i :: old') _) as [r0 w1] eqn:Ed.
    destruct (Hdel (set_schedule (set_clock w c) s) eq_refl eq_refl _ _ Ed)
      as [Hl|(-> & Hrows & Hj)].
    + destruct r0; intros [= <- <-]; by left.
    + unfold ret. intros [= <- <-]. right. exists (isoformat lib d).
      split; [done|]. simpl. by rewrite <- Hold.
Qed.

(** When the backend answers and the cutoff is representable, the run
    succeeds and is the second case above. *)
Lemma cleanup_success lib self h days w cutoff_iso :
  Ready self h -> calm 2 w ->
  cutoff_iso_of lib w days = Ok cutoff_iso ->
  let old := map e_id (filter (fun e => eligible cutoff_iso e) (rows h w)) in
  exists w',
    cleanup_old_documents lib self days w
    = (Ok (Cleaned (Z.of_nat (length old)) cutoff_iso days), w') /\
    rows h w' = filter (fun e => negb (bool_decide (e_id e ∈ old))) (rows h w) /\
    deletions w' = deletions w ++ old.
Proof.
  intros HR Hcalm Hcut. simpl.
  pose proof (ensure_ready _ _ HR) as He. pose proof HR as [_ Hc].
  apply calm_S in Hcalm as [H1 H2]. apply calm_S in H2 as [H2 _].
  unfold cleanup_old_documents, cutoff_iso_of in *.
  unfold iobind at 1. unfold lift at 1. rewrite He.
  unfold try_except. unfold iobind at 1.
  destruct (datetime_now_reading w) as [c Ec]. rewrite Ec.
  unfold iobind at 1. unfold lift at 1.
  destruct (minus_days (reading w) days) as [d|e]; simpl in Hcut; [|done].
  injection Hcut as Hcut.
  unfold with_collection. rewrite Hc.
  unfold iobind at 1. unfold coll_get_all.
  rewrite external_calm; [|exact H1].
  unfold iobind at 1. unfold lift at 1.
  change (rows h (set_schedule (set_clock w c) _)) with (rows h w).
  rewrite old_ids_loop_all, Hcut.
  remember (map e_id (filter (fun e => eligible cutoff_iso e) (rows h w)))
    as old eqn:Hold.
  unfold iobind at 1.
  destruct old as [|i old'].
  - unfold ret. eexists. split; [reflexivity|]. simpl.
    split; [by rewrite filter_not_in_nil | by rewrite app_nil_r].
  - unfold coll_delete. rewrite external_calm; [|exact H2].
    unfold ret. eexists. split; [reflexivity|].
    split; [|done]. unfold rows at 1. simpl. by rewrite lookup_insert_eq.
Qed.

Lemma distinct_ids_inj (l : list Entry) (a b : Entry) :
  NoDup (map e_id l) -> a ∈ l -> b ∈ l -> e_id a = e_id b -> a = b.
Proof.
  induction l as [|e l IH]; simpl; intros Hnd Ha Hb Hab.
  - by apply not_elem_of_nil in Ha.
  - apply NoDup_cons in Hnd as [Hne Hnd].
    apply elem_of_cons in Ha as [->|Ha]; apply elem_of_cons in Hb as [->|Hb].
    + done.
    + exfalso. apply Hne. rewrite Hab. by apply (list_elem_of_fmap_2 e_id).
    + exfalso. apply Hne. rewrite <- Hab. by apply (list_elem_of_fmap_2 e_id).
    + by apply IH.
Qed.

Lemma eligible_ids_distinct cutoff_iso (l : list Entry) :
  NoDup (map e_id l) ->
  NoDup (map e_id (filter (fun e => eligible cutoff_iso e) l)).
Proof.
  induction l as [|e l IH]; simpl; intros Hnd; [constructor|].
  apply NoDup_cons in Hnd as [Hne Hnd].
  destruct (eligible cutoff_iso e) eqn:He.
  - rewrite filter_cons_True; [|simpl; by rewrite He]. simpl.
    apply NoDup_cons. split; [|by apply IH].
    intros Hin. apply Hne.
    apply (list_elem_of_fmap_1 e_id) in Hin as (x & -> & Hx).
    apply list_elem_of_filter in Hx as [_ Hx].
    by apply (list_elem_of_fmap_2 e_id).
  - rewrite filter_cons_False; [by apply IH|]. simpl. rewrite He. by intros [].
Qed.

(** Membership of a row's id among the collected ids, for distinct ids. *)
Lemma eligible_id_collected cutoff_iso (l : list Entry) (e : Entry) :
  NoDup (map e_id l) -> e ∈ l ->
  e_id e ∈ map e_id (filter (fun x => eligible cutoff_iso x) l)
  <-> eligible cutoff_iso e = true.
Proof.
  intros Hnd He. split.
  - intros Hin. apply (list_elem_of_fmap_1 e_id) in Hin as (x & Hid & Hx).
    apply list_elem_of_filter in Hx as [Hel Hx].
    rewrite (distinct_ids_inj l e x Hnd He Hx Hid). by apply Is_true_true.
  - intros Hel. apply (list_elem_of_fmap_2 e_id).
    apply list_elem_of_filter. split; [by apply Is_true_true | done].
Qed.

Lemma kept_after_delete (old : list string) (l : list Entry) (e : Entry) :
  e ∈ filter (fun x => negb (bool_decide (e_id x ∈ old))) l
  <-> (e_id e ∉ old) /\ (e ∈ l).
Proof.
  rewrite list_elem_of_filter. simpl.
  rewrite negb_True, bool_decide_spec. done.
Qed.

(** C4: on an initialized service whose collection has distinct ids, when
    the backend answers and the cutoff is representable, the cleanup
    succeeds with the ISO text of the cutoff, and for every stored row
    whose [created_at] is a string: if the string is below the cutoff text
    in the lexicographic order, the row's id is handed to the backend's
    delete exactly once and the row is gone afterwards; otherwise the id is
    not handed over and the row is still stored.  The reported count is the
    number of ids handed over. *)
Theorem cleanup_removes_exactly_the_old
  (lib : Library) (self : MemoryService) (h : Handle) (days : Z) (w : World)
  (cutoff_iso : string) :
  Ready self h -> calm 2 w -> distinct_ids h w ->
  cutoff_iso_of lib w days = Ok cutoff_iso ->
  exists old w',
    cleanup_old_documents lib self days w
    = (Ok (Cleaned (Z.of_nat (length old)) cutoff_iso days), w') /\
    deletions w' = deletions w ++ old /\
    forall e s,
      stored_in h w e -> created_at_of e = Some (VStr s) ->
      if str_lt s cutoff_iso
      then count_occ string_dec old (e_id e) = 1%nat /\ ~ stored_in h w' e
      else (e_id e ∉ old) /\ stored_in h w' e.
Proof.
  intros HR Hcalm Hnd Hcut.
  destruct (cleanup_success lib self h days w cutoff_iso HR Hcalm Hcut)
    as (w' & Hrun & Hrows & Hdel).
  eexists _, w'. split; [exact Hrun|]. split; [exact Hdel|].
  intros e s He Hca. unfold stored_in in *.
  pose proof (eligible_id_collected cutoff_iso _ e Hnd He) as Hiff.
  assert (eligible cutoff_iso e = str_lt s cutoff_iso) as Hel
    by (unfold eligible; by rewrite Hca).
  rewrite Hel in Hiff.
  destruct (str_lt s cutoff_iso); rewrite Hrows, kept_after_delete.
  - split.
    + apply NoDup_count_occ';
        [by apply NoDup_ListNoDup, eligible_ids_distinct|].
      apply list_elem_of_In. by apply Hiff.
    + intros [Hno _]. apply Hno. by apply Hiff.
  - split; [|split; [|done]]; intros Hin; by apply Hiff in Hin.
Qed.

(** C5 (as amended): on an initialized service whose collection has
    distinct ids, a stored row whose metadata is absent or empty, has no
    [created_at], or has a [created_at] that is not a string stays stored
    through any cleanup, for any age and whatever the backend does, and
    its id is not handed to the backend's delete. *)
Theorem cleanup_retains_undated_rows
  (lib : Library) (self : MemoryService) (h : Handle) (days : Z)
  (w w' : World) (r : Result CleanupResult) (e : Entry) :
  Ready self h -> distinct_ids h w -> stored_in h w e ->
  (forall s, created_at_of e <> Some (VStr s)) ->
  cleanup_old_documents lib self days w = (r, w') ->
  stored_in h w' e /\
  exists old, deletions w' = deletions w ++ old /\ (e_id e ∉ old).
Proof.
  intros HR Hnd He Hca Hrun.
  destruct (cleanup_run lib self h days w r w' HR Hrun)
    as [[Hcol Hdel]|(cutoff & _ & _ & Hrows & Hdel)]; unfold stored_in in *.
  - split; [unfold rows; by rewrite Hcol|].
    exists []. rewrite app_nil_r. split; [done | by apply not_elem_of_nil].
  - assert (eligible cutoff e = false) as Hel.
    { unfold eligible. destruct (created_at_of e) as [[s| | |]|]; try done.
      by destruct (Hca s). }
    assert (e_id e ∉ map e_id (filter (fun x => eligible cutoff x) (rows h w)))
      as Hno.
    { intros Hin. apply (eligible_id_collected cutoff _ e Hnd He) in Hin.
      congruence. }
    split; [rewrite Hrows; by apply kept_after_delete|].
    eexists. split; [exact Hdel | exact Hno].
Qed.

Lemma cleanup_removes_exactly_the_old_witness :
  let fresh := mkEntry "new" "today"
                 (Demo.meta [("created_at", VStr "2025-01-01T00:00:00")]) in
  let stale := mkEntry "old" "last week"
                 (Demo.meta [("created_at", VStr "2024-12-27T00:00:00")]) in
  let w := Demo.world [fresh; stale] Ignore [] [Demo.jan1] in
  exists old w',
    cleanup_old_documents Demo.lib Demo.ready 0 w
    = (Ok (Cleaned (Z.of_nat (length old)) "2025-01-01T00:00:00" 0), w') /\
    (count_occ string_dec old "old" = 1%nat /\ ~ stored_in Demo.h0 w' stale) /\
    (("new" ∉ old) /\ stored_in Demo.h0 w' fresh).
Proof.
  intros fresh stale w.
  assert (rows Demo.h0 w = [fresh; stale]) as Hrows by (vm_compute; reflexivity).
  destruct (cleanup_removes_exactly_the_old Demo.lib Demo.ready Demo.h0 0 w
              "2025-01-01T00:00:00")
    as (old & w' & Hrun & _ & Hall).
  - split; reflexivity.
  - apply calm_nil. reflexivity.
  - unfold distinct_ids. rewrite Hrows. simpl.
    apply (bool_decide_unpack _). vm_compute. reflexivity.
  - vm_compute. reflexivity.
  - exists old, w'. split; [exact Hrun|]. split.
    + apply (Hall stale "2024-12-27T00:00:00"); [|reflexivity].
      unfold stored_in. rewrite Hrows. right. left.
    + apply (Hall fresh "2025-01-01T00:00:00"); [|reflexivity].
      unfold stored_in. rewrite Hrows. left.
Defined.

Lemma cleanup_retains_undated_rows_witness :
  let e := mkEntry "n" "note" (Demo.meta [("created_at", VInt 20200101)]) in
  let w := Demo.world [e] Ignore [] [Demo.jan1] in
  stored_in Demo.h0 (snd (cleanup_old_documents Demo.lib Demo.ready 0 w)) e.
Proof.
  intros e w.
  assert (rows Demo.h0 w = [e]) as Hrows by (vm_compute; reflexivity).
  apply (cleanup_retains_undated_rows Demo.lib Demo.ready Demo.h0 0 w _
           (fst (cleanup_old_documents Demo.lib Demo.ready 0 w)) e).
  - split; reflexivity.
  - unfold distinct_ids. rewrite Hrows. simpl.
    apply (bool_decide_unpack _). vm_compute. reflexivity.
  - unfold stored_in. rewrite Hrows. left.
  - intros s H. vm_compute in H. discriminate H.
  - apply surjective_pairing.
Defined.

(** C5 (as stated) fails: a [created_at] that is a string but not a
    well-formed timestamp is compared like any other string; the row below
    is deleted by a cleanup with a 90-day limit run on 2025-01-01. *)
Lemma malformed_created_at_is_deleted :
  let e := mkEntry "m" "memo" (Demo.meta [("created_at", VStr "01/02/2020")]) in
  let w := Demo.world [e] Ignore [] [Demo.jan1] in
  well_formed_iso "01/02/2020" = false /\
  rows Demo.h0 w = [e] /\
  match cleanup_old_documents Demo.lib Demo.ready 90 w with
  | (Ok (Cleaned removed cutoff _), w') =>
      removed = 1%Z /\ cutoff = "2024-10-03T00:00:00"%string /\
      rows Demo.h0 w' = [] /\ deletions w' = ["m"%string]
  | _ => False
  end.
Proof. vm_compute. repeat split. Qed.

(** ** Floats and sorting *)

Lemma Qle_bool_total a b : Qle_bool a b = false -> Qle_bool b a = true.
Proof.
  intros H. apply Qle_bool_iff. apply Qlt_le_weak, Qnot_le_lt.
  intros Hle. apply Qle_bool_iff in Hle. congruence.
Qed.

Lemma float_lt_le x y : float_lt x y = true -> float_le x y = true.
Proof.
  destruct x as [|[]|a], y as [|[]|b]; simpl; try done.
  intros H. apply negb_true_iff in H. by apply Qle_bool_total.
Qed.

Lemma float_not_lt_le x y :
  x <> FNaN -> y <> FNaN -> float_lt y x = false -> float_le x y = true.
Proof.
  destruct x as [|[]|a], y as [|[]|b]; simpl; try done.
  intros _ _ H. by apply negb_false_iff in H.
Qed.

Lemma float_le_trans x y z :
  float_le x y = true -> float_le y z = true -> float_le x z = true.
Proof.
  destruct x as [|[]|a], y as [|[]|b], z as [|[]|c]; simpl; try done.
  rewrite !Qle_bool_iff. apply Qle_trans.
Qed.

Lemma float_lt_not_both_eq x y d :
  float_lt y x = true -> float_eq x d = true -> float_eq y d = true -> False.
Proof.
  destruct x as [|[]|a], y as [|[]|b], d as [|[]|c]; simpl; try done.
  intros H Ha Hb. apply negb_true_iff in H.
  apply Qeq_bool_iff in Ha, Hb.
  assert (Qle_bool a b = true); [|congruence].
  apply Qle_bool_iff. rewrite Ha, Hb. apply Qle_refl.
Qed.

Lemma insert_perm (x : DocData) (l : list DocData) :
  insert dd_distance x l ≡ₚ x :: l.
Proof.
  induction l as [|y l IH]; simpl; [done|].
  destruct (float_lt _ _); [|done].
  rewrite IH. apply Permutation_swap.
Qed.

Lemma sorted_perm (l : list DocData) : sorted dd_distance l ≡ₚ l.
Proof.
  induction l as [|x l IH]; simpl; [done|].
  unfold sorted in *. simpl. by rewrite insert_perm, IH.
Qed.

Lemma insert_nondecreasing (x : DocData) (l : list DocData) :
  dd_distance x <> FNaN ->
  (forall r, r ∈ l -> dd_distance r <> FNaN) ->
  nondecreasing l -> nondecreasing (insert dd_distance x l).
Proof.
  unfold nondecreasing. intros Hx.
  induction l as [|y l IH]; simpl; intros Hl Hs.
  - by repeat constructor.
  - apply StronglySorted_inv in Hs as [Hs Hy].
    destruct (float_lt (dd_distance y) (dd_distance x)) eqn:E.
    + constructor.
      * apply IH; [|done]. intros r Hr. apply Hl. by right.
      * apply Forall_forall. intros r Hr.
        rewrite insert_perm in Hr.
        apply elem_of_cons in Hr as [->|Hr]; [by apply float_lt_le|].
        rewrite Forall_forall in Hy. by apply Hy.
    + assert (float_le (dd_distance x) (dd_distance y) = true) as Hxy.
      { apply float_not_lt_le; [done| |done]. apply Hl. by left. }
      constructor; [by constructor|].
      constructor; [done|].
      rewrite Forall_forall in Hy. apply Forall_forall. intros r Hr.
      eapply float_le_trans; [exact Hxy|]. by apply Hy.
Qed.

Lemma sorted_nondecreasing (l : list DocData) :
  (forall r, r ∈ l -> dd_distance r <> FNaN) ->
  nondecreasing (sorted dd_distance l).
Proof.
  induction l as [|x l IH]; intros Hl; [constructor|].
  change (sorted dd_distance (x :: l))
    with (insert dd_distance x (sorted dd_distance l)).
  apply insert_nondecreasing.
  - apply Hl. by left.
  - intros r Hr. rewrite sorted_perm in Hr. apply Hl. by right.
  - apply IH. intros r Hr. apply Hl. by right.
Qed.

Lemma insert_stable d (x : DocData) (l : list DocData) :
  at_distance d (insert dd_distance x l) = at_distance d (x :: l).
Proof.
  unfold at_distance. induction l as [|y l IH]; simpl; [done|].
  destruct (float_lt (dd_distance y) (dd_distance x)) eqn:E; [|done].
  rewrite (filter_cons _ y), IH, !(filter_cons _ x), (filter_cons _ y).
  destruct (decide (float_eq (dd_distance x) d = true)) as [Hx|Hx];
    destruct (decide (float_eq (dd_distance y) d = true)) as [Hy|Hy]; try done.
  destruct (float_lt_not_both_eq _ _ _ E Hx Hy).
Qed.

Lemma sorted_stable d (l : list DocData) :
  at_distance d (sorted dd_distance l) = at_distance d l.
Proof.
  induction l as [|x l IH]; [done|].
  change (sorted dd_distance (x :: l))
    with (insert dd_distance x (sorted dd_distance l)).
  rewrite insert_stable. unfold at_distance in *.
  by rewrite !(filter_cons _ x), IH.
Qed.

(** ** search_documents *)

Lemma format_loop_order i docs dists metas ids out :
  format_loop i docs dists metas ids = Ok out ->
  length out = length docs /\
  forall j r, out !! j = Some r ->
    docs !! j = Some (dd_content r) /\
    dists !! (i + j)%nat = Some (dd_distance r) /\
    ids !! (i + j)%nat = dd_doc_id r.
Proof.
  revert i out. induction docs as [|doc docs IH]; simpl; intros i out H.
  - injection H as <-. split; [done|]. intros j r Hj. by destruct j.
  - destruct (dists !! i) as [d|] eqn:Ed; [|done].
    destruct (format_loop (S i) docs dists metas ids) as [tl|] eqn:Etl; [|done].
    simpl in H. injection H as <-.
    destruct (IH _ _ Etl) as [Hlen Hall].
    split; [simpl; by rewrite Hlen|].
    intros [|j] r Hj; simpl in Hj.
    + injection Hj as <-. simpl. by rewrite Nat.add_0_r.
    + destruct (Hall j r Hj) as (H1 & H2 & H3).
      rewrite Nat.add_succ_r. by simpl in *.
Qed.

Lemma format_results_order results out :
  format_results results = Ok out -> in_backend_order results out.
Proof.
  intros H. apply format_loop_order in H as [Hlen Hall].
  split; [done|]. intros j r Hj. by apply Hall.
Qed.

(** On an initialized service [search_documents] makes one [query] call,
    formats and sorts the answer, and turns any exception into the empty
    list. *)
Lemma search_documents_run lib self h query limit flt w :
  Ready self h ->
  search_documents lib self query limit flt w =
    match coll_query lib h query limit flt w with
    | (Ok results, w1) =>
        match format_results results with
        | Ok documents => (Ok (sorted dd_distance documents), w1)
        | Raise _ => (Ok [], w1)
        end
    | (Raise _, w1) => (Ok [], w1)
    end.
Proof.
  intros HR. pose proof (ensure_ready _ _ HR) as He. destruct HR as [_ Hc].
  unfold search_documents, iobind, lift, try_except, with_collection, ret.
  rewrite He, Hc.
  destruct (coll_query lib h query limit flt w) as [[results|e] w1]; [|done].
  by destruct (format_results results).
Qed.

(** C6: on an initialized service, a list returned by [search_documents]
    whose distances are numbers (no NaN) is in non-decreasing order of
    distance; it is a rearrangement of the hits in the order the backend
    answered them, and for every distance the results at that distance
    appear in the backend's order. *)
Theorem search_results_sorted_and_stable
  (lib : Library) (self : MemoryService) (h : Handle) (query : string)
  (limit : Z) (flt : option Metadata) (w w' : World) (docs : list DocData) :
  Ready self h ->
  search_documents lib self query limit flt w = (Ok docs, w') ->
  (forall r, r ∈ docs -> dd_distance r <> FNaN) ->
  nondecreasing docs /\
  exists backend_order,
    (backend_order = [] \/
     exists results,
       coll_query lib h query limit flt w = (Ok results, w') /\
       format_results results = Ok backend_order /\
       in_backend_order results backend_order) /\
    docs ≡ₚ backend_order /\
    forall d, at_distance d docs = at_distance d backend_order.
Proof.
  intros HR Hs Hnan. rewrite (search_documents_run _ _ _ _ _ _ _ HR) in Hs.
  assert (docs = [] -> nondecreasing docs /\
    exists backend_order,
      (backend_order = [] \/
       exists results,
         coll_query lib h query limit flt w = (Ok results, w') /\
         format_results results = Ok backend_order /\
         in_backend_order results backend_order) /\
      docs ≡ₚ backend_order /\
      forall d, at_distance d docs = at_distance d backend_order) as Hnil.
  { intros ->. split; [constructor|]. exists []. by auto. }
  destruct (coll_query lib h query limit flt w) as [[results|e] w1];
    [|injection Hs as <- <-; by apply Hnil].
  destruct (format_results results) as [documents|e] eqn:Ef;
    [|injection Hs as <- <-; by apply Hnil].
  injection Hs as <- <-. split.
  - apply sorted_nondecreasing. intros r Hr. apply Hnan.
    by rewrite sorted_perm.
  - exists documents. split; [|split].
    + right. exists results. repeat split; try done.
      all: by apply (format_results_order _ _ Ef).
    + apply sorted_perm.
    + intros d. apply sorted_stable.
Qed.

Lemma search_results_sorted_and_stable_witness :
  let a := mkEntry "a" "aaaaa" None in
  let b := mkEntry "b" "bbb" None in
  let c := mkEntry "c" "ccccc" None in
  let w := Demo.world [a; b; c] Ignore [] [] in
  let hit (i doc : string) (d : Z) :=
    mkDocData (Some i) doc doc None (FNum (inject_Z d)) in
  let backend := [hit "c" "ccccc" 4; hit "b" "bbb" 2; hit "a" "aaaaa" 4]%Z in
  let docs := [hit "b" "bbb" 2; hit "c" "ccccc" 4; hit "a" "aaaaa" 4]%Z in
  search_documents Demo.lib Demo.ready "q" 10 None w = (Ok docs, w) /\
  nondecreasing docs /\
  at_distance (FNum (inject_Z 4)) docs = at_distance (FNum (inject_Z 4)) backend.
Proof.
  intros a b c w hit backend docs.
  assert (search_documents Demo.lib Demo.ready "q" 10 None w = (Ok docs, w))
    as Es by (vm_compute; reflexivity).
  split; [exact Es|].
  destruct (search_results_sorted_and_stable Demo.lib Demo.ready Demo.h0 "q" 10
              None w w docs) as (Hsorted & _).
  - split; reflexivity.
  - exact Es.
  - apply Forall_forall. repeat constructor; discriminate.
  - split; [exact Hsorted | reflexivity].
Defined.

Lemma omap_lookup_nil (l : list nat) :
  omap (fun i => (@nil Entry) !! i) l = [].
Proof. induction l as [|i l IH]; [done|]. by destruct i. Qed.

Lemma filter_none (P : Entry -> bool) (l : list Entry) :
  (forall e, e ∈ l -> P e = false) -> filter (fun e => P e) l = [].
Proof.
  induction l as [|e l IH]; intros H; [done|].
  rewrite filter_cons_False.
  - apply IH. intros x Hx. apply H. by right.
  - simpl. rewrite (H e); [by intros [] | by left].
Qed.

(** A query that finds no candidate row yields no result. *)
Lemma search_no_candidates lib self h query limit flt w :
  Ready self h ->
  filter (fun e => matches_where flt e) (rows h w) = [] ->
  exists w', search_documents lib self query limit flt w = (Ok [], w').
Proof.
  intros HR Hf. rewrite (search_documents_run _ _ _ _ _ _ _ HR).
  unfold coll_query. step_external; [by eexists|].
  change (rows h (set_schedule w s)) with (rows h w). rewrite Hf.
  destruct (limit <=? 0)%Z; [by eexists|].
  rewrite omap_lookup_nil. simpl. by eexists.
Qed.

(** C7: on an initialized service [search_documents] always returns a
    list; the list is empty when the collection is empty, when no row
    passes the filter, and when the backend query raises. *)
Theorem search_is_best_effort
  (lib : Library) (self : MemoryService) (h : Handle) (query : string)
  (limit : Z) (flt : option Metadata) (w : World) :
  Ready self h ->
  (exists docs w', search_documents lib self query limit flt w = (Ok docs, w')) /\
  (rows h w = [] ->
   exists w', search_documents lib self query limit flt w = (Ok [], w')) /\
  ((forall e, stored_in h w e -> matches_where flt e = false) ->
   exists w', search_documents lib self query limit flt w = (Ok [], w')) /\
  (forall msg s, schedule w = Some msg :: s ->
   search_documents lib self query limit flt w = (Ok [], set_schedule w s)).
Proof.
  intros HR. repeat split.
  - rewrite (search_documents_run _ _ _ _ _ _ _ HR).
    destruct (coll_query lib h query limit flt w) as [[results|e] w1];
      [|by eauto].
    destruct (format_results results); by eauto.
  - intros Hrows. apply (search_no_candidates _ _ h); [done|]. by rewrite Hrows.
  - intros Hnone. apply (search_no_candidates _ _ h); [done|].
    by apply filter_none.
  - intros msg s Hs. rewrite (search_documents_run _ _ _ _ _ _ _ HR).
    unfold coll_query. by rewrite (external_fault _ _ _ _ Hs).
Qed.

Lemma search_is_best_effort_witness :
  let a := mkEntry "a" "alpha" (Demo.meta [("topic", VStr "news")]) in
  (exists w', search_documents Demo.lib Demo.ready "q" 10 None
                (Demo.world [] Ignore [] []) = (Ok [], w')) /\
  (exists w', search_documents Demo.lib Demo.ready "q" 10
                (Demo.meta [("topic", VStr "sport")])
                (Demo.world [a] Ignore [] []) = (Ok [], w')) /\
  search_documents Demo.lib Demo.ready "q" 10 None
    (Demo.world [a] Ignore [Some "index unavailable"] [])
  = (Ok [], Demo.world [a] Ignore [] []).
Proof.
  intros a.
  assert (Ready Demo.ready Demo.h0) as HR by (split; reflexivity).
  split; [|split].
  - destruct (search_is_best_effort Demo.lib Demo.ready Demo.h0 "q" 10 None
                (Demo.world [] Ignore [] []) HR) as (_ & Hempty & _).
    apply Hempty. vm_compute. reflexivity.
  - destruct (search_is_best_effort Demo.lib Demo.ready Demo.h0 "q" 10
                (Demo.meta [("topic", VStr "sport")])
                (Demo.world [a] Ignore [] []) HR) as (_ & _ & Hnone & _).
    apply Hnone. intros e He.
    assert (rows Demo.h0 (Demo.world [a] Ignore [] []) = [a]) as Hrows
      by (vm_compute; reflexivity).
    unfold stored_in in He. rewrite Hrows in He.
    apply list_elem_of_singleton in He as ->. vm_compute. reflexivity.
  - destruct (search_is_best_effort Demo.lib Demo.ready Demo.h0 "q" 10 None
                (Demo.world [a] Ignore [Some "index unavailable"] []) HR)
      as (_ & _ & _ & Hfault).
    apply (Hfault "index unavailable" []). reflexivity.
Defined.

(** ** get_collection_stats *)

(** Asking for [min(100, count)] rows of a collection of [count] rows
    yields its first 100 rows. *)
Lemma sample_take (l : list Entry) :
  take (Z.to_nat (Z.min 100 (Z.of_nat (length l)))) l = take 100 l.
Proof.
  destruct (decide (100 <= length l)%nat) as [H|H].
  - f_equal. lia.
  - replace (Z.to_nat (Z.min 100 (Z.of_nat (length l)))) with (length l) by lia.
    rewrite firstn_all. symmetry. apply take_ge. lia.
Qed.

Lemma avg_length_floor total (metadatas : list (option Metadata)) :
  metadatas <> [] ->
  let n := Z.of_nat (length metadatas) in
  let avg := avg_length total metadatas in
  avg = (total / n)%Z /\ (n * avg <= total < n * (avg + 1))%Z.
Proof.
  intros Hne n avg. subst n avg.
  destruct metadatas as [|m l]; [done|].
  unfold avg_length. set (n := Z.of_nat (length (m :: l))).
  assert (0 < n)%Z as Hn by (subst n; simpl; lia).
  split; [done|].
  pose proof (Z.mul_div_le total n Hn).
  pose proof (Z.mul_succ_div_gt total n Hn). lia.
Qed.

(** On an initialized service whose backend answers, the statistics are
    computed from the count and from the first 100 rows. *)
Lemma get_collection_stats_run self h w :
  Ready self h -> calm 2 w ->
  let metadatas := map e_metadata (take 100 (rows h w)) in
  exists w',
    get_collection_stats self w =
      (Ok match total_length_loop 0 metadatas with
          | Ok total =>
              mkStats (collection_name self) (Z.of_nat (length (rows h w)))
                      total (avg_length total metadatas) true None
          | Raise e =>
              mkStats (collection_name self) 0 0 0 true (Some (str_of_exn e))
          end, w').
Proof.
  intros HR Hcalm. simpl.
  pose proof (ensure_ready _ _ HR) as He. destruct HR as [Hi Hc].
  apply calm_S in Hcalm as [H1 H2]. apply calm_S in H2 as [H2 _].
  unfold get_collection_stats.
  unfold iobind at 1. unfold lift at 1. rewrite He, Hi.
  unfold try_except, with_collection. rewrite Hc.
  unfold iobind at 1. unfold coll_count. rewrite external_calm; [|exact H1].
  unfold iobind at 1. unfold coll_get_all. rewrite external_calm; [|exact H2].
  change (rows h (set_schedule (set_schedule w _) _)) with (rows h w).
  change (rows h (set_schedule w _)) with (rows h w).
  rewrite sample_take. unfold iobind, lift, ret. simpl g_metadatas.
  destruct (total_length_loop 0 _); by eexists.
Qed.

(** C8: on an initialized service whose backend answers, the statistics
    report the exact row count and are computed from the first
    [min(100, count)] rows, at most 100 whatever the size of the
    collection; the average is the total of the sample divided by the
    sample size and rounded down, and is 0 for an empty sample.  (When a
    sampled [content_length] is a float that [int] rejects, the error
    result with zero totals is returned instead.) *)
Theorem stats_from_a_sample_of_at_most_100
  (self : MemoryService) (h : Handle) (w : World) :
  Ready self h -> calm 2 w ->
  let sample := take 100 (rows h w) in
  let n := Z.of_nat (length sample) in
  (length sample <= 100)%nat /\
  exists st w',
    get_collection_stats self w = (Ok st, w') /\
    match total_length_loop 0 (map e_metadata sample) with
    | Ok total =>
        st_error st = None /\
        st_total_documents st = Z.of_nat (length (rows h w)) /\
        st_total_content_length st = total /\
        (sample = [] -> st_avg_content_length st = 0%Z) /\
        (sample <> [] ->
         st_avg_content_length st = (total / n)%Z /\
         (n * st_avg_content_length st <= total
          < n * (st_avg_content_length st + 1))%Z)
    | Raise e =>
        st = mkStats (collection_name self) 0 0 0 true (Some (str_of_exn e))
    end.
Proof.
  intros HR Hcalm sample n. subst n.
  split; [subst sample; rewrite length_take; lia|].
  destruct (get_collection_stats_run self h w HR Hcalm) as [w' Hrun].
  simpl in Hrun. fold sample in Hrun. eexists _, w'. split; [exact Hrun|].
  destruct (total_length_loop 0 (map e_metadata sample)) as [total|e]; [|done].
  simpl. repeat split.
  - intros ->. done.
  - pose proof (avg_length_floor total (map e_metadata sample)) as Hf.
    rewrite length_map in Hf. apply Hf. by destruct sample.
  - pose proof (avg_length_floor total (map e_metadata sample)) as Hf.
    rewrite length_map in Hf. apply Hf. by destruct sample.
  - pose proof (avg_length_floor total (map e_metadata sample)) as Hf.
    rewrite length_map in Hf. apply Hf. by destruct sample.
Qed.

Lemma stats_from_a_sample_of_at_most_100_witness :
  let w := Demo.world (Demo.bulk "a" 100 10 ++ Demo.bulk "b" 50 1000)
                      Ignore [] [] in
  exists st w',
    get_collection_stats Demo.ready w = (Ok st, w') /\
    st_total_documents st = 150%Z /\
    st_total_content_length st = 1000%Z /\
    st_avg_content_length st = 10%Z.
Proof.
  intros w.
  destruct (stats_from_a_sample_of_at_most_100 Demo.ready Demo.h0 w)
    as (_ & st & w' & Hrun & Hm).
  - split; reflexivity.
  - apply calm_nil. reflexivity.
  - exists st, w'. split; [exact Hrun|].
    assert (total_length_loop 0 (map e_metadata (take 100 (rows Demo.h0 w)))
            = Ok 1000%Z) as Ht by (vm_compute; reflexivity).
    assert (length (take 100 (rows Demo.h0 w)) = 100%nat) as Hlen
      by (vm_compute; reflexivity).
    assert (length (rows Demo.h0 w) = 150%nat) as Hall
      by (vm_compute; reflexivity).
    cbv zeta in Hm. rewrite Ht, Hlen, Hall in Hm.
    destruct Hm as (_ & Hcount & Htotal & _ & Havg).
    split; [exact Hcount|]. split; [exact Htotal|].
    destruct Havg as [Havg _]; [|exact Havg].
    intros H. rewrite H in Hlen. discriminate Hlen.
Defined.

(** ** Invariants of the world model *)

Lemma replace_row_ids n (l : list Entry) :
  map e_id (replace_row n l) = map e_id l.
Proof.
  induction l as [|e l IH]; simpl; [done|].
  destruct (String.eqb (e_id e) (e_id n)) eqn:E; simpl.
  - apply String.eqb_eq in E. by rewrite E.
  - by rewrite IH.
Qed.

Lemma has_id_false_not_in i (l : list Entry) :
  has_id i l = false -> i ∉ map e_id l.
Proof.
  induction l as [|e l IH]; simpl; [intros _; by apply not_elem_of_nil|].
  intros H. apply orb_false_iff in H as [He Hl].
  apply String.eqb_neq in He. apply not_elem_of_cons. split; [done|].
  by apply IH.
Qed.

(** [add] keeps the ids of a collection distinct, whatever its outcome. *)
Lemma coll_add_distinct h doc m i w r w1 :
  distinct_ids h w -> coll_add h doc m i w = (r, w1) -> distinct_ids h w1.
Proof.
  unfold distinct_ids, coll_add. intros Hnd. step_external.
  - by intros [= <- <-].
  - change (rows h (set_schedule w s)) with (rows h w).
    change (on_duplicate (set_schedule w s)) with (on_duplicate w).
    destruct (has_id i (rows h w)) eqn:Hid.
    + destruct (on_duplicate w); intros [= <- <-]; try done.
      unfold rows at 1. simpl. rewrite lookup_insert_eq. simpl.
      by rewrite replace_row_ids.
    + intros [= <- <-]. unfold rows at 1. simpl. rewrite lookup_insert_eq.
      simpl. rewrite map_app. simpl. apply NoDup_app. repeat split.
      * done.
      * intros x Hx Hx'. apply list_elem_of_singleton in Hx' as ->.
        by apply (has_id_false_not_in _ _ Hid).
      * apply NoDup_singleton.
Qed.

(** [delete] keeps them distinct as well. *)
Lemma coll_delete_distinct h ids w r w1 :
  distinct_ids h w -> coll_delete h ids w = (r, w1) -> distinct_ids h w1.
Proof.
  unfold distinct_ids, coll_delete. intros Hnd. step_external.
  - by intros [= <- <-].
  - intros [= <- <-]. unfold rows at 1. simpl. rewrite lookup_insert_eq. simpl.
    change (rows h (set_schedule w s)) with (rows h w).
    refine (sublist_NoDup _ _ Hnd _).
    apply (fmap_sublist e_id), sublist_filter.
Qed.

(** ** A remark on NaN *)

(** With a NaN among the keys [<] is not an order and the sort leaves the
    list out of order, which is why the ordering property is stated for
    distances that are numbers. *)
Remark nan_defeats_ordering :
  let hit d := mkDocData None "" "" None d in
  sorted dd_distance [hit (FNum 2); hit FNaN; hit (FNum 1)]
  = [hit (FNum 2); hit FNaN; hit (FNum 1)].
Proof. reflexivity. Qed.

(** * Further properties of the service *)

(** ** Life cycle *)

Lemma uninitialized_refuses lib self :
  _initialized self = false -> all_refused lib self.
Proof.
  intros H. unfold all_refused, refused. repeat split; not_ready H.
Qed.

Lemma initialize_outcome self db_path w r self' w' :
  initialize self db_path w = (r, self', w') ->
  match r with
  | Ok _ => _initialized self' = true
  | Raise _ => _initialized self' = false
  end.
Proof.
  unfold initialize. destruct (_initialized self) eqn:Ei.
  - by intros [= <- <- <-].
  - destruct (mkdir _ w) as [[?|?] w1]; [|by intros [= <- <- <-]].
    destruct (PersistentClient _ w1) as [[c|?] w2]; [|by intros [= <- <- <-]].
    destruct (get_or_create_collection _ _ w2) as [[?|?] w3];
      by intros [= <- <- <-].
Qed.

(** X1: after a successful [initialize], any further [initialize] (any
    path, any world, even one in which every external call would fail)
    returns at once: no external call is made and neither the service nor
    the world changes. *)
Theorem initialize_twice_is_initialize_once
  (self self' : MemoryService) (p p' : option string) (w w' w'' : World) :
  initialize self p w = (Ok tt, self', w') ->
  initialize self' p' w'' = (Ok tt, self', w'').
Proof.
  intros H. apply initialize_outcome in H. unfold initialize. by rewrite H.
Qed.

Lemma initialize_twice_is_initialize_once_witness :
  let w := Demo.world [] Ignore [] [] in
  let opened := snd (fst (initialize (init "learning_data") None w)) in
  let hostile := Demo.world [] Ignore [Some "disk full"; Some "no database"] [] in
  initialize opened (Some "elsewhere") hostile = (Ok tt, opened, hostile).
Proof.
  intros w opened hostile.
  apply (initialize_twice_is_initialize_once (init "learning_data") opened None
           (Some "elsewhere") w (snd (initialize (init "learning_data") None w))).
  vm_compute. reflexivity.
Defined.

(** X2: when [initialize] raises, the service is left uninitialized:
    every operation other than [initialize] is refused with the
    not-initialized error, also when the client had already been created
    before the failure. *)
Theorem failed_initialize_leaves_service_unusable
  (lib : Library) (self self' : MemoryService) (p : option string)
  (w w' : World) (e : exn) :
  initialize self p w = (Raise e, self', w') ->
  _initialized self' = false /\ all_refused lib self'.
Proof.
  intros H. apply initialize_outcome in H.
  split; [done | by apply uninitialized_refuses].
Qed.

Lemma failed_initialize_leaves_service_unusable_witness :
  let w := Demo.world [] Ignore [None; None; Some "collection is corrupt"] [] in
  let self' := snd (fst (initialize (init "learning_data") None w)) in
  client self' = Some "data/chroma"%string /\
  _initialized self' = false /\ all_refused Demo.lib self'.
Proof.
  intros w self'. split; [reflexivity|].
  apply (failed_initialize_leaves_service_unusable Demo.lib
           (init "learning_data") self' None w
           (snd (initialize (init "learning_data") None w))
           (ExternalError "collection is corrupt")).
  vm_compute. reflexivity.
Defined.

(** A service that a program can build and that holds no client holds no
    collection and is not initialized. *)
Lemma reachable_no_client self :
  reachable self -> client self = None ->
  collection self = None /\ _initialized self = false.
Proof.
  induction 1 as [name|self db_path w Hr IH|self Hr IH]; simpl.
  - done.
  - unfold initialize. destruct (_initialized self) eqn:Ei; simpl.
    + intros Hc. destruct (reachable_client self Hr Ei) as [c Hs]. congruence.
    + destruct (mkdir _ w) as [[?|?] w1]; simpl;
        [|intros Hc; by destruct (IH Hc)].
      destruct (PersistentClient _ w1) as [[c|?] w2]; simpl;
        [|intros Hc; by destruct (IH Hc)].
      destruct (get_or_create_collection _ _ w2) as [[?|?] w3]; simpl; done.
  - unfold close. destruct (client self) eqn:Ec; simpl; [done|].
    intros _. by apply IH.
Qed.

(** X3: leaving a [with] block closes the service, whether or not the
    block raised: afterwards the service holds neither client nor
    collection, is not initialized, refuses every operation, and closing
    or leaving again changes nothing. *)
Theorem exit_closes_for_good
  (lib : Library) (self : MemoryService) (exc : option exn) :
  reachable self ->
  let closed := __exit__ (__enter__ self) exc in
  client closed = None /\ collection closed = None /\
  _initialized closed = false /\
  all_refused lib closed /\
  close closed = closed /\ __exit__ closed None = closed.
Proof.
  intros Hr closed. subst closed. unfold __exit__, __enter__.
  assert (client (close self) = None) as Hc
    by (unfold close; by destruct (client self) eqn:E).
  assert (close (close self) = close self) as Hcc
    by (unfold close at 1; by rewrite Hc).
  destruct (reachable_no_client _ (reach_close _ Hr) Hc) as [Hcol Hi].
  repeat split; try done. all: by apply uninitialized_refuses.
Qed.

Lemma exit_closes_for_good_witness :
  let w := Demo.world [] Ignore [] [] in
  let opened := snd (fst (initialize (init "learning_data") None w)) in
  _initialized opened = true /\
  _initialized (__exit__ (__enter__ opened) (Some IndexError)) = false /\
  all_refused Demo.lib (__exit__ (__enter__ opened) (Some IndexError)).
Proof.
  intros w opened. split; [reflexivity|].
  pose proof (exit_closes_for_good Demo.lib opened (Some IndexError)
                (reach_initialize _ None w (reach_init "learning_data")))
    as (_ & _ & Hi & Hall & _).
  split; [exact Hi | exact Hall].
Defined.

(** ** delete_document *)

Lemma delete_document_run self h i w :
  Ready self h ->
  delete_document self i w =
    match coll_delete h [i] w with
    | (Ok _, w1) => (Ok true, w1)
    | (Raise _, w1) => (Ok false, w1)
    end.
Proof.
  intros HR. pose proof (ensure_ready _ _ HR) as He. destruct HR as [_ Hc].
  unfold delete_document, iobind, lift, try_except, with_collection, ret.
  rewrite He, Hc. by destruct (coll_delete h [i] w) as [[[]|e] w1].
Qed.

Lemma has_id_filter_out i (l : list Entry) :
  has_id i (filter (fun e => negb (bool_decide (e_id e ∈ [i]))) l) = false.
Proof.
  induction l as [|e l IH]; [done|].
  rewrite filter_cons. destruct (decide _) as [H|H]; [|done].
  simpl. rewrite IH, orb_false_r. apply String.eqb_neq.
  simpl in H. apply negb_prop_elim in H. rewrite bool_decide_spec in H.
  intros Heq. apply H. by apply list_elem_of_singleton.
Qed.

Lemma filter_out_absent i (l : list Entry) :
  has_id i l = false ->
  filter (fun e => negb (bool_decide (e_id e ∈ [i]))) l = l.
Proof.
  induction l as [|e l IH]; simpl; [done|].
  intros H. apply orb_false_iff in H as [He Hl].
  rewrite filter_cons_True, IH; [done..|].
  simpl. apply negb_prop_intro. rewrite bool_decide_spec, list_elem_of_singleton.
  by apply String.eqb_neq.
Qed.

Lemma get_document_absent self h i w :
  Ready self h -> calm 1 w -> has_id i (rows h w) = false ->
  get_document self i w = (Ok None, set_schedule w (tail (schedule w))).
Proof.
  intros HR Hw Hid. pose proof (ensure_ready _ _ HR) as He.
  destruct HR as [_ Hc].
  unfold get_document, iobind, lift, try_except, with_collection, coll_get_ids.
  rewrite He, Hc, (external_calm _ _ Hw).
  change (rows h (set_schedule w _)) with (rows h w).
  by rewrite (no_row_with_id _ _ Hid).
Qed.

(** X4: on an initialized service whose backend answers, [delete_document]
    returns [True]; afterwards no row carries the id, the rows with other
    ids are exactly those there were, and [get_document] on the id answers
    [None]. *)
Theorem delete_then_get_is_not_found
  (self : MemoryService) (h : Handle) (i : string) (w : World) :
  Ready self h -> calm 2 w ->
  exists w1 w2,
    delete_document self i w = (Ok true, w1) /\
    has_id i (rows h w1) = false /\
    (forall e, e_id e <> i -> (stored_in h w1 e <-> stored_in h w e)) /\
    get_document self i w1 = (Ok None, w2).
Proof.
  intros HR Hcalm. apply calm_S in Hcalm as [H1 H2].
  rewrite (delete_document_run _ _ _ _ HR). unfold coll_delete.
  rewrite (external_calm _ _ H1).
  change (rows h (set_schedule w _)) with (rows h w).
  set (w1 := set_deletions _ _).
  assert (rows h w1 = filter (fun e => negb (bool_decide (e_id e ∈ [i]))) (rows h w))
    as Hrows by (unfold w1, rows at 1; simpl; by rewrite lookup_insert_eq).
  assert (has_id i (rows h w1) = false) as Hgone
    by (rewrite Hrows; apply has_id_filter_out).
  exists w1, (set_schedule w1 (tail (schedule w1))).
  split; [done|]. split; [done|]. split.
  - intros e Hne. unfold stored_in. rewrite Hrows, kept_after_delete.
    rewrite list_elem_of_singleton. tauto.
  - by apply (get_document_absent _ h).
Qed.

Lemma delete_then_get_is_not_found_witness :
  let a := mkEntry "a" "alpha" None in
  let b := mkEntry "b" "beta" None in
  let w := Demo.world [a; b] Ignore [] [] in
  exists w1 w2,
    delete_document Demo.ready "a" w = (Ok true, w1) /\
    has_id "a" (rows Demo.h0 w1) = false /\
    stored_in Demo.h0 w1 b /\
    get_document Demo.ready "a" w1 = (Ok None, w2).
Proof.
  intros a b w.
  destruct (delete_then_get_is_not_found Demo.ready Demo.h0 "a" w)
    as (w1 & w2 & Hdel & Hgone & Hkeep & Hget).
  - split; reflexivity.
  - apply calm_nil. reflexivity.
  - exists w1, w2. repeat split; try done.
    apply (Hkeep b); [discriminate|].
    assert (rows Demo.h0 w = [a; b]) as Hrows by (vm_compute; reflexivity).
    unfold stored_in. rewrite Hrows. right. left.
Defined.

(** X5: deleting an id that is not stored returns [True] and leaves the
    rows of the collection exactly as they were. *)
Theorem delete_absent_id_succeeds
  (self : MemoryService) (h : Handle) (i : string) (w : World) :
  Ready self h -> calm 1 w -> has_id i (rows h w) = false ->
  exists w1,
    delete_document self i w = (Ok true, w1) /\ rows h w1 = rows h w.
Proof.
  intros HR Hcalm Hid.
  rewrite (delete_document_run _ _ _ _ HR). unfold coll_delete.
  rewrite (external_calm _ _ Hcalm).
  change (rows h (set_schedule w _)) with (rows h w).
  eexists. split; [reflexivity|]. unfold rows at 1. simpl.
  rewrite lookup_insert_eq. simpl. by apply filter_out_absent.
Qed.

Lemma delete_absent_id_succeeds_witness :
  let a := mkEntry "a" "alpha" None in
  let w := Demo.world [a] Ignore [] [] in
  exists w1,
    delete_document Demo.ready "ghost" w = (Ok true, w1) /\
    rows Demo.h0 w1 = rows Demo.h0 w.
Proof.
  intros a w.
  apply (delete_absent_id_succeeds Demo.ready Demo.h0 "ghost" w).
  - split; reflexivity.
  - apply calm_nil. reflexivity.
  - vm_compute. reflexivity.
Defined.

(** X6: on an initialized service [delete_document] never raises; it
    returns [False] exactly when the backend call raised, and then the rows
    and the deletion journal are unchanged. *)
Theorem delete_reports_backend_failure
  (self : MemoryService) (h : Handle) (i : string) (w : World) :
  Ready self h ->
  exists b w',
    delete_document self i w = (Ok b, w') /\
    (b = false <-> exists msg, next_call_raises msg w) /\
    (b = false -> same_store w w').
Proof.
  intros HR. rewrite (delete_document_run _ _ _ _ HR).
  unfold coll_delete, external, next_call_raises.
  destruct (schedule w) as [|[msg|] s] eqn:Es; simpl.
  - exists true. eexists. split; [done|]. split; [|done].
    split; [done|]. by intros [msg [=]].
  - exists false. eexists. split; [done|]. split; [|by split].
    split; [|done]. intros _. by exists msg.
  - exists true. eexists. split; [done|]. split; [|done].
    split; [done|]. by intros [msg [=]].
Qed.

Lemma delete_reports_backend_failure_witness :
  let a := mkEntry "a" "alpha" None in
  let w := Demo.world [a] Ignore [Some "database is locked"] [] in
  exists w', delete_document Demo.ready "a" w = (Ok false, w') /\ same_store w w'.
Proof.
  intros a w.
  destruct (delete_reports_backend_failure Demo.ready Demo.h0 "a" w)
    as (b & w' & Hdel & Hiff & Hsame).
  - split; reflexivity.
  - assert (b = false) as -> by (apply Hiff; by exists "database is locked"%string).
    exists w'. split; [exact Hdel | by apply Hsame].
Defined.

(** ** Operations that only read *)

Lemma ready_or_refusing self :
  _ensure_initialized self = Raise (RuntimeError not_initialized_msg) \/
  exists h, Ready self h.
Proof.
  destruct (_ensure_initialized self) as [[]|e] eqn:E.
  - right. by apply ensure_ok_ready.
  - left. unfold _ensure_initialized in E.
    destruct (_ || _); [by injection E as <- | done].
Qed.

Lemma same_store_refl w : same_store w w.
Proof. by split. Qed.

(** X7: [get_document], [search_documents] and [get_collection_stats]
    never change the stored rows or the deletion journal, on any service
    and in any world, whether they succeed, fail or are refused. *)
Theorem reads_leave_the_store_alone
  (lib : Library) (self : MemoryService) (w : World) :
  (forall doc_id, same_store w (snd (get_document self doc_id w))) /\
  (forall query limit flt,
      same_store w (snd (search_documents lib self query limit flt w))) /\
  same_store w (snd (get_collection_stats self w)).
Proof.
  destruct (ready_or_refusing self) as [He|[h HR]].
  - repeat split; intros;
      cbv [get_document search_documents get_collection_stats iobind lift];
      by rewrite He.
  - split; [|split].
    + intros doc_id. pose proof (ensure_ready _ _ HR) as He.
      destruct HR as [_ Hc].
      unfold get_document, iobind, lift, try_except, with_collection,
        coll_get_ids, ret.
      rewrite He, Hc. step_external; [by split|].
      destruct (g_documents _) as [|d ?]; [by split|].
      destruct (str_truthy d); by split.
    + intros query limit flt. rewrite (search_documents_run _ _ _ _ _ _ _ HR).
      unfold coll_query. step_external; [by split|].
      destruct (limit <=? 0)%Z; [by split|].
      destruct (format_results _); by split.
    + pose proof (ensure_ready _ _ HR) as He. destruct HR as [_ Hc].
      unfold get_collection_stats, iobind, lift, try_except, with_collection,
        coll_count, coll_get_all, ret.
      rewrite He, Hc. step_external; [by split|].
      step_external; [by split|].
      destruct (total_length_loop _ _); by split.
Qed.

(** ** store_document, continued *)

(** With no id given, the id is made from the content hash and the clock
    reading, and the call goes on as if that id had been given. *)
Lemma store_document_generates lib self h content metadata w :
  Ready self h ->
  exists c,
    store_document lib self content None metadata w =
    store_document lib self content
      (Some ("doc_" +:+ prefix 8 (md5_hexdigest lib content) +:+ "_"
             +:+ str_of_int (timestamp lib (reading w))))
      metadata (set_clock w c).
Proof.
  intros HR. pose proof (ensure_ready _ _ HR) as He.
  destruct (datetime_now_reading w) as [c Ec]. exists c.
  unfold store_document. unfold iobind at 1 6. unfold lift at 1 3. rewrite He.
  unfold iobind at 1 5. unfold iobind at 1. rewrite Ec. reflexivity.
Qed.

(** [store_document] reports under the id it was given. *)
Lemma store_document_given_id lib self h content d metadata w r w1 :
  Ready self h ->
  store_document lib self content (Some d) metadata w = (Ok r, w1) ->
  match r with
  | Stored i _ _ _ => i = d
  | StoreFailed _ i => i = d
  end.
Proof.
  intros HR Hs.
  destruct (store_document_run lib self h content (Some d) metadata w HR)
    as (i & t & c & Hi & _ & E).
  simpl in E. rewrite E in Hs. rewrite (Hi d eq_refl) in Hs.
  destruct (coll_add _ _ _ _ _) as [[[]|e] w']; by injection Hs as <- <-.
Qed.



Lemma coll_add_fresh h doc m i w w1 :
  coll_add h doc m i w = (Ok tt, w1) ->
  has_id i (rows h w) = false ->
  rows h w1 = rows h w ++ [mkEntry i doc (Some m)] /\
  (forall h', h' <> h -> rows h' w1 = rows h' w) /\
  deletions w1 = deletions w.
Proof.
  intros Hadd Hid. unfold coll_add in Hadd. revert Hadd. step_external; [done|].
  change (rows h (set_schedule w s)) with (rows h w). rewrite Hid.
  intros [= <-]. split; [|split; [|done]].
  - unfold rows at 1. simpl. by rewrite lookup_insert_eq.
  - intros h' Hne. unfold rows. simpl. by rewrite lookup_insert_ne.
Qed.

(** X9: a successful [store_document] under an id that is not yet in the
    collection appends exactly one row, holding the indexed text and the
    reported metadata, after the rows there were; other collections and the
    deletion journal are untouched. *)
Theorem store_appends_one_row
  (lib : Library) (self : MemoryService) (h : Handle) (content : string)
  (doc_id : option string) (metadata : option Metadata) (w w1 : World)
  (i : string) (n : Z) (ts : Value) (md : Metadata) :
  Ready self h ->
  store_document lib self content doc_id metadata w = (Ok (Stored i n ts md), w1) ->
  has_id i (rows h w) = false ->
  rows h w1 = rows h w ++ [mkEntry i (prefix 8000 content) (Some md)] /\
  (forall h', h' <> h -> rows h' w1 = rows h' w) /\
  deletions w1 = deletions w.
Proof.
  intros HR Hs Hid.
  destruct (store_document_stored _ _ _ _ _ _ _ _ _ _ _ _ HR Hs)
    as (t & c & _ & -> & -> & -> & Hadd).
  by apply (coll_add_fresh _ _ _ _ _ _ Hadd).
Qed.

Lemma store_appends_one_row_witness :
  let a := mkEntry "a" "alpha" None in
  let md : Metadata :=
    <["content_length" := VInt 4]>
      (<["created_at" := VStr "2025-01-01T00:00:00"]> ∅) in
  let w := Demo.world [a] Ignore [] [Demo.jan1] in
  let w1 := Demo.world [a; mkEntry "b" "beta" (Some md)] Ignore [] [Demo.jan1] in
  store_document Demo.lib Demo.ready "beta" (Some "b") None w
  = (Ok (Stored "b" 4 (VStr "2025-01-01T00:00:00") md), w1) /\
  rows Demo.h0 w1 = rows Demo.h0 w ++ [mkEntry "b" "beta" (Some md)].
Proof.
  intros a md w w1.
  assert (store_document Demo.lib Demo.ready "beta" (Some "b") None w
          = (Ok (Stored "b" 4 (VStr "2025-01-01T00:00:00") md), w1)) as Es
    by (vm_compute; reflexivity).
  split; [exact Es|].
  apply (store_appends_one_row Demo.lib Demo.ready Demo.h0 "beta" (Some "b")
           None w w1 "b" 4 (VStr "2025-01-01T00:00:00") md).
  - split; reflexivity.
  - exact Es.
  - vm_compute. reflexivity.
Defined.

(** With no id given, the reported id is [doc_], the first 8 characters
    of the content's MD5 hex digest, [_] and the clock reading in whole
    seconds, in a success and in a failure result alike. *)
Lemma generated_id_formula lib self h content metadata w r w1 :
  Ready self h ->
  store_document lib self content None metadata w = (Ok r, w1) ->
  result_id r = ("doc_" +:+ prefix 8 (md5_hexdigest lib content) +:+ "_"
                 +:+ str_of_int (timestamp lib (reading w)))%string.
Proof.
  intros HR Hs.
  destruct (store_document_generates lib self h content metadata w HR) as [c E].
  rewrite E in Hs.
  pose proof (store_document_given_id _ _ _ _ _ _ _ _ _ HR Hs) as Hid.
  by destruct r.
Qed.

(** X10: generated ids depend on the content and on the clock second
    only: two stores of the same content without an id, made at clock
    readings that fall in the same second, report the same id, whatever
    the metadata and the state of the collection. *)
Theorem generated_ids_collide_within_a_second
  (lib : Library) (self : MemoryService) (h : Handle) (content : string)
  (metadata metadata' : option Metadata) (w w' w1 w1' : World)
  (r r' : StoreResult) :
  Ready self h ->
  timestamp lib (reading w) = timestamp lib (reading w') ->
  store_document lib self content None metadata w = (Ok r, w1) ->
  store_document lib self content None metadata' w' = (Ok r', w1') ->
  result_id r = result_id r'.
Proof.
  intros HR Ht Hs Hs'.
  rewrite (generated_id_formula _ _ _ _ _ _ _ _ HR Hs).
  rewrite (generated_id_formula _ _ _ _ _ _ _ _ HR Hs'). by rewrite Ht.
Qed.

Lemma generated_ids_collide_within_a_second_witness :
  let i : string := "doc_5d41402a_1735689600" in
  let md : Metadata :=
    <["content_length" := VInt 5]>
      (<["created_at" := VStr "2025-01-01T00:00:00"]> ∅) in
  let md' : Metadata :=
    <["content_length" := VInt 5]>
      (<["created_at" := VStr "2025-01-01T00:00:00.400000"]> {["k" := VInt 1]}) in
  let w := Demo.world [] Ignore [] [Demo.jan1] in
  let w' := Demo.world [] Ignore [] [(Demo.jan1 + 400000)%Z] in
  let r := Stored i 5 (VStr "2025-01-01T00:00:00") md in
  let r' := Stored i 5 (VStr "2025-01-01T00:00:00.400000") md' in
  let w1 := Demo.world [mkEntry i "hello" (Some md)] Ignore [] [Demo.jan1] in
  let w1' := Demo.world [mkEntry i "hello" (Some md')] Ignore []
               [(Demo.jan1 + 400000)%Z] in
  store_document Demo.lib Demo.ready "hello" None None w = (Ok r, w1) /\
  store_document Demo.lib Demo.ready "hello" None (Demo.meta [("k", VInt 1)]) w'
  = (Ok r', w1') /\
  result_id r = result_id r'.
Proof.
  intros i md md' w w' r r' w1 w1'.
  assert (store_document Demo.lib Demo.ready "hello" None None w = (Ok r, w1))
    as E by (vm_compute; reflexivity).
  assert (store_document Demo.lib Demo.ready "hello" None
            (Demo.meta [("k", VInt 1)]) w' = (Ok r', w1'))
    as E' by (vm_compute; reflexivity).
  split; [exact E|]. split; [exact E'|].
  apply (generated_ids_collide_within_a_second Demo.lib Demo.ready Demo.h0
           "hello" None (Demo.meta [("k", VInt 1)]) w w' w1 w1' r r').
  - split; reflexivity.
  - vm_compute. reflexivity.
  - exact E.
  - exact E'.
Defined.

(** ** search_documents, continued *)

Lemma length_append (s1 s2 : string) :
  String.length (s1 +:+ s2) = (String.length s1 + String.length s2)%nat.
Proof. induction s1 as [|c s1 IH]; simpl; [done|]. by rewrite IH. Qed.

Lemma length_substring_0 (n : nat) (s : string) :
  String.length (substring 0 n s) = Nat.min n (String.length s).
Proof.
  revert n. induction s as [|c s IH]; intros [|n]; simpl; try done.
  by rewrite IH.
Qed.

(** The preview is the text itself up to 200 characters and otherwise its
    first 200 characters followed by an ellipsis, 203 characters in all. *)
Lemma content_preview_cases (doc : string) :
  ((len doc <= 200)%Z -> content_preview doc = doc) /\
  ((200 < len doc)%Z ->
   content_preview doc = (prefix 200 doc +:+ "...")%string /\
   len (content_preview doc) = 203%Z).
Proof.
  unfold content_preview. split; intros H.
  - apply Z.ltb_ge in H. by rewrite Z.gtb_ltb, H.
  - pose proof H as H'. apply Z.ltb_lt in H'. rewrite Z.gtb_ltb, H'.
    split; [done|]. unfold len, prefix in *.
    rewrite length_append, length_substring_0.
    change (String.length "...") with 3%nat. lia.
Qed.

Lemma format_loop_previews i docs dists metas ids out :
  format_loop i docs dists metas ids = Ok out ->
  forall r, r ∈ out -> dd_content_preview r = content_preview (dd_content r).
Proof.
  revert i out. induction docs as [|doc docs IH]; simpl; intros i out H.
  - injection H as <-. intros r Hr. by apply not_elem_of_nil in Hr.
  - destruct (dists !! i) as [d|]; [|done].
    destruct (format_loop (S i) docs dists metas ids) as [tl|] eqn:Etl; [|done].
    simpl in H. injection H as <-. intros r Hr.
    apply elem_of_cons in Hr as [->|Hr]; [done|]. by apply (IH _ _ Etl).
Qed.

(** X11: every result of [search_documents] carries a preview of its
    content: the content itself when it has at most 200 characters,
    otherwise its first 200 characters followed by "...", so a preview is
    never longer than 203 characters. *)
Theorem search_previews_are_bounded
  (lib : Library) (self : MemoryService) (query : string) (limit : Z)
  (flt : option Metadata) (w w' : World) (docs : list DocData) (r : DocData) :
  search_documents lib self query limit flt w = (Ok docs, w') ->
  r ∈ docs ->
  ((len (dd_content r) <= 200)%Z -> dd_content_preview r = dd_content r) /\
  ((200 < len (dd_content r))%Z ->
   dd_content_preview r = (prefix 200 (dd_content r) +:+ "...")%string) /\
  (len (dd_content_preview r) <= 203)%Z.
Proof.
  intros Hs Hr.
  assert (dd_content_preview r = content_preview (dd_content r)) as Hp.
  { destruct (ready_or_refusing self) as [He|[h HR]].
    - unfold search_documents, iobind, lift in Hs. by rewrite He in Hs.
    - rewrite (search_documents_run _ _ _ _ _ _ _ HR) in Hs.
      destruct (coll_query lib h query limit flt w) as [[results|e] w1];
        [|injection Hs as <- <-; by apply not_elem_of_nil in Hr].
      destruct (format_results results) as [documents|e] eqn:Ef;
        [|injection Hs as <- <-; by apply not_elem_of_nil in Hr].
      injection Hs as <- <-. rewrite sorted_perm in Hr.
      by apply (format_loop_previews _ _ _ _ _ _ Ef). }
  rewrite Hp. destruct (content_preview_cases (dd_content r)) as [H1 H2].
  split; [done|]. split; [by apply H2|].
  destruct (Z_le_gt_dec (len (dd_content r)) 200) as [Hle|Hgt].
  - rewrite (H1 Hle). lia.
  - destruct H2 as [_ ->]; lia.
Qed.

Lemma search_previews_are_bounded_witness :
  let long := mkEntry "l" (Demo.text 250 "x") None in
  let w := Demo.world [long] Ignore [] [] in
  exists docs w' r,
    search_documents Demo.lib Demo.ready "q" 10 None w = (Ok docs, w') /\
    r ∈ docs /\ len (dd_content r) = 250%Z /\
    len (dd_content_preview r) = 203%Z.
Proof.
  intros long w.
  destruct (search_documents Demo.lib Demo.ready "q" 10 None w)
    as [res w'] eqn:Es.
  set (r := mkDocData (Some "l") (Demo.text 250 "x")
              (Demo.text 200 "x" +:+ "...") None (FNum (inject_Z 249))).
  assert (res = Ok [r]) as -> by (vm_compute in Es; by injection Es as <- _).
  assert (r ∈ [r]) as Hr by left.
  destruct (search_previews_are_bounded Demo.lib Demo.ready "q" 10 None w w'
              [r] r Es Hr) as (_ & Hlong & _).
  exists [r], w', r. split; [done|]. split; [done|].
  split; [vm_compute; reflexivity|].
  rewrite Hlong; [vm_compute; reflexivity|]. vm_compute. reflexivity.
Defined.

Lemma format_loop_alignment i docs dists metas ids :
  (i <= length dists)%nat ->
  (if decide (i + length docs <= length dists)%nat
   then exists out,
       format_loop i docs dists metas ids = Ok out /\
       length out = length docs /\
       forall j r, out !! j = Some r ->
         dd_doc_id r = ids !! (i + j)%nat /\
         dd_metadata r = default (Some ∅) (metas !! (i + j)%nat)
   else format_loop i docs dists metas ids = Raise IndexError).
Proof.
  revert i. induction docs as [|doc docs IH]; intros i Hi; simpl.
  - destruct (decide _) as [H|H]; [|lia].
    exists []. split; [done|]. split; [done|]. intros j r Hj. by destruct j.
  - destruct (decide (i + S (length docs) <= length dists)%nat) as [H|H].
    + assert (S i <= length dists)%nat as Hi' by lia.
      specialize (IH (S i) Hi').
      destruct (decide (S i + length docs <= length dists)%nat); [|lia].
      destruct IH as (tl & Etl & Hlen & Hall).
      destruct (lookup_lt_is_Some_2 dists i) as [d Ed]; [lia|].
      rewrite Ed, Etl. simpl. eexists. split; [reflexivity|].
      split; [simpl; by rewrite Hlen|].
      intros [|j] r Hj; simpl in Hj.
      * injection Hj as <-. simpl. by rewrite Nat.add_0_r.
      * rewrite Nat.add_succ_r. by apply Hall.
    + destruct (dists !! i) as [d|] eqn:Ed; [|done].
      apply lookup_lt_Some in Ed.
      assert (S i <= length dists)%nat as Hi' by lia.
      specialize (IH (S i) Hi').
      destruct (decide (S i + length docs <= length dists)%nat); [lia|].
      by rewrite IH.
Qed.

(** X12: a backend answer with fewer distances than documents is
    discarded whole: formatting it raises [IndexError].  With at least as
    many distances there is one record per document, whose id is [None]
    where the answer has no id for the position and whose metadata is the
    empty dictionary where the answer has none. *)
Theorem short_distance_list_discards_the_answer (results : QueryResult) :
  let docs := first_or_empty (q_documents results) in
  let dists := first_or_empty (q_distances results) in
  ((length dists < length docs)%nat ->
   format_results results = Raise IndexError) /\
  ((length docs <= length dists)%nat ->
   exists out,
     format_results results = Ok out /\ length out = length docs /\
     forall j r, out !! j = Some r ->
       dd_doc_id r = first_or_empty (q_ids results) !! j /\
       dd_metadata r = default (Some ∅) (first_or_empty (q_metadatas results) !! j)).
Proof.
  intros docs dists. unfold format_results.
  pose proof (format_loop_alignment 0 docs dists
                (first_or_empty (q_metadatas results))
                (first_or_empty (q_ids results)) (Nat.le_0_l _)) as H.
  simpl in H. split; intros Hlen.
  - destruct (decide _) in H; [lia | done].
  - destruct (decide _) in H; [done | lia].
Qed.

Lemma short_distance_list_discards_the_answer_witness :
  format_results
    (mkQueryResult (Some [["a"; "b"]]) (Some [["alpha"; "beta"]])
                   (Some [[FNum 1]]) None)
  = Raise IndexError /\
  format_results
    (mkQueryResult None (Some [["alpha"]]) (Some [[FNum 1; FNum 2]]) None)
  = Ok [mkDocData None "alpha" "alpha" (Some ∅) (FNum 1)].
Proof.
  split.
  - apply (short_distance_list_discards_the_answer
             (mkQueryResult (Some [["a"; "b"]]) (Some [["alpha"; "beta"]])
                            (Some [[FNum 1]]) None)).
    simpl. lia.
  - reflexivity.
Defined.

(** ** get_collection_stats, continued *)

(** X13: on an initialized service [get_collection_stats] never raises.
    When the count call or the sampling call of the backend raises, the
    result is the error record: zero documents, zero total and average,
    the [initialized] flag still set, and the backend's error text. *)
Theorem stats_failure_is_reported_not_raised
  (self : MemoryService) (h : Handle) (w : World) :
  Ready self h ->
  exists st w',
    get_collection_stats self w = (Ok st, w') /\
    forall msg,
      (next_call_raises msg w \/
       exists s, schedule w = None :: Some msg :: s) ->
      st = mkStats (collection_name self) 0 0 0 true (Some msg).
Proof.
  intros HR. pose proof (ensure_ready _ _ HR) as He. destruct HR as [Hi Hc].
  unfold get_collection_stats, iobind, lift, try_except, with_collection,
    coll_count, coll_get_all, ret, external, next_call_raises.
  rewrite He, Hc, Hi.
  destruct (schedule w) as [|[m|] [|[m'|] s]] eqn:Es; simpl;
    try (rewrite Es; simpl);
    try (destruct (total_length_loop _ _));
    do 2 eexists; (split; [reflexivity|]);
    intros msg [H|[s' H]]; simplify_eq/=; done.
Qed.

Lemma stats_failure_is_reported_not_raised_witness :
  let a := mkEntry "a" "alpha" (Demo.meta [("content_length", VInt 5)]) in
  let w := Demo.world [a] Ignore [None; Some "database is locked"] [] in
  exists w',
    get_collection_stats Demo.ready w
    = (Ok (mkStats "learning_data" 0 0 0 true (Some "database is locked")), w').
Proof.
  intros a w.
  destruct (stats_failure_is_reported_not_raised Demo.ready Demo.h0 w)
    as (st & w' & Hrun & Hmsg).
  - split; reflexivity.
  - exists w'. rewrite Hrun. f_equal. f_equal.
    apply Hmsg. right. by exists [].
Defined.

Lemma total_length_loop_ints acc (l : list Entry) :
  (forall e, e ∈ l ->
     exists d n, e_metadata e = Some d /\ d !! "content_length" = Some (VInt n)) ->
  total_length_loop acc (map e_metadata l)
  = Ok (acc + foldr Z.add 0 (map recorded_length l))%Z.
Proof.
  revert acc. induction l as [|e l IH]; intros acc H; simpl.
  - f_equal. lia.
  - destruct (H e) as (d & n & Hm & Hn); [by left|].
    unfold recorded_length at 1. rewrite Hm, Hn. simpl.
    case_bool_decide as Hd; [subst d; by rewrite lookup_empty in Hn|].
    rewrite Hn. simpl. rewrite IH; [f_equal; lia|].
    intros x Hx. apply H. by right.
Qed.

(** X14: on an initialized service whose backend answers, when every
    sampled row records an integer [content_length] (as every row written
    by [store_document] does), the reported total is the sum of the
    recorded lengths of the first 100 rows, and the reported count is the
    number of all rows. *)
Theorem stats_total_is_the_sum_of_the_sample
  (self : MemoryService) (h : Handle) (w : World) :
  Ready self h -> calm 2 w ->
  (forall e, e ∈ take 100 (rows h w) ->
     exists d n, e_metadata e = Some d /\ d !! "content_length" = Some (VInt n)) ->
  exists st w',
    get_collection_stats self w = (Ok st, w') /\
    st_error st = None /\
    st_total_documents st = Z.of_nat (length (rows h w)) /\
    st_total_content_length st
    = foldr Z.add 0%Z (map recorded_length (take 100 (rows h w))).
Proof.
  intros HR Hcalm Hall.
  destruct (get_collection_stats_run self h w HR Hcalm) as [w' Hrun].
  simpl in Hrun. rewrite (total_length_loop_ints 0 _ Hall) in Hrun.
  eexists _, w'. split; [exact Hrun|]. by repeat split.
Qed.

Lemma stats_total_is_the_sum_of_the_sample_witness :
  let a := mkEntry "a" "alpha" (Demo.meta [("content_length", VInt 5)]) in
  let b := mkEntry "b" "be" (Demo.meta [("content_length", VInt 2)]) in
  let w := Demo.world [a; b] Ignore [] [] in
  exists st w',
    get_collection_stats Demo.ready w = (Ok st, w') /\
    st_total_documents st = 2%Z /\ st_total_content_length st = 7%Z.
Proof.
  intros a b w.
  assert (rows Demo.h0 w = [a; b]) as Hrows by (vm_compute; reflexivity).
  destruct (stats_total_is_the_sum_of_the_sample Demo.ready Demo.h0 w)
    as (st & w' & Hrun & _ & Hcount & Htotal).
  - split; reflexivity.
  - apply calm_nil. reflexivity.
  - rewrite Hrows. intros e He.
    apply elem_of_cons in He as [->|He];
      [|apply list_elem_of_singleton in He as ->]; do 2 eexists;
      (split; [reflexivity|]); vm_compute; reflexivity.
  - exists st, w'. split; [exact Hrun|]. rewrite Hcount, Htotal, Hrows.
    split; vm_compute; reflexivity.
Defined.

(** ** cleanup_old_documents, continued *)

(** Every run on an initialized service ends in one of two ways: a
    failure result with nothing changed, or a success result that removed
    from the service's collection the rows whose ids were collected. *)
Lemma cleanup_cases lib self h days w :
  Ready self h ->
  exists r w',
    cleanup_old_documents lib self days w = (Ok r, w') /\
    ((exists err, r = CleanupFailed 0 err /\ same_store w w') \/
     (exists cutoff_iso,
        cutoff_iso_of lib w days = Ok cutoff_iso /\
        let old := map e_id (filter (fun e => eligible cutoff_iso e) (rows h w)) in
        r = Cleaned (Z.of_nat (length old)) cutoff_iso days /\
        rows h w' = filter (fun e => negb (bool_decide (e_id e ∈ old))) (rows h w) /\
        (forall h', h' <> h -> rows h' w' = rows h' w) /\
        deletions w' = deletions w ++ old)).
Proof.
  intros HR. pose proof (ensure_ready _ _ HR) as He. destruct HR as [_ Hc].
  unfold cleanup_old_documents, cutoff_iso_of.
  unfold iobind at 1. unfold lift at 1. rewrite He.
  unfold try_except. unfold iobind at 1.
  destruct (datetime_now_reading w) as [c Ec]. rewrite Ec.
  unfold iobind at 1. unfold lift at 1.
  destruct (minus_days (reading w) days) as [d|e]; simpl.
  2: { do 2 eexists. split; [reflexivity|]. left. eexists. by repeat split. }
  unfold with_collection. rewrite Hc.
  unfold iobind at 1. unfold coll_get_all. step_external.
  { do 2 eexists. split; [reflexivity|]. left. eexists. by repeat split. }
  unfold iobind at 1. unfold lift at 1.
  change (rows h (set_schedule (set_clock w c) s)) with (rows h w).
  rewrite old_ids_loop_all.
  remember (map e_id (filter (fun e => eligible (isoformat lib d) e) (rows h w)))
    as old eqn:Hold.
  unfold iobind at 1. destruct old as [|i old'].
  - unfold ret. do 2 eexists. split; [reflexivity|]. right.
    exists (isoformat lib d). split; [done|]. simpl. rewrite <- Hold.
    split; [done|]. split; [by rewrite filter_not_in_nil|].
    split; [done | by rewrite app_nil_r].
  - unfold coll_delete. step_external.
    { do 2 eexists. split; [reflexivity|]. left. eexists. by repeat split. }
    unfold ret. do 2 eexists. split; [reflexivity|]. right.
    exists (isoformat lib d). split; [done|]. simpl. rewrite <- Hold.
    split; [done|]. split; [|split; [|done]].
    + unfold rows at 1. simpl. by rewrite lookup_insert_eq.
    + intros h' Hne. unfold rows. simpl. by rewrite lookup_insert_ne.
Qed.

(** X15: an age limit for which no cutoff date exists (more than
    999999999 days in magnitude, or reaching before year 1 or after year
    9999) is not rejected with an exception: the call returns the failure
    result with a zero count and the error text, makes no backend call and
    changes nothing. *)
Theorem cleanup_with_unrepresentable_age_fails_quietly
  (lib : Library) (self : MemoryService) (h : Handle) (days : Z) (w : World)
  (e : exn) :
  Ready self h -> cutoff_iso_of lib w days = Raise e ->
  exists w',
    cleanup_old_documents lib self days w
    = (Ok (CleanupFailed 0 (str_of_exn e)), w') /\
    schedule w' = schedule w /\ same_store w w'.
Proof.
  intros HR Hcut. pose proof (ensure_ready _ _ HR) as He.
  unfold cleanup_old_documents, cutoff_iso_of, iobind, lift, try_except, ret in *.
  rewrite He. destruct (datetime_now_reading w) as [c Ec]. rewrite Ec.
  destruct (minus_days (reading w) days) as [d|e']; simpl in Hcut; [done|].
  injection Hcut as ->. eexists. split; [reflexivity|]. by repeat split.
Qed.

Lemma cleanup_with_unrepresentable_age_fails_quietly_witness :
  let a := mkEntry "a" "alpha"
             (Demo.meta [("created_at", VStr "1999-01-01T00:00:00")]) in
  let w := Demo.world [a] Ignore [] [Demo.jan1] in
  (exists w',
     cleanup_old_documents Demo.lib Demo.ready 1000000000 w
     = (Ok (CleanupFailed 0 "days=1000000000; must have magnitude <= 999999999"),
        w') /\ same_store w w') /\
  (exists w',
     cleanup_old_documents Demo.lib Demo.ready 800000 w
     = (Ok (CleanupFailed 0 "date value out of range"), w') /\ same_store w w').
Proof.
  intros a w. split.
  - destruct (cleanup_with_unrepresentable_age_fails_quietly Demo.lib Demo.ready
                Demo.h0 1000000000 w
                (OverflowError "days=1000000000; must have magnitude <= 999999999"))
      as (w' & Hrun & _ & Hsame).
    + split; reflexivity.
    + vm_compute. reflexivity.
    + by exists w'.
  - destruct (cleanup_with_unrepresentable_age_fails_quietly Demo.lib Demo.ready
                Demo.h0 800000 w (OverflowError "date value out of range"))
      as (w' & Hrun & _ & Hsame).
    + split; reflexivity.
    + vm_compute. reflexivity.
    + by exists w'.
Defined.

(** X16: on an initialized service [cleanup_old_documents] never raises,
    and a failure result always reports zero removed documents and leaves
    the stored rows and the deletion journal as they were, also when the
    failure comes from the delete call after old rows were found. *)
Theorem cleanup_failure_removes_nothing
  (lib : Library) (self : MemoryService) (h : Handle) (days : Z) (w : World) :
  Ready self h ->
  exists r w',
    cleanup_old_documents lib self days w = (Ok r, w') /\
    forall n err, r = CleanupFailed n err -> n = 0%Z /\ same_store w w'.
Proof.
  intros HR.
  destruct (cleanup_cases lib self h days w HR)
    as (r & w' & Hrun & [(err & -> & Hsame)|(cutoff & _ & Hr & _)]).
  - do 2 eexists. split; [exact Hrun|]. by intros n e [= <- _].
  - simpl in Hr. subst r. do 2 eexists. split; [exact Hrun|]. done.
Qed.

Lemma cleanup_failure_removes_nothing_witness :
  let a := mkEntry "a" "alpha"
             (Demo.meta [("created_at", VStr "1999-01-01T00:00:00")]) in
  let w := Demo.world [a] Ignore [None; Some "database is locked"] [Demo.jan1] in
  let w' := Demo.world [a] Ignore [] [Demo.jan1] in
  cleanup_old_documents Demo.lib Demo.ready 90 w
  = (Ok (CleanupFailed 0 "database is locked"), w') /\
  same_store w w'.
Proof.
  intros a w w'.
  assert (cleanup_old_documents Demo.lib Demo.ready 90 w
          = (Ok (CleanupFailed 0 "database is locked"), w')) as Hrun
    by (vm_compute; reflexivity).
  split; [exact Hrun|].
  destruct (cleanup_failure_removes_nothing Demo.lib Demo.ready Demo.h0 90 w)
    as (r & w2 & Hrun' & Hfail).
  - split; reflexivity.
  - rewrite Hrun in Hrun'. injection Hrun' as <- <-.
    by destruct (Hfail _ _ eq_refl).
Defined.

(** When no row is eligible the scan is the only backend call. *)
Lemma cleanup_nothing_eligible lib self h days w cutoff_iso :
  Ready self h -> calm 1 w ->
  cutoff_iso_of lib w days = Ok cutoff_iso ->
  (forall e, stored_in h w e -> eligible cutoff_iso e = false) ->
  exists w',
    cleanup_old_documents lib self days w = (Ok (Cleaned 0 cutoff_iso days), w') /\
    same_store w w' /\ schedule w' = tail (schedule w).
Proof.
  intros HR Hcalm Hcut Hnone.
  pose proof (ensure_ready _ _ HR) as He. destruct HR as [_ Hc].
  unfold cleanup_old_documents, cutoff_iso_of in *.
  unfold iobind at 1. unfold lift at 1. rewrite He.
  unfold try_except. unfold iobind at 1.
  destruct (datetime_now_reading w) as [c Ec]. rewrite Ec.
  unfold iobind at 1. unfold lift at 1.
  destruct (minus_days (reading w) days) as [d|e]; simpl in Hcut; [|done].
  injection Hcut as Hcut.
  unfold with_collection. rewrite Hc.
  unfold iobind at 1. unfold coll_get_all.
  rewrite external_calm; [|exact Hcalm].
  unfold iobind at 1. unfold lift at 1.
  change (rows h (set_schedule (set_clock w c) _)) with (rows h w).
  rewrite old_ids_loop_all, Hcut, (filter_none _ _ Hnone).
  unfold iobind, ret. simpl. eexists. split; [reflexivity|]. by repeat split.
Qed.

(** X17: when no stored row is older than the cutoff, the cleanup reports
    zero removed documents and makes no delete call: the scan is its only
    backend call, and rows and deletion journal are unchanged. *)
Theorem cleanup_without_old_rows_deletes_nothing
  (lib : Library) (self : MemoryService) (h : Handle) (days : Z) (w : World)
  (cutoff_iso : string) :
  Ready self h -> calm 1 w ->
  cutoff_iso_of lib w days = Ok cutoff_iso ->
  (forall e, stored_in h w e -> eligible cutoff_iso e = false) ->
  exists w',
    cleanup_old_documents lib self days w = (Ok (Cleaned 0 cutoff_iso days), w') /\
    same_store w w' /\ schedule w' = tail (schedule w).
Proof. apply cleanup_nothing_eligible. Qed.

Lemma cleanup_without_old_rows_deletes_nothing_witness :
  let a := mkEntry "a" "alpha"
             (Demo.meta [("created_at", VStr "2025-01-01T00:00:00")]) in
  let w := Demo.world [a] Ignore [None; Some "delete would fail"] [Demo.jan1] in
  exists w',
    cleanup_old_documents Demo.lib Demo.ready 30 w
    = (Ok (Cleaned 0 "2024-12-02T00:00:00" 30), w') /\
    schedule w' = [Some "delete would fail"].
Proof.
  intros a w.
  destruct (cleanup_without_old_rows_deletes_nothing Demo.lib Demo.ready Demo.h0
              30 w "2024-12-02T00:00:00") as (w' & Hrun & _ & Hs).
  - split; reflexivity.
  - unfold calm. simpl. by repeat constructor.
  - vm_compute. reflexivity.
  - assert (rows Demo.h0 w = [a]) as Hrows by (vm_compute; reflexivity).
    intros e He. unfold stored_in in He. rewrite Hrows in He.
    apply list_elem_of_singleton in He as ->. vm_compute. reflexivity.
  - exists w'. split; [exact Hrun|]. rewrite Hs. reflexivity.
Defined.

(** X18: cleaning up is idempotent for a given cutoff: after a successful
    cleanup no remaining row is eligible under its cutoff, so a second
    cleanup that computes the same cutoff reports zero and changes
    nothing. *)
Theorem cleanup_twice_removes_nothing_more
  (lib : Library) (self : MemoryService) (h : Handle) (days : Z)
  (w w' : World) (n : Z) (cutoff_iso : string) :
  Ready self h ->
  cleanup_old_documents lib self days w = (Ok (Cleaned n cutoff_iso days), w') ->
  (forall e, stored_in h w' e -> eligible cutoff_iso e = false) /\
  (calm 1 w' -> cutoff_iso_of lib w' days = Ok cutoff_iso ->
   exists w'',
     cleanup_old_documents lib self days w' = (Ok (Cleaned 0 cutoff_iso days), w'') /\
     same_store w' w'').
Proof.
  intros HR Hrun.
  destruct (cleanup_cases lib self h days w HR)
    as (r & w2 & Hrun' & [(err & -> & _)|(cutoff & _ & Hr & Hrows & _)]);
    rewrite Hrun in Hrun'; [done|].
  simpl in Hr. subst r. injection Hrun' as _ <- <-.
  assert (forall e, stored_in h w' e -> eligible cutoff_iso e = false) as Hnone.
  { intros e He. unfold stored_in in He. rewrite Hrows in He.
    apply kept_after_delete in He as [Hno He].
    destruct (eligible cutoff_iso e) eqn:Hel; [|done].
    exfalso. apply Hno. apply (list_elem_of_fmap_2 e_id).
    apply list_elem_of_filter. split; [by apply Is_true_true | done]. }
  split; [done|]. intros Hcalm Hcut.
  destruct (cleanup_nothing_eligible lib self h days w' cutoff_iso HR Hcalm
              Hcut Hnone) as (w'' & Hrun2 & Hsame & _).
  by exists w''.
Qed.

Lemma cleanup_twice_removes_nothing_more_witness :
  let fresh := mkEntry "new" "today"
                 (Demo.meta [("created_at", VStr "2025-01-01T00:00:00")]) in
  let stale := mkEntry "old" "last week"
                 (Demo.meta [("created_at", VStr "2024-12-27T00:00:00")]) in
  let w := Demo.world [fresh; stale] Ignore [] [Demo.jan1] in
  let w' := mkWorld {[ Demo.h0 := [fresh] ]} Ignore [] [Demo.jan1] ["old"] in
  cleanup_old_documents Demo.lib Demo.ready 0 w
  = (Ok (Cleaned 1 "2025-01-01T00:00:00" 0), w') /\
  exists w'',
    cleanup_old_documents Demo.lib Demo.ready 0 w'
    = (Ok (Cleaned 0 "2025-01-01T00:00:00" 0), w'') /\
    same_store w' w''.
Proof.
  intros fresh stale w w'.
  assert (cleanup_old_documents Demo.lib Demo.ready 0 w
          = (Ok (Cleaned 1 "2025-01-01T00:00:00" 0), w')) as Hrun
    by (vm_compute; reflexivity).
  split; [exact Hrun|].
  destruct (cleanup_twice_removes_nothing_more Demo.lib Demo.ready Demo.h0 0
              w w' 1 "2025-01-01T00:00:00") as [_ Hagain].
  - split; reflexivity.
  - exact Hrun.
  - apply Hagain; [by apply calm_nil | vm_compute; reflexivity].
Defined.

(** X19: a cleanup only ever removes rows: in every world and for every
    collection, the rows after the call are a sublist of the rows before
    it (nothing is added, rewritten or reordered), and collections other
    than the service's own are left as they were. *)
Theorem cleanup_only_removes
  (lib : Library) (self : MemoryService) (days : Z) (w : World) (h' : Handle) :
  rows h' (snd (cleanup_old_documents lib self days w)) `sublist_of` rows h' w /\
  (collection self <> Some h' ->
   rows h' (snd (cleanup_old_documents lib self days w)) = rows h' w).
Proof.
  destruct (ready_or_refusing self) as [He|[h HR]].
  - unfold cleanup_old_documents, iobind, lift. rewrite He. by simpl.
  - destruct (cleanup_cases lib self h days w HR)
      as (r & w' & Hrun & [(err & -> & Hsame & _)|(cutoff & _ & _ & Hrows & Hother & _)]);
      rewrite Hrun; simpl.
    + unfold rows. by rewrite Hsame.
    + destruct HR as [_ Hc]. destruct (decide (h' = h)) as [->|Hne].
      * split; [|by rewrite Hc]. rewrite Hrows. apply sublist_filter.
      * by rewrite (Hother h' Hne).
Qed.

Lemma cleanup_only_removes_witness :
  let other : Handle := ("elsewhere", "notes") in
  let w := mkWorld {[ other := [mkEntry "x" "kept"
                                  (Demo.meta [("created_at", VStr "1999")])] ]}
                   Ignore [] [Demo.jan1] [] in
  rows other (snd (cleanup_old_documents Demo.lib Demo.ready 0 w)) = rows other w.
Proof.
  intros other w.
  apply (cleanup_only_removes Demo.lib Demo.ready 0 w other). discriminate.
Defined.

(** * EmailService *)

Import Email.

(** ** Sorting, for any element type *)

Section SortFacts.
Context {A : Type} (key : A -> pyfloat).

Lemma insert_permutation (x : A) (l : list A) : insert key x l ≡ₚ x :: l.
Proof.
  induction l as [|y l IH]; simpl; [done|].
  destruct (float_lt _ _); [|done]. rewrite IH. apply Permutation_swap.
Qed.

Lemma sorted_permutation (l : list A) : sorted key l ≡ₚ l.
Proof.
  induction l as [|x l IH]; [done|].
  change (sorted key (x :: l)) with (insert key x (sorted key l)).
  by rewrite insert_permutation, IH.
Qed.

Lemma insert_ascending (x : A) (l : list A) :
  key x <> FNaN -> (forall r, r ∈ l -> key r <> FNaN) ->
  StronglySorted (fun a b => float_le (key a) (key b) = true) l ->
  StronglySorted (fun a b => float_le (key a) (key b) = true) (insert key x l).
Proof.
  intros Hx. induction l as [|y l IH]; simpl; intros Hl Hs.
  - by repeat constructor.
  - apply StronglySorted_inv in Hs as [Hs Hy].
    destruct (float_lt (key y) (key x)) eqn:E.
    + constructor.
      * apply IH; [|done]. intros r Hr. apply Hl. by right.
      * apply Forall_forall. intros r Hr. rewrite insert_permutation in Hr.
        apply elem_of_cons in Hr as [->|Hr]; [by apply float_lt_le|].
        rewrite Forall_forall in Hy. by apply Hy.
    + assert (float_le (key x) (key y) = true) as Hxy.
      { apply float_not_lt_le; [done| |done]. apply Hl. by left. }
      constructor; [by constructor|]. constructor; [done|].
      rewrite Forall_forall in Hy. apply Forall_forall. intros r Hr.
      eapply float_le_trans; [exact Hxy|]. by apply Hy.
Qed.

Lemma sorted_ascending (l : list A) :
  (forall r, r ∈ l -> key r <> FNaN) ->
  StronglySorted (fun a b => float_le (key a) (key b) = true) (sorted key l).
Proof.
  induction l as [|x l IH]; intros Hl; [constructor|].
  change (sorted key (x :: l)) with (insert key x (sorted key l)).
  apply insert_ascending.
  - apply Hl. by left.
  - intros r Hr. rewrite sorted_permutation in Hr. apply Hl. by right.
  - apply IH. intros r Hr. apply Hl. by right.
Qed.

Lemma insert_keeps_ties d (x : A) (l : list A) :
  filter (fun r => float_eq (key r) d = true) (insert key x l)
  = filter (fun r => float_eq (key r) d = true) (x :: l).
Proof.
  induction l as [|y l IH]; simpl; [done|].
  destruct (float_lt (key y) (key x)) eqn:E; [|done].
  rewrite (filter_cons _ y), IH, !(filter_cons _ x), (filter_cons _ y).
  destruct (decide (float_eq (key x) d = true)) as [Hx|Hx];
    destruct (decide (float_eq (key y) d = true)) as [Hy|Hy]; try done.
  destruct (float_lt_not_both_eq _ _ _ E Hx Hy).
Qed.

Lemma sorted_keeps_ties d (l : list A) :
  filter (fun r => float_eq (key r) d = true) (sorted key l)
  = filter (fun r => float_eq (key r) d = true) l.
Proof.
  induction l as [|x l IH]; [done|].
  change (sorted key (x :: l)) with (insert key x (sorted key l)).
  rewrite insert_keeps_ties. by rewrite !(filter_cons _ x), IH.
Qed.

Lemma descending_snoc (l : list A) (x : A) :
  StronglySorted (fun a b => float_le (key b) (key a) = true) l ->
  Forall (fun y => float_le (key x) (key y) = true) l ->
  StronglySorted (fun a b => float_le (key b) (key a) = true) (l ++ [x]).
Proof.
  induction l as [|y l IH]; simpl; intros Hs Hx.
  - by repeat constructor.
  - apply StronglySorted_inv in Hs as [Hs Hy].
    apply Forall_cons in Hx as [Hxy Hx].
    constructor; [by apply IH|].
    apply Forall_app. split; [done | by repeat constructor].
Qed.

Lemma ascending_reverse (l : list A) :
  StronglySorted (fun a b => float_le (key a) (key b) = true) l ->
  StronglySorted (fun a b => float_le (key b) (key a) = true) (reverse l).
Proof.
  induction l as [|x l IH]; intros Hs; [constructor|].
  apply StronglySorted_inv in Hs as [Hs Hx].
  rewrite reverse_cons. apply descending_snoc; [by apply IH|].
  apply Forall_forall. intros y Hy. rewrite elem_of_reverse in Hy.
  rewrite Forall_forall in Hx. by apply Hx.
Qed.

End SortFacts.

Lemma rev_is_reverse {A} (l : list A) : rev l = reverse l.
Proof. apply rev_alt. Qed.

Lemma float_eq_refl x : x <> FNaN -> float_eq x x = true.
Proof.
  destruct x as [|b|q]; simpl; [done| |].
  - intros _. by destruct b.
  - intros _. apply Qeq_bool_iff. reflexivity.
Qed.

(** ** _organize_articles *)

Lemma value_lt_numbers (a b : Value) x y :
  numeric a = Some x -> numeric b = Some y ->
  value_lt a b = inr (float_lt x y).
Proof. destruct a, b; simpl; intros [= <-] [= <-]; done. Qed.

Lemma score_of_number (x : Item) f :
  numeric (score_key x) = Some f -> score x = f.
Proof. unfold score. by intros ->. Qed.

Lemma insert_by_numbers (x : Item) (l : list Item) :
  scores_are_numbers (x :: l) ->
  insert_by score_key x l = inr (insert score x l).
Proof.
  induction l as [|y l IH]; intros H; simpl; [done|].
  destruct (H x) as (fx & Hx & _); [by left|].
  destruct (H y) as (fy & Hy & _); [right; by left|].
  rewrite (value_lt_numbers _ _ _ _ Hy Hx).
  rewrite (score_of_number _ _ Hx), (score_of_number _ _ Hy).
  destruct (float_lt fy fx); [|done].
  rewrite IH; [done|]. intros z Hz. apply H.
  apply elem_of_cons in Hz as [->|Hz]; [by left | right; by right].
Qed.

Lemma sort_by_numbers (l : list Item) :
  scores_are_numbers l -> sort_by score_key l = inr (sorted score l).
Proof.
  induction l as [|x l IH]; intros H; simpl; [done|].
  rewrite IH; [|intros z Hz; apply H; by right].
  change (sorted score (x :: l)) with (insert score x (sorted score l)).
  apply insert_by_numbers. intros z Hz. apply H.
  apply elem_of_cons in Hz as [->|Hz]; [by left|].
  rewrite sorted_permutation in Hz. by right.
Qed.

Lemma scores_not_nan (l : list Item) :
  scores_are_numbers l -> forall x, x ∈ l -> score x <> FNaN.
Proof.
  intros H x Hx. destruct (H x Hx) as (f & Hf & Hn).
  by rewrite (score_of_number _ _ Hf).
Qed.

(** With numeric scores the descending sort succeeds; its result is a
    rearrangement of the input in non-increasing order of score that keeps
    articles of equal score in their input order. *)
Lemma sort_reverse_numbers (l : list Item) :
  scores_are_numbers l ->
  exists d,
    sort_reverse score_key l = inr d /\
    d ≡ₚ l /\
    StronglySorted (fun a b => float_le (score b) (score a) = true) d /\
    forall v, filter (fun r => float_eq (score r) v = true) d
              = filter (fun r => float_eq (score r) v = true) l.
Proof.
  intros H. unfold sort_reverse.
  assert (scores_are_numbers (rev l)) as Hr.
  { intros x Hx. apply H. by rewrite rev_is_reverse, elem_of_reverse in Hx. }
  rewrite (sort_by_numbers _ Hr). eexists. split; [reflexivity|].
  rewrite !rev_is_reverse. split; [|split].
  - by rewrite reverse_Permutation, sorted_permutation, reverse_Permutation.
  - apply ascending_reverse, sorted_ascending.
    rewrite <- rev_is_reverse. by apply scores_not_nan.
  - intros v. rewrite filter_reverse, sorted_keeps_ties, filter_reverse.
    apply reverse_involutive.
Qed.

Lemma list_ind3 {A} (P : list A -> Prop) :
  P [] -> (forall a, P [a]) -> (forall a b, P [a; b]) ->
  (forall a b c l, P l -> P (a :: b :: c :: l)) ->
  forall l, P l.
Proof.
  intros H0 H1 H2 H3.
  assert (forall l, P l /\ (forall a, P (a :: l)) /\ (forall a b, P (a :: b :: l)))
    as H.
  { induction l as [|x l (IH0 & IH1 & IH2)]; [by auto|].
    split; [by apply IH1|]. split; [intros a; by apply IH2|].
    intros a b. by apply H3. }
  intros l. apply H.
Qed.

Lemma every_third_lookup {A} (l : list A) (j : nat) :
  every_third l !! j = l !! (3 * j)%nat.
Proof.
  revert j. induction l as [|a|a b|a b c l IH] using list_ind3; intros j.
  - by rewrite !lookup_nil.
  - destruct j as [|j]; [done|].
    replace (3 * S j)%nat with (S (S (S (3 * j)))) by lia.
    change (every_third [a]) with [a]. by rewrite !lookup_cons, !lookup_nil.
  - destruct j as [|j]; [done|].
    replace (3 * S j)%nat with (S (S (S (3 * j)))) by lia.
    change (every_third [a; b]) with [a]. by rewrite !lookup_cons, !lookup_nil.
  - destruct j as [|j]; [done|].
    replace (3 * S j)%nat with (S (S (S (3 * j)))) by lia.
    change (every_third (a :: b :: c :: l)) with (a :: every_third l).
    rewrite !lookup_cons. apply IH.
Qed.

Lemma every_third_lengths {A} (l : list A) :
  let n1 := length (every_third l) in
  let n2 := length (every_third (tail l)) in
  let n3 := length (every_third (tail (tail l))) in
  (n1 + n2 + n3 = length l /\ n3 <= n2 <= n1 /\ n1 <= n3 + 1)%nat.
Proof.
  induction l as [|a|a b|a b c l IH] using list_ind3; simpl; try lia.
  simpl in IH.
  destruct l as [|x [|y l']]; simpl in *; lia.
Qed.

Lemma distribute_step (i : nat) (a : Item) (rest c1 c2 c3 : list Item) :
  distribute i (a :: rest) c1 c2 c3
  = match (i mod 3)%nat with
    | 0%nat => distribute (S i) rest (c1 ++ [a]) c2 c3
    | 1%nat => distribute (S i) rest c1 (c2 ++ [a]) c3
    | _ => distribute (S i) rest c1 c2 (c3 ++ [a])
    end.
Proof. reflexivity. Qed.

(** The loop deals the articles out in turn: from a position that is a
    multiple of 3, each column receives every third article. *)
Lemma distribute_deals (i : nat) (remaining c1 c2 c3 : list Item) :
  (i mod 3 = 0)%nat ->
  distribute i remaining c1 c2 c3
  = (c1 ++ every_third remaining,
     c2 ++ every_third (tail remaining),
     c3 ++ every_third (tail (tail remaining))).
Proof.
  revert i c1 c2 c3.
  induction remaining as [|a|a b|a b c l IH] using list_ind3;
    intros i c1 c2 c3 Hi.
  - simpl. by rewrite !app_nil_r.
  - rewrite distribute_step, Hi. simpl. by rewrite !app_nil_r.
  - assert (S i mod 3 = 1)%nat as Hi1
      by (rewrite <- Nat.add_1_r, Nat.Div0.add_mod, Hi; done).
    rewrite distribute_step, Hi, distribute_step, Hi1. simpl.
    by rewrite !app_nil_r.
  - assert (S i mod 3 = 1)%nat as Hi1
      by (rewrite <- Nat.add_1_r, Nat.Div0.add_mod, Hi; done).
    assert (S (S i) mod 3 = 2)%nat as Hi2
      by (replace (S (S i)) with (i + 2)%nat by lia;
          rewrite Nat.Div0.add_mod, Hi; done).
    assert (S (S (S i)) mod 3 = 0)%nat as Hi3
      by (replace (S (S (S i))) with (i + 3)%nat by lia;
          rewrite Nat.Div0.add_mod, Hi; done).
    rewrite distribute_step, Hi, distribute_step, Hi1, distribute_step, Hi2.
    rewrite (IH _ _ _ _ Hi3).
    change (every_third (a :: b :: c :: l)) with (a :: every_third l).
    destruct l as [|x [|y l']]; simpl; by rewrite <- !app_assoc.
Qed.

Lemma every_third_covers {A} (l : list A) :
  every_third l ++ every_third (tail l) ++ every_third (tail (tail l)) ≡ₚ l.
Proof.
  induction l as [|a|a b|a b c l IH] using list_ind3; try done.
  change (every_third (a :: b :: c :: l)) with (a :: every_third l).
  change (tail (a :: b :: c :: l)) with (b :: c :: l).
  change (tail (b :: c :: l)) with (c :: l).
  assert (every_third (b :: c :: l) = b :: every_third (tail l)) as ->
    by (by destruct l as [|x [|y l']]).
  assert (every_third (c :: l) = c :: every_third (tail (tail l))) as ->
    by (by destruct l as [|x [|y l']]).
  rewrite <- IH at 4. simpl. constructor.
  rewrite <- !Permutation_middle. by do 2 constructor.
Qed.

(** What [_organize_articles] returns when there are articles and all
    scores are numbers. *)
Lemma organize_run (np : Newspaper) :
  scores_are_numbers (all_articles np) -> all_articles np <> [] ->
  exists a remaining,
    sort_reverse score_key (all_articles np) = inr (a :: remaining) /\
    _organize_articles np
    = inr (mkOrganized (Some a) (every_third remaining)
                       (every_third (tail remaining))
                       (every_third (tail (tail remaining)))).
Proof.
  intros Hn Hne.
  destruct (sort_reverse_numbers _ Hn) as (d & Hd & Hperm & _).
  destruct d as [|a remaining].
  { apply Permutation_nil_l in Hperm. by rewrite <- Hperm in Hne. }
  exists a, remaining. split; [done|].
  unfold _organize_articles. destruct (all_articles np) as [|x l]; [done|].
  rewrite Hd. simpl head. simpl tail. by rewrite distribute_deals.
Qed.

(** X20: when every article's score is a number, [_organize_articles]
    succeeds and loses or duplicates nothing: the front page together with
    the three columns is a rearrangement of all the articles of all the
    sections; the front page is empty exactly when there is no article. *)
Theorem organize_keeps_every_article (np : Newspaper) :
  scores_are_numbers (all_articles np) ->
  exists org,
    _organize_articles np = inr org /\
    option_list (front_page org) ++ column_1 org ++ column_2 org ++ column_3 org
    ≡ₚ all_articles np /\
    (front_page org = None <-> all_articles np = []).
Proof.
  intros Hn. destruct (all_articles np) as [|x l] eqn:Eall.
  - exists (mkOrganized None [] [] []). unfold _organize_articles.
    by rewrite Eall.
  - destruct (organize_run np) as (a & remaining & Hsort & Hrun);
      [by rewrite Eall..|].
    eexists. split; [exact Hrun|]. simpl. split; [|done].
    destruct (sort_reverse_numbers (all_articles np)) as (d & Hd & Hperm & _);
      [by rewrite Eall|].
    rewrite Hsort in Hd. injection Hd as <-. rewrite Eall in Hperm.
    rewrite <- Hperm. constructor. apply every_third_covers.
Qed.

Lemma organize_keeps_every_article_witness :
  let art (t : string) (s : nat) :=
    ADict (list_to_map [("title", VStr t); ("score", VInt (Z.of_nat s))]) in
  let np := mkNewspaper (Some "Daily") None
              (Some [mkSection (Some "Tech") (Some [art "a" 3; art "b" 9]);
                     mkSection None None;
                     mkSection (Some "World")
                       (Some [art "c" 5; art "d" 9; art "e" 1])]) in
  _organize_articles np
  = inr (mkOrganized (Some (art "b" 9)) [art "d" 9; art "e" 1] [art "c" 5]
                     [art "a" 3]) /\
  [art "b" 9] ++ [art "d" 9; art "e" 1] ++ [art "c" 5] ++ [art "a" 3]
  ≡ₚ all_articles np.
Proof.
  intros art np.
  assert (_organize_articles np
          = inr (mkOrganized (Some (art "b" 9)) [art "d" 9; art "e" 1]
                             [art "c" 5] [art "a" 3])) as Hrun
    by (vm_compute; reflexivity).
  split; [exact Hrun|].
  destruct (organize_keeps_every_article np) as (org & Hrun' & Hperm & _).
  - intros x Hx.
    assert (all_articles np = [art "a" 3; art "b" 9; art "c" 5; art "d" 9; art "e" 1])
      as Hall by reflexivity.
    rewrite Hall in Hx.
    repeat (apply elem_of_cons in Hx as [->|Hx]);
      [..|by apply not_elem_of_nil in Hx];
      eexists; (split; [vm_compute; reflexivity | discriminate]).
  - rewrite Hrun in Hrun'. injection Hrun' as <-. exact Hperm.
Defined.

(** X21: with numeric scores, the front page is the first article, in
    the order of the sections, among those of the highest score: no
    article scores higher, and no earlier article scores the same. *)
Theorem front_page_is_the_first_top_scored (np : Newspaper) (org : Organized)
  (a : Item) :
  scores_are_numbers (all_articles np) ->
  _organize_articles np = inr org ->
  front_page org = Some a ->
  a ∈ all_articles np /\
  (forall b, b ∈ all_articles np -> float_le (score b) (score a) = true) /\
  head (filter (fun b => float_eq (score b) (score a) = true) (all_articles np))
  = Some a.
Proof.
  intros Hn Hrun Hfront.
  destruct (all_articles np) as [|x l] eqn:Eall.
  { unfold _organize_articles in Hrun. rewrite Eall in Hrun.
    injection Hrun as <-. done. }
  rewrite <- Eall in *.
  destruct (organize_run np Hn) as (a' & remaining & Hsort & Hrun');
    [by rewrite Eall|].
  rewrite Hrun in Hrun'. injection Hrun' as ->. simpl in Hfront.
  injection Hfront as ->.
  destruct (sort_reverse_numbers _ Hn) as (d & Hd & Hperm & Hdesc & Hties).
  rewrite Hsort in Hd. injection Hd as <-.
  assert (a ∈ all_articles np) as Ha by (rewrite <- Hperm; by left).
  pose proof (scores_not_nan _ Hn a Ha) as Hnan.
  split; [done|]. split.
  - intros b Hb. rewrite <- Hperm in Hb.
    apply elem_of_cons in Hb as [->|Hb].
    + destruct (score a) as [|[]|q]; simpl; try done.
      apply Qle_bool_iff, Qle_refl.
    + apply StronglySorted_inv in Hdesc as [_ Hall].
      rewrite Forall_forall in Hall. by apply Hall.
  - rewrite <- Hties. rewrite filter_cons_True; [done|].
    by apply float_eq_refl.
Qed.

Lemma front_page_is_the_first_top_scored_witness :
  let art (t : string) (s : nat) :=
    ADict (list_to_map [("title", VStr t); ("score", VInt (Z.of_nat s))]) in
  let np := mkNewspaper None None
              (Some [mkSection None (Some [art "a" 3; art "b" 9]);
                     mkSection None (Some [art "c" 9])]) in
  head (filter (fun b => float_eq (score b) (score (art "b" 9)) = true)
               (all_articles np)) = Some (art "b" 9).
Proof.
  intros art np.
  apply (front_page_is_the_first_top_scored np
           (mkOrganized (Some (art "b" 9)) [art "c" 9] [art "a" 3] [])
           (art "b" 9)).
  - intros x Hx.
    assert (all_articles np = [art "a" 3; art "b" 9; art "c" 9]) as Hall
      by reflexivity.
    rewrite Hall in Hx.
    repeat (apply elem_of_cons in Hx as [->|Hx]);
      [..|by apply not_elem_of_nil in Hx];
      eexists; (split; [vm_compute; reflexivity | discriminate]).
  - vm_compute. reflexivity.
  - reflexivity.
Defined.

Lemma lookup_tail_S {A} (l : list A) (i : nat) : tail l !! i = l !! S i.
Proof. by destruct l. Qed.

(** X22: with numeric scores, the articles after the front page are
    dealt to the three columns in turn, in non-increasing order of score:
    row [j] of columns 1, 2 and 3 holds the articles of rank [3j], [3j+1]
    and [3j+2]; so the columns differ in length by at most one, the first
    being the longest. *)
Theorem columns_are_dealt_in_turn (np : Newspaper) (org : Organized) :
  scores_are_numbers (all_articles np) ->
  _organize_articles np = inr org ->
  exists remaining,
    option_list (front_page org) ++ remaining ≡ₚ all_articles np /\
    StronglySorted (fun a b => float_le (score b) (score a) = true)
                   (option_list (front_page org) ++ remaining) /\
    (forall j, column_1 org !! j = remaining !! (3 * j)%nat /\
               column_2 org !! j = remaining !! (3 * j + 1)%nat /\
               column_3 org !! j = remaining !! (3 * j + 2)%nat) /\
    (length (column_3 org) <= length (column_2 org) <= length (column_1 org)
     /\ length (column_1 org) <= length (column_3 org) + 1)%nat.
Proof.
  intros Hn Hrun.
  destruct (all_articles np) as [|x l] eqn:Eall.
  { unfold _organize_articles in Hrun. rewrite Eall in Hrun.
    injection Hrun as <-. exists []. simpl. repeat split; try done; try lia.
    constructor. }
  rewrite <- Eall in *.
  destruct (organize_run np Hn) as (a & remaining & Hsort & Hrun');
    [by rewrite Eall|].
  rewrite Hrun in Hrun'. injection Hrun' as ->. simpl.
  destruct (sort_reverse_numbers _ Hn) as (d & Hd & Hperm & Hdesc & _).
  rewrite Hsort in Hd. injection Hd as <-.
  exists remaining. split; [done|]. split; [done|]. split.
  - intros j. rewrite !every_third_lookup, !lookup_tail_S.
    repeat split; f_equal; lia.
  - pose proof (every_third_lengths remaining) as H. simpl in H. lia.
Qed.

Lemma columns_are_dealt_in_turn_witness :
  let art (t : string) (s : nat) :=
    ADict (list_to_map [("title", VStr t); ("score", VInt (Z.of_nat s))]) in
  let np := mkNewspaper None None
              (Some [mkSection None
                       (Some [art "a" 3; art "b" 9; art "c" 5; art "d" 7;
                              art "e" 1])]) in
  let org := mkOrganized (Some (art "b" 9)) [art "d" 7; art "e" 1]
                         [art "c" 5] [art "a" 3] in
  _organize_articles np = inr org /\
  (length (column_3 org) <= length (column_2 org) <= length (column_1 org))%nat.
Proof.
  intros art np org.
  assert (_organize_articles np = inr org) as Hrun by (vm_compute; reflexivity).
  split; [exact Hrun|].
  destruct (columns_are_dealt_in_turn np org) as (rem & _ & _ & _ & Hlen & _).
  - intros x Hx.
    assert (all_articles np
            = [art "a" 3; art "b" 9; art "c" 5; art "d" 7; art "e" 1]) as Hall
      by reflexivity.
    rewrite Hall in Hx.
    repeat (apply elem_of_cons in Hx as [->|Hx]);
      [..|by apply not_elem_of_nil in Hx];
      eexists; (split; [vm_compute; reflexivity | discriminate]).
  - exact Hrun.
  - exact Hlen.
Defined.

Lemma value_lt_same_kind (a b : Value) (r : bool) :
  value_lt a b = inr r -> (is_Some (numeric a) <-> is_Some (numeric b)).
Proof.
  destruct a, b; simpl; try done; intros _; split; intros [? [=]] || by eauto.
Qed.

Lemma value_lt_raises (a b : Value) (e : Raised) :
  value_lt a b = inl e -> e = TypeError.
Proof.
  unfold value_lt. destruct a, b; simpl; try done;
    repeat (match goal with |- context [match ?x with _ => _ end] =>
              destruct x end); try done; by intros [= <-].
Qed.

Lemma insert_by_ok {A} (key : A -> Value) (x : A) (l r : list A) :
  insert_by key x l = inr r ->
  r ≡ₚ x :: l /\
  forall y, head l = Some y ->
    (is_Some (numeric (key y)) <-> is_Some (numeric (key x))).
Proof.
  revert r. induction l as [|y l IH]; simpl; intros r H.
  - injection H as <-. by split.
  - destruct (value_lt (key y) (key x)) as [e|[]] eqn:E; [done| |].
    + destruct (insert_by key x l) as [e|r0]; [done|]. injection H as <-.
      destruct (IH r0 eq_refl) as [Hp _]. split.
      * rewrite Hp. apply Permutation_swap.
      * intros ? [= <-]. by apply (value_lt_same_kind _ _ _ E).
    + injection H as <-. split; [done|].
      intros ? [= <-]. by apply (value_lt_same_kind _ _ _ E).
Qed.

Lemma insert_by_raises {A} (key : A -> Value) (x : A) (l : list A) e :
  insert_by key x l = inl e -> e = TypeError.
Proof.
  induction l as [|y l IH]; simpl; [done|].
  destruct (value_lt (key y) (key x)) as [e'|[]] eqn:E.
  - intros [= <-]. by apply (value_lt_raises _ _ _ E).
  - destruct (insert_by key x l) as [e'|r0]; [|done].
    intros [= <-]. by apply IH.
  - done.
Qed.

(** A sort that succeeds has compared keys of one kind only: all numbers
    or all strings. *)
Lemma sort_by_ok {A} (key : A -> Value) (l r : list A) :
  sort_by key l = inr r ->
  r ≡ₚ l /\
  forall a b, a ∈ l -> b ∈ l ->
    (is_Some (numeric (key a)) <-> is_Some (numeric (key b))).
Proof.
  revert r. induction l as [|x l IH]; simpl; intros r H.
  - injection H as <-. split; [done|]. intros a b Ha.
    by apply not_elem_of_nil in Ha.
  - destruct (sort_by key l) as [e|r0]; [done|].
    destruct (IH r0 eq_refl) as [Hp Hk].
    destruct (insert_by_ok key x r0 r H) as [Hp' Hh].
    split; [by rewrite Hp', Hp|].
    assert (forall a, a ∈ l ->
              (is_Some (numeric (key a)) <-> is_Some (numeric (key x)))) as Hx.
    { intros a Ha. destruct r0 as [|y r0'].
      - apply Permutation_nil_l in Hp. rewrite <- Hp in Ha.
        by apply not_elem_of_nil in Ha.
      - rewrite <- (Hh y eq_refl). apply Hk; [done|].
        rewrite <- Hp. by left. }
    intros a b Ha Hb.
    apply elem_of_cons in Ha as [->|Ha]; apply elem_of_cons in Hb as [->|Hb].
    + done.
    + symmetry. by apply Hx.
    + by apply Hx.
    + by apply Hk.
Qed.

Lemma sort_by_raises {A} (key : A -> Value) (l : list A) e :
  sort_by key l = inl e -> e = TypeError.
Proof.
  induction l as [|x l IH]; simpl; [done|].
  destruct (sort_by key l) as [e'|r0].
  - intros [= <-]. by apply IH.
  - apply insert_by_raises.
Qed.

Lemma organize_mixed_scores (np : Newspaper) (x y : Item) :
  x ∈ all_articles np -> y ∈ all_articles np ->
  numeric (score_key x) = None -> is_Some (numeric (score_key y)) ->
  _organize_articles np = inl TypeError.
Proof.
  intros Hx Hy Hsx Hsy. unfold _organize_articles, sort_reverse.
  destruct (all_articles np) as [|z l] eqn:Eall;
    [by apply not_elem_of_nil in Hx|].
  destruct (sort_by score_key (rev (z :: l))) as [e|r] eqn:Es.
  - by rewrite (sort_by_raises _ _ _ Es).
  - exfalso. destruct (sort_by_ok _ _ _ Es) as [_ Hk].
    assert (is_Some (numeric (score_key x))) as [f Hf].
    { apply (Hk y x); [| |done]; by rewrite rev_is_reverse, elem_of_reverse. }
    congruence.
Qed.

(** X23: when one article carries a string as its score and another a
    number (or no score, which counts as 0), the sort compares a string
    with a number and [_organize_articles] raises [TypeError]. *)
Theorem mixed_scores_raise_type_error (np : Newspaper) (x y : Item) :
  x ∈ all_articles np -> y ∈ all_articles np ->
  numeric (score_key x) = None -> is_Some (numeric (score_key y)) ->
  _organize_articles np = inl TypeError.
Proof. apply organize_mixed_scores. Qed.

Lemma mixed_scores_raise_type_error_witness :
  let scored := ADict (list_to_map [("title", VStr "a"); ("score", VInt 5)]) in
  let quoted := ADict (list_to_map [("title", VStr "b"); ("score", VStr "5")]) in
  _organize_articles
    (mkNewspaper None None (Some [mkSection None (Some [scored; quoted])]))
  = inl TypeError.
Proof.
  intros scored quoted.
  apply (mixed_scores_raise_type_error _ quoted scored).
  - right. left.
  - left.
  - reflexivity.
  - by eexists.
Defined.

(** ** _create_text_version *)

Lemma article_text_outcome env (x : Item) :
  if article_ok x
  then exists t, article_text env x = inr t
  else exists e, article_text env x = inl e /\ (e = AttributeError \/ e = TypeError).
Proof.
  destruct x as [d|v]; simpl; [|by eauto].
  set (c := default (default (VStr "") (d !! "summary")) (d !! "content")).
  destruct (truthy c) eqn:Et; [|by eauto].
  destruct c; simpl; by eauto.
Qed.

Lemma articles_text_outcome env content (l : list Item) :
  ((forall x, x ∈ l -> article_ok x = true) ->
   exists t, articles_text env content l = inr t) /\
  ((exists x, x ∈ l /\ article_ok x = false) ->
   exists e, articles_text env content l = inl e /\
             (e = AttributeError \/ e = TypeError)).
Proof.
  revert content. induction l as [|x l IH]; intros content; simpl.
  - split; [by eauto|]. intros (x & Hx & _). by apply not_elem_of_nil in Hx.
  - pose proof (article_text_outcome env x) as Hx.
    destruct (article_ok x) eqn:Eok.
    + destruct Hx as [t ->]. split.
      * intros H. apply IH. intros y Hy. apply H. by right.
      * intros (y & Hy & Hbad). apply IH. exists y. split; [|done].
        apply elem_of_cons in Hy as [->|Hy]; [congruence | done].
    + destruct Hx as (e & -> & He). split; [|by eauto].
      intros H. rewrite H in Eok; [done | by left].
Qed.

Lemma articles_text_error_kind env content (l : list Item) e :
  articles_text env content l = inl e -> e = AttributeError \/ e = TypeError.
Proof.
  revert content. induction l as [|x l IH]; intros content; simpl; [done|].
  pose proof (article_text_outcome env x) as Hx.
  destruct (article_ok x).
  - destruct Hx as [t ->]. apply IH.
  - destruct Hx as (e' & -> & He). by intros [= <-].
Qed.

Lemma sections_text_outcome env content (l : list NewsSection) :
  let all := concat (map (fun s => default [] (sec_articles s)) l) in
  ((forall x, x ∈ all -> article_ok x = true) ->
   exists t, sections_text env content l = inr t) /\
  ((exists x, x ∈ all /\ article_ok x = false) ->
   exists e, sections_text env content l = inl e /\
             (e = AttributeError \/ e = TypeError)).
Proof.
  revert content. induction l as [|s l IH]; intros content; simpl.
  - split; [by eauto|]. intros (x & Hx & _). by apply not_elem_of_nil in Hx.
  - set (c := (content +:+ _)%string).
    destruct (articles_text_outcome env c (default [] (sec_articles s)))
      as [Hgood Hbad].
    split.
    + intros H. destruct Hgood as [t ->].
      { intros x Hx. apply H. apply elem_of_app. by left. }
      apply IH. intros x Hx. apply H. apply elem_of_app. by right.
    + intros (x & Hx & Hx'). apply elem_of_app in Hx as [Hx|Hx].
      * destruct Hbad as (e & -> & He); by eauto.
      * destruct (articles_text env c (default [] (sec_articles s)))
          as [e|t] eqn:Ea.
        -- exists e. split; [done|].
           by apply (articles_text_error_kind _ _ _ _ Ea).
        -- apply IH. by eauto.
Qed.

Lemma text_version_outcome env (np : Newspaper) :
  ((forall x, x ∈ all_articles np -> article_ok x = true) ->
   exists t, _create_text_version env np = inr t) /\
  ((exists x, x ∈ all_articles np /\ article_ok x = false) ->
   exists e, _create_text_version env np = inl e /\
             (e = AttributeError \/ e = TypeError)).
Proof.
  unfold _create_text_version, all_articles.
  set (c := (default "Your Newspaper" (np_title np) +:+ _)%string).
  destruct (sections_text_outcome env c (default [] (np_sections np)))
    as [Hgood Hbad].
  split; intros H.
  - destruct (Hgood H) as [t ->]. by eauto.
  - destruct (Hbad H) as (e & -> & He). by eauto.
Qed.



(** ** send_newspaper *)

(** X25: a newspaper that cannot be rendered is never sent: when an
    article is not printable, when the template cannot be loaded, or when
    the scores mix strings and numbers, [send_newspaper] returns the
    failure result and makes no call to the mail server at all. *)
Theorem unrenderable_newspaper_reaches_no_server
  (env : Env) (self : EmailService) (np : Newspaper) (subject : option string)
  (m : Mail) :
  ((exists x, x ∈ all_articles np /\ article_ok x = false) \/
   template env = None \/
   (exists x y, x ∈ all_articles np /\ y ∈ all_articles np /\
                numeric (score_key x) = None /\
                is_Some (numeric (score_key y)))) ->
  exists err, send_newspaper env self np subject m = (NotDelivered err, m).
Proof.
  intros Hcause. unfold send_newspaper.
  destruct (_create_text_version env np) as [e|t] eqn:Et; [by eauto|].
  destruct Hcause as [Hbad|[Hnone|(x & y & Hx & Hy & Hsx & Hsy)]].
  - destruct (proj2 (text_version_outcome env np) Hbad) as (e & He & _).
    congruence.
  - unfold _create_html_version. rewrite Hnone. by eauto.
  - unfold _create_html_version. destruct (template env); [|by eauto].
    rewrite (organize_mixed_scores np x y Hx Hy Hsx Hsy). by eauto.
Qed.

Lemma unrenderable_newspaper_reaches_no_server_witness :
  let quoted := ADict (list_to_map [("title", VStr "b"); ("score", VStr "5")]) in
  exists err,
    send_newspaper MailDemo.env MailDemo.service
      (MailDemo.paper [MailDemo.article "a" 1; quoted]) None MailDemo.idle
    = (NotDelivered err, MailDemo.idle).
Proof.
  intros quoted.
  apply (unrenderable_newspaper_reaches_no_server MailDemo.env
           MailDemo.service (MailDemo.paper [MailDemo.article "a" 1; quoted])
           None MailDemo.idle).
  right. right. exists quoted, (MailDemo.article "a" 1).
  split; [right; left|]. split; [left|]. split; [reflexivity | by eexists].
Defined.

Lemma smtp_calls c m : calls (snd (smtp c m)) = calls m ++ [c].
Proof. unfold smtp. by destruct (outcomes m) as [|[msg|] rest]. Qed.

(** The calls a session makes are an initial part of the calls it was
    given, and all of them when no call raised. *)
Lemma session_trace (cs : list SmtpCall) (m : Mail) :
  exists new,
    calls (snd (session cs m)) = calls m ++ new /\
    new `prefix_of` cs /\
    (forall u, fst (session cs m) = inr u -> new = cs).
Proof.
  revert m. induction cs as [|c cs IH]; intros m; simpl.
  - exists []. rewrite app_nil_r. by repeat split.
  - pose proof (smtp_calls c m) as Hc.
    destruct (smtp c m) as [[e|[]] m1]; simpl in *.
    + exists [c]. split; [done|]. split; [by exists cs | done].
    + destruct (IH m1) as (new & Hnew & Hpre & Hall).
      exists (c :: new). rewrite Hnew, Hc, <- app_assoc. split; [done|].
      split; [by apply prefix_cons|]. intros u Hu. f_equal. by apply (Hall u).
Qed.

(** X26: whatever the mail server does, the calls [send_newspaper] makes
    begin with the connection to the configured server and port, use
    STARTTLS only when TLS is configured, log in only with the configured
    user name and password and only when both are non-empty, and hand over
    only messages addressed to the service's own address, sent from it,
    with a plain part followed by an HTML part. *)
Theorem calls_follow_the_configuration
  (env : Env) (self : EmailService) (np : Newspaper) (subject : option string)
  (m : Mail) :
  exists new,
    calls (snd (send_newspaper env self np subject m)) = calls m ++ new /\
    (new = [] \/ head new = Some (Connect (server self) (port self))) /\
    forall c, c ∈ new ->
      match c with
      | Connect s p => s = server self /\ p = port self
      | StartTls => use_tls self = true
      | Login u p =>
          u = username self /\ p = password self /\ u <> "" /\ p <> ""
      | SendMessage msg =>
          m_to msg = from_email self /\
          m_from msg = (from_name self +:+ " <" +:+ from_email self +:+ ">")%string /\
          m_subject msg = subject_line env np subject /\
          map fst (m_parts msg) = ["plain"; "html"]%string
      | Quit => True
      end.
Proof.
  unfold send_newspaper.
  destruct (_create_text_version env np) as [e|t];
    [exists []; rewrite app_nil_r; split; [done|]; split; [by left|];
     intros c Hc; by apply not_elem_of_nil in Hc|].
  destruct (_create_html_version env np) as [e|html];
    [exists []; rewrite app_nil_r; split; [done|]; split; [by left|];
     intros c Hc; by apply not_elem_of_nil in Hc|].
  set (msg := mkMessage _ _ _ _).
  destruct (session_trace (delivery self msg) m) as (new & Hnew & Hpre & _).
  exists new. split.
  { by destruct (session (delivery self msg) m) as [[e|u] m']. }
  split.
  { destruct new as [|c new']; [by left|]. right.
    destruct Hpre as [k Hk]. unfold delivery in Hk. simpl in Hk.
    by injection Hk as <- _. }
  intros c Hc.
  assert (c ∈ delivery self msg) as Hin.
  { destruct Hpre as [k ->]. apply elem_of_app. by left. }
  unfold delivery in Hin.
  rewrite !elem_of_app in Hin.
  destruct Hin as [Hin|[Hin|[Hin|Hin]]].
  - apply list_elem_of_singleton in Hin as ->. done.
  - destruct (use_tls self); [|by apply not_elem_of_nil in Hin].
    by apply list_elem_of_singleton in Hin as ->.
  - destruct (str_truthy (username self)) eqn:Eu;
      destruct (str_truthy (password self)) eqn:Ep; simpl in Hin;
      try (by apply not_elem_of_nil in Hin).
    apply list_elem_of_singleton in Hin as ->.
    unfold str_truthy in Eu, Ep.
    apply negb_true_iff, String.eqb_neq in Eu, Ep. done.
  - apply elem_of_cons in Hin as [->|Hin]; [done|].
    by apply list_elem_of_singleton in Hin as ->.
Qed.

Ltac run_session Hout :=
  unfold send_newspaper, delivery in *;
  repeat match goal with
         | |- context [use_tls ?s] => destruct (use_tls s)
         | |- context [str_truthy ?u && str_truthy ?p] =>
             destruct (str_truthy u && str_truthy p)
         end;
  simpl in Hout; simpl; unfold smtp; rewrite Hout; simpl.

(** X27: when handing over the message raises, the failure is reported
    and the connection is left open: every call up to [send_message] was
    made and [quit] is never called. *)
Theorem failed_send_leaves_connection_open
  (env : Env) (self : EmailService) (np : Newspaper) (subject : option string)
  (m : Mail) (t html err : string) (rest : list (option string)) :
  _create_text_version env np = inr t ->
  _create_html_version env np = inr html ->
  let msg := mkMessage (from_name self +:+ " <" +:+ from_email self +:+ ">")
                       (from_email self) (subject_line env np subject)
                       [("plain", t); ("html", html)] in
  outcomes m
  = replicate (length (delivery self msg) - 2) None ++ Some err :: rest ->
  exists m' new,
    send_newspaper env self np subject m
    = (NotDelivered (str_exc env (Failure err)), m') /\
    calls m' = calls m ++ new /\
    last new = Some (SendMessage msg) /\
    Quit ∉ new.
Proof.
  intros Ht Hh msg Hout. subst msg. unfold send_newspaper. rewrite Ht, Hh.
  run_session Hout; do 2 eexists; (split; [reflexivity|]);
    (split; [rewrite <- !app_assoc; reflexivity|]); (split; [reflexivity|]);
    intros Hq; repeat (apply elem_of_cons in Hq as [Hq|Hq]; [discriminate|]);
    by apply not_elem_of_nil in Hq.
Qed.

Lemma failed_send_leaves_connection_open_witness :
  let np := MailDemo.paper [MailDemo.article "a" 1] in
  let m := mkMail [None; None; None; Some "mailbox unavailable"] [] in
  exists m' new,
    send_newspaper MailDemo.env MailDemo.service np None m
    = (NotDelivered "mailbox unavailable", m') /\
    calls m' = new /\ Quit ∉ new.
Proof.
  intros np m.
  destruct (_create_text_version MailDemo.env np) as [e|t] eqn:Et;
    [vm_compute in Et; discriminate Et|].
  destruct (_create_html_version MailDemo.env np) as [e|html] eqn:Eh;
    [vm_compute in Eh; discriminate Eh|].
  destruct (failed_send_leaves_connection_open MailDemo.env MailDemo.service
              np None m t html "mailbox unavailable" [] Et Eh)
    as (m' & new & Hrun & Hcalls & _ & Hq).
  - reflexivity.
  - exists m', new. split; [exact Hrun|]. split; [exact Hcalls | exact Hq].
Defined.

(** X28: when every call up to [send_message] succeeds and [quit] then
    raises, the message has been handed to the server and yet the result
    reports a failure. *)
Theorem quit_failure_masks_a_delivery
  (env : Env) (self : EmailService) (np : Newspaper) (subject : option string)
  (m : Mail) (t html err : string) (rest : list (option string)) :
  _create_text_version env np = inr t ->
  _create_html_version env np = inr html ->
  let msg := mkMessage (from_name self +:+ " <" +:+ from_email self +:+ ">")
                       (from_email self) (subject_line env np subject)
                       [("plain", t); ("html", html)] in
  outcomes m
  = replicate (length (delivery self msg) - 1) None ++ Some err :: rest ->
  exists m',
    send_newspaper env self np subject m
    = (NotDelivered (str_exc env (Failure err)), m') /\
    calls m' = calls m ++ delivery self msg /\
    SendMessage msg ∈ calls m'.
Proof.
  intros Ht Hh msg Hout. subst msg. unfold send_newspaper. rewrite Ht, Hh.
  run_session Hout; eexists; (split; [reflexivity|]);
    rewrite <- !app_assoc; (split; [reflexivity|]); simpl;
    apply elem_of_app; right; repeat (first [by left | right]).
Qed.

Lemma quit_failure_masks_a_delivery_witness :
  let np := MailDemo.paper [MailDemo.article "a" 1] in
  let m := mkMail [None; None; None; None; Some "connection reset"] [] in
  exists m' msg,
    send_newspaper MailDemo.env MailDemo.service np None m
    = (NotDelivered "connection reset", m') /\
    SendMessage msg ∈ calls m'.
Proof.
  intros np m.
  destruct (_create_text_version MailDemo.env np) as [e|t] eqn:Et;
    [vm_compute in Et; discriminate Et|].
  destruct (_create_html_version MailDemo.env np) as [e|html] eqn:Eh;
    [vm_compute in Eh; discriminate Eh|].
  destruct (quit_failure_masks_a_delivery MailDemo.env MailDemo.service
              np None m t html "connection reset" [] Et Eh)
    as (m' & Hrun & _ & Hin).
  - reflexivity.
  - exists m'. eexists. split; [exact Hrun | exact Hin].
Defined.
